(** * Replay.ai end-to-end scenario scripts (testsprite_tests)

    Every script under [testsprite_tests/] is one coroutine [run_test]:
    three handle variables ([pw], [browser], [context]) initialised to
    [None], a [try] block that starts Playwright, launches Chromium, opens a
    context and a page and then drives the application step by step, and a
    [finally] block that closes whatever was opened.

    The Playwright library and the application under test are not part of
    the repository.  They are represented by a [World]: an oracle that
    answers every library call with a reply (a returned value or a raised
    error).  The scripts are embedded as computations in a state-and-error
    monad over an event log, so that every property below is a statement
    about all worlds. *)

From Stdlib Require Import String Ascii List Arith NArith Bool Lia.
Import ListNotations.
Open Scope string_scope.
Open Scope list_scope.

(** ** Errors *)

(** The exception classes the scripts distinguish.  [async_api.TimeoutError]
    is a subclass of [async_api.Error]; everything that is neither an
    [AssertionError] nor a Playwright error is [OtherException]. *)
Inductive error_class :=
| AssertionError
| PlaywrightTimeoutError
| PlaywrightError
| OtherException.

(** An exception object: its class, its message and the chain of its
    [__context__] (the exceptions that were being handled when it was
    raised, innermost first). *)
Record exn := Exn {
  exn_class : error_class;
  exn_msg : string;
  exn_context : list (error_class * string)
}.

(** The exception followed by its whole context chain. *)
Definition exn_trail (e : exn) : list (error_class * string) :=
  (exn_class e, exn_msg e) :: exn_context e.

(** [during e e']: [e'] was raised while [e] was being handled, so [e] and
    its chain are appended to the context chain of [e']. *)
Definition during (e e' : exn) : exn :=
  Exn (exn_class e') (exn_msg e') (exn_context e' ++ exn_trail e).

(** [except async_api.Error] *)
Definition is_async_api_Error (c : error_class) : bool :=
  match c with
  | PlaywrightTimeoutError | PlaywrightError => true
  | _ => false
  end.

(** [except AssertionError] *)
Definition is_AssertionError (c : error_class) : bool :=
  match c with
  | AssertionError => true
  | _ => false
  end.

(** ** Library objects and calls *)

(** Playwright objects (the Playwright driver, browsers, contexts, pages and
    frames) are identified by a number chosen by the world. *)
Definition handle := nat.

(** [frame.locator(sel)] matches every element, [.nth(n)] and [.first]
    narrow it to one. *)
Inductive pick :=
| AllMatches
| Nth (n : nat)
| First.

Record locator := Locator {
  loc_frame : handle;
  selector : string;
  which : pick
}.

Definition locator_ (frame : handle) (sel : string) : locator :=
  Locator frame sel AllMatches.
Definition nth_ (l : locator) (n : nat) : locator :=
  Locator (loc_frame l) (selector l) (Nth n).
Definition first_ (l : locator) : locator :=
  Locator (loc_frame l) (selector l) First.

(** Every interaction of a script with the library.  Durations in
    milliseconds are binary numbers. *)
Inductive call :=
| PlaywrightStart                                   (* async_playwright().start() *)
| ChromiumLaunch (pw : handle) (headless : bool) (args : list string)
| NewContext (browser : handle)                     (* browser.new_context() *)
| SetDefaultTimeout (context : handle) (ms : N)   (* context.set_default_timeout(ms) *)
| NewPage (context : handle)                        (* context.new_page() *)
| Goto (page : handle) (url : string) (wait_until : option string) (timeout : N)
| WaitForLoadState (frame : handle) (st : string) (timeout : N)
| PageFrames (page : handle)                        (* page.frames *)
| ContextPagesLast (context : handle)               (* context.pages[-1] *)
| WaitForTimeout (page : handle) (ms : N)           (* page.wait_for_timeout(ms) *)
| Click (elem : locator) (timeout : N)              (* elem.click(timeout=...) *)
| Fill (elem : locator) (value : string)            (* elem.fill(value) *)
| MouseWheel (page : handle) (dx dy : nat)          (* page.mouse.wheel(dx, dy) *)
| Evaluate (page : handle) (js : string)            (* page.evaluate(js) *)
| Content (frame : handle)                          (* frame.content() *)
| Count (elem : locator)                            (* locator.count() *)
| ExpectToBeVisible (elem : locator) (timeout : N) (* expect(elem).to_be_visible(timeout=...) *)
| Sleep (seconds : nat)                             (* asyncio.sleep(seconds) *)
| ContextClose (context : handle)                   (* context.close() *)
| BrowserClose (browser : handle)                   (* browser.close() *)
| PlaywrightStop (pw : handle).                     (* pw.stop() *)

(** What a call comes back with: either it raises ([fault]), or it returns;
    a returning call yields an object or a number ([int_val]: the handle of
    a new object, the number of frames, a count, [window.innerHeight]) or a
    text ([str_val]: the page content). *)
Record reply := Reply {
  fault : option (error_class * string);
  int_val : nat;
  str_val : string
}.

Record event := Ev {
  ev_line : nat;      (* the source line of the call *)
  ev_call : call;
  ev_reply : reply
}.

(** The world answers the [n]-th call of a run. *)
Definition World := nat -> call -> reply.

(** ** The state of a run *)

Record state := State {
  log : list event;          (* newest first *)
  pw : option handle;
  browser : option handle;
  context : option handle;
  stdout : list string       (* printed lines, newest first *)
}.

Definition initial_state : state := State [] None None None [].

(** The events of a run in the order they happened. *)
Definition history (s : state) : list event := rev (log s).

Inductive result (A : Type) :=
| Returned (a : A)
| Raised (e : exn).
Arguments Returned {A} a.
Arguments Raised {A} e.

(** ** The monad of script fragments *)

Definition M (A : Type) := World -> state -> result A * state.

Definition ret {A} (a : A) : M A := fun _ s => (Returned a, s).

Definition bind {A B} (m : M A) (k : A -> M B) : M B :=
  fun w s =>
    match m w s with
    | (Returned a, s') => k a w s'
    | (Raised e, s') => (Raised e, s')
    end.

Declare Scope script_scope.
Delimit Scope script_scope with script.
Notation "x <- m ;; k" := (bind m (fun x => k))
  (at level 100, m at next level, right associativity) : script_scope.
Notation "m ;; k" := (bind m (fun _ => k))
  (at level 100, right associativity) : script_scope.
Open Scope script_scope.

(** [raise cls(msg)] *)
Definition raise_ {A} (c : error_class) (msg : string) : M A :=
  fun _ s => (Raised (Exn c msg []), s).

Definition record (e : event) (s : state) : state :=
  State (e :: log s) (pw s) (browser s) (context s) (stdout s).

(** One library call at source line [line]: the world's reply is logged and
    either returned or raised.  A call's error is raised with an empty
    context chain: what a library error may carry inside is not
    represented, and the properties proved about chains only say what a
    chain contains, never what it lacks. *)
Definition perform (line : nat) (c : call) : M reply :=
  fun w s =>
    let r := w (length (log s)) c in
    let s' := record (Ev line c r) s in
    match fault r with
    | None => (Returned r, s')
    | Some (cls, msg) => (Raised (Exn cls msg []), s')
    end.

Definition await_ (line : nat) (c : call) : M unit :=
  _ <- perform line c ;; ret tt.
Definition await_int (line : nat) (c : call) : M nat :=
  r <- perform line c ;; ret (int_val r).
Definition await_str (line : nat) (c : call) : M string :=
  r <- perform line c ;; ret (str_val r).

(** [print(msg)] *)
Definition print (msg : string) : M unit :=
  fun _ s => (Returned tt,
              State (log s) (pw s) (browser s) (context s) (msg :: stdout s)).

(** Assignments to the three handle variables of [run_test]. *)
Definition set_pw (v : option handle) : M unit :=
  fun _ s => (Returned tt, State (log s) v (browser s) (context s) (stdout s)).
Definition set_browser (v : option handle) : M unit :=
  fun _ s => (Returned tt, State (log s) (pw s) v (context s) (stdout s)).
Definition set_context (v : option handle) : M unit :=
  fun _ s => (Returned tt, State (log s) (pw s) (browser s) v (stdout s)).
Definition get {A} (f : state -> A) : M A := fun _ s => (Returned (f s), s).

(** [try: m except <catches>: handler].  An exception raised by the handler
    has the caught one as its context. *)
Definition try_except {A} (m : M A) (catches : error_class -> bool)
    (handler : exn -> M A) : M A :=
  fun w s =>
    match m w s with
    | (Returned a, s') => (Returned a, s')
    | (Raised e, s') =>
        if catches (exn_class e) then
          match handler e w s' with
          | (Returned a, s'') => (Returned a, s'')
          | (Raised e', s'') => (Raised (during e e'), s'')
          end
        else (Raised e, s')
    end.

(** [try: m finally: fin].  The [finally] block always runs; if it raises,
    its exception replaces the pending one, which becomes its context. *)
Definition try_finally {A} (m : M A) (fin : M unit) : M A :=
  fun w s =>
    match m w s with
    | (Returned a, s') =>
        match fin w s' with
        | (Returned _, s'') => (Returned a, s'')
        | (Raised e', s'') => (Raised e', s'')
        end
    | (Raised e, s') =>
        match fin w s' with
        | (Returned _, s'') => (Raised e, s'')
        | (Raised e', s'') => (Raised (during e e'), s'')
        end
    end.

(** [for x in xs: body x] *)
Fixpoint for_each {A} (xs : list A) (body : A -> M unit) : M unit :=
  match xs with
  | [] => ret tt
  | x :: xs' => body x ;; for_each xs' body
  end.

(** ** The calls of the scripts, under their source names *)

Definition start (line : nat) : M handle :=
  await_int line PlaywrightStart.
Definition launch (line : nat) (pw : handle) (headless : bool)
    (args : list string) : M handle :=
  await_int line (ChromiumLaunch pw headless args).
Definition new_context (line : nat) (browser : handle) : M handle :=
  await_int line (NewContext browser).
Definition set_default_timeout (line : nat) (context : handle) (ms : N) : M unit :=
  await_ line (SetDefaultTimeout context ms).
Definition new_page (line : nat) (context : handle) : M handle :=
  await_int line (NewPage context).
Definition goto (line : nat) (page : handle) (url : string)
    (wait_until : option string) (timeout : N) : M unit :=
  await_ line (Goto page url wait_until timeout).
Definition wait_for_load_state (line : nat) (frame : handle) (st : string)
    (timeout : N) : M unit :=
  await_ line (WaitForLoadState frame st timeout).
(** [page.frames]: the world tells how many frames the page has; they are
    numbered from the page's own handle on (the main frame first). *)
Definition frames (line : nat) (page : handle) : M (list handle) :=
  n <- await_int line (PageFrames page) ;; ret (seq page n).
Definition pages_last (line : nat) (context : handle) : M handle :=
  await_int line (ContextPagesLast context).
Definition wait_for_timeout (line : nat) (page : handle) (ms : N) : M unit :=
  await_ line (WaitForTimeout page ms).
Definition click (line : nat) (elem : locator) (timeout : N) : M unit :=
  await_ line (Click elem timeout).
Definition fill (line : nat) (elem : locator) (value : string) : M unit :=
  await_ line (Fill elem value).
Definition wheel (line : nat) (page : handle) (dx dy : nat) : M unit :=
  await_ line (MouseWheel page dx dy).
Definition evaluate (line : nat) (page : handle) (js : string) : M nat :=
  await_int line (Evaluate page js).
Definition content (line : nat) (frame : handle) : M string :=
  await_str line (Content frame).
Definition count (line : nat) (elem : locator) : M nat :=
  await_int line (Count elem).
Definition expect_to_be_visible (line : nat) (elem : locator) (timeout : N) : M unit :=
  await_ line (ExpectToBeVisible elem timeout).
Definition sleep (line : nat) (seconds : nat) : M unit :=
  await_ line (Sleep seconds).
Definition close_context (line : nat) (context : handle) : M unit :=
  await_ line (ContextClose context).
Definition close_browser (line : nat) (browser : handle) : M unit :=
  await_ line (BrowserClose browser).
Definition stop (line : nat) (pw : handle) : M unit :=
  await_ line (PlaywrightStop pw).

(** ** Python string operations used by the scripts *)

(** [needle in hay] *)
Fixpoint contains (needle hay : string) : bool :=
  prefix needle hay ||
  match hay with
  | EmptyString => false
  | String _ hay' => contains needle hay'
  end.

Definition lower_ascii (c : ascii) : ascii :=
  let n := nat_of_ascii c in
  if ((65 <=? n) && (n <=? 90))%nat then ascii_of_nat (n + 32) else c.

(** [s.lower()], on the bytes of the text: only the letters [A] to [Z]
    change. *)
Fixpoint lower (s : string) : string :=
  match s with
  | EmptyString => EmptyString
  | String c s' => String (lower_ascii c) (lower s')
  end.

(** ** The part every script shares *)

(** Lines 12 to 46 of every script: start Playwright, launch the browser,
    open a context and a page, go to the application and wait for the page
    and its frames to load.  A Playwright error of a load-state wait is
    caught and dropped ([except async_api.Error: pass]). *)
Definition setup : M (handle * handle) :=
  pw_ <- start 12 ;;
  set_pw (Some pw_) ;;
  browser_ <- launch 15 pw_ true
    ["--window-size=1280,720"; "--disable-dev-shm-usage"; "--ipc=host";
     "--single-process"] ;;
  set_browser (Some browser_) ;;
  context_ <- new_context 26 browser_ ;;
  set_context (Some context_) ;;
  set_default_timeout 27 context_ 5000%N ;;
  page <- new_page 30 context_ ;;
  goto 33 page "http://localhost:3000" (Some "commit") 10000%N ;;
  try_except (wait_for_load_state 37 page "domcontentloaded" 3000%N)
    is_async_api_Error (fun _ => ret tt) ;;
  fs <- frames 42 page ;;
  for_each fs (fun frame =>
    try_except (wait_for_load_state 44 frame "domcontentloaded" 3000%N)
      is_async_api_Error (fun _ => ret tt)) ;;
  ret (context_, page).

(** The [finally] block, [fin] being the line of [finally:]. *)
Definition finalizer (fin : nat) : M unit :=
  c <- get context ;;
  match c with Some h => close_context (fin + 2) h | None => ret tt end ;;
  b <- get browser ;;
  match b with Some h => close_browser (fin + 4) h | None => ret tt end ;;
  p <- get pw ;;
  match p with Some h => stop (fin + 6) h | None => ret tt end.

(** [run_test], for the steps of one script (lines 48 to the end of the
    [try] block), given the context and the page. *)
Definition run_test (steps : handle -> handle -> M unit) (fin : nat) : M unit :=
  set_pw None ;;
  set_browser None ;;
  set_context None ;;
  try_finally
    (cp <- setup ;; steps (fst cp) (snd cp))
    (finalizer fin).

(** ** The scripts *)

(** [TC001_User_signup_with_valid_email_and_password.py], lines 48 to 127. *)
Definition TC001_steps (context page : handle) : M unit :=
  frame <- pages_last 50 context ;;
  let elem := nth_ (locator_ frame
      "xpath=html/body/div[2]/main/div/div[2]/div[2]/a/button") 0 in
  wait_for_timeout 53 page 3000%N ;; click 53 elem 5000%N ;;
  frame <- pages_last 57 context ;;
  let elem := nth_ (locator_ frame
      "xpath=html/body/div[2]/main/div/div/div[2]/div/div/a") 0 in
  wait_for_timeout 60 page 3000%N ;; click 60 elem 5000%N ;;
  frame <- pages_last 64 context ;;
  let elem := nth_ (locator_ frame
      "xpath=html/body/div[2]/main/div/div/div[2]/div/form/div/input") 0 in
  wait_for_timeout 67 page 3000%N ;;
  fill 67 elem "mrwaywithwords@gmail.com" ;;
  frame <- pages_last 70 context ;;
  let elem := nth_ (locator_ frame
      "xpath=html/body/div[2]/main/div/div/div[2]/div/form/div[2]/input") 0 in
  wait_for_timeout 73 page 3000%N ;; fill 73 elem "narte4-Kyqdis-coqkij" ;;
  frame <- pages_last 76 context ;;
  let elem := nth_ (locator_ frame
      "xpath=html/body/div[2]/main/div/div/div[2]/div/form/div[3]/input") 0 in
  wait_for_timeout 79 page 3000%N ;; fill 79 elem "narte4-Kyqdis-coqkij" ;;
  frame <- pages_last 83 context ;;
  let elem := nth_ (locator_ frame
      "xpath=html/body/div[2]/main/div/div/div[2]/div/form/button") 0 in
  wait_for_timeout 86 page 3000%N ;; click 86 elem 5000%N ;;
  frame <- pages_last 90 context ;;
  let elem := nth_ (locator_ frame
      "xpath=html/body/div[2]/main/div/div/div/div/div[2]/a/button") 0 in
  wait_for_timeout 93 page 3000%N ;; click 93 elem 5000%N ;;
  frame <- pages_last 97 context ;;
  let elem := nth_ (locator_ frame
      "xpath=html/body/div[2]/main/div/div/div[2]/div/form/div/input") 0 in
  wait_for_timeout 100 page 3000%N ;;
  fill 100 elem "mrwaywithwords@gmail.com" ;;
  frame <- pages_last 103 context ;;
  let elem := nth_ (locator_ frame
      "xpath=html/body/div[2]/main/div/div/div[2]/div/form/div[2]/input") 0 in
  wait_for_timeout 106 page 3000%N ;; fill 106 elem "narte4-Kyqdis-coqkij" ;;
  frame <- pages_last 109 context ;;
  let elem := nth_ (locator_ frame
      "xpath=html/body/div[2]/main/div/div/div[2]/div/form/button") 0 in
  wait_for_timeout 112 page 3000%N ;; click 112 elem 5000%N ;;
  frame <- pages_last 116 context ;;
  expect_to_be_visible 117 (first_ (locator_ frame
      "text=mrwaywithwords@gmail.com")) 30000%N ;;
  expect_to_be_visible 118 (first_ (locator_ frame
      "text=Sign Out")) 30000%N ;;
  expect_to_be_visible 119 (first_ (locator_ frame
      "text=Review and analyze your recorded sessions to sharpen your performance.")) 30000%N ;;
  expect_to_be_visible 120 (first_ (locator_ frame
      "text=Sessions This Week")) 30000%N ;;
  expect_to_be_visible 121 (first_ (locator_ frame "text=2")) 30000%N ;;
  expect_to_be_visible 122 (first_ (locator_ frame
      "text=Total Minutes Practiced")) 30000%N ;;
  expect_to_be_visible 123 (first_ (locator_ frame "text=0")) 30000%N ;;
  expect_to_be_visible 124 (first_ (locator_ frame
      "text=Top Session Type")) 30000%N ;;
  expect_to_be_visible 125 (first_ (locator_ frame
      "text=Interview")) 30000%N ;;
  sleep 126 5.
Definition TC001_finally : nat := 128.

(** [TC004_Create_a_new_interview_session_with_audio_recording.py], lines 48 to 145. *)
Definition TC004_steps (context page : handle) : M unit :=
  frame <- pages_last 50 context ;;
  let elem := nth_ (locator_ frame
      "xpath=html/body/div[2]/header/div/a/button") 0 in
  wait_for_timeout 53 page 3000%N ;; click 53 elem 5000%N ;;
  frame <- pages_last 57 context ;;
  let elem := nth_ (locator_ frame
      "xpath=html/body/div[2]/main/div/div/div[2]/div/form/div/input") 0 in
  wait_for_timeout 60 page 3000%N ;;
  fill 60 elem "mrwaywithwords@gmail.com" ;;
  frame <- pages_last 63 context ;;
  let elem := nth_ (locator_ frame
      "xpath=html/body/div[2]/main/div/div/div[2]/div/form/div[2]/input") 0 in
  wait_for_timeout 66 page 3000%N ;; fill 66 elem "narte4-Kyqdis-coqkij" ;;
  frame <- pages_last 69 context ;;
  let elem := nth_ (locator_ frame
      "xpath=html/body/div[2]/main/div/div/div[2]/div/form/button") 0 in
  wait_for_timeout 72 page 3000%N ;; click 72 elem 5000%N ;;
  frame <- pages_last 76 context ;;
  let elem := nth_ (locator_ frame
      "xpath=html/body/div[2]/main/div/div/div[2]/a/button") 0 in
  wait_for_timeout 79 page 3000%N ;; click 79 elem 5000%N ;;
  frame <- pages_last 83 context ;;
  let elem := nth_ (locator_ frame
      "xpath=html/body/div[2]/main/div/div[2]/div/form/div/input") 0 in
  wait_for_timeout 86 page 3000%N ;;
  fill 86 elem "Interview Session with Audio Recording" ;;
  frame <- pages_last 90 context ;;
  let elem := nth_ (locator_ frame
      "xpath=html/body/div[2]/main/div/div[2]/div/form/div[2]/div/button") 0 in
  wait_for_timeout 93 page 3000%N ;; click 93 elem 5000%N ;;
  frame <- pages_last 97 context ;;
  let elem := nth_ (locator_ frame "xpath=html/body/div[3]/div/div/div") 0 in
  wait_for_timeout 100 page 3000%N ;; click 100 elem 5000%N ;;
  frame <- pages_last 104 context ;;
  let elem := nth_ (locator_ frame
      "xpath=html/body/div[2]/main/div/div[2]/div/form/div[2]/div[2]/button") 0 in
  wait_for_timeout 107 page 3000%N ;; click 107 elem 5000%N ;;
  frame <- pages_last 111 context ;;
  let elem := nth_ (locator_ frame "xpath=html/body/div[3]/div/div/div") 0 in
  wait_for_timeout 114 page 3000%N ;; click 114 elem 5000%N ;;
  frame <- pages_last 118 context ;;
  let elem := nth_ (locator_ frame
      "xpath=html/body/div[2]/main/div/div[2]/div/form/div[3]/div/button") 0 in
  wait_for_timeout 121 page 3000%N ;; click 121 elem 5000%N ;;
  frame <- pages_last 125 context ;;
  let elem := nth_ (locator_ frame "xpath=html/body/div[3]/div/div/div") 0 in
  wait_for_timeout 128 page 3000%N ;; click 128 elem 5000%N ;;
  frame <- pages_last 132 context ;;
  let elem := nth_ (locator_ frame
      "xpath=html/body/div[2]/main/div/div[2]/div/form/div[5]/button[2]") 0 in
  wait_for_timeout 135 page 3000%N ;; click 135 elem 5000%N ;;
  frame <- pages_last 139 context ;;
  try_except
      (expect_to_be_visible 141 (first_ (locator_ frame
      "text=Recording Started Successfully")) 30000%N)
      is_AssertionError
      (fun _ => raise_ AssertionError
        
      "Test case failed: The audio recording did not start successfully as expected in the interview session creation process.") ;;
  sleep 144 5.
Definition TC004_finally : nat := 146.

(** [TC005_Create_a_new_trading_session_with_video_recording.py], lines 48 to 156. *)
Definition TC005_steps (context page : handle) : M unit :=
  frame <- pages_last 50 context ;;
  let elem := nth_ (locator_ frame
      "xpath=html/body/div[2]/header/div/a/button") 0 in
  wait_for_timeout 53 page 3000%N ;; click 53 elem 5000%N ;;
  frame <- pages_last 57 context ;;
  let elem := nth_ (locator_ frame
      "xpath=html/body/div[2]/main/div/div/div[2]/div/form/div/input") 0 in
  wait_for_timeout 60 page 3000%N ;;
  fill 60 elem "mrwaywithwords@gmail.com" ;;
  frame <- pages_last 63 context ;;
  let elem := nth_ (locator_ frame
      "xpath=html/body/div[2]/main/div/div/div[2]/div/form/div[2]/input") 0 in
  wait_for_timeout 66 page 3000%N ;; fill 66 elem "narte4-Kyqdis-coqkij" ;;
  frame <- pages_last 69 context ;;
  let elem := nth_ (locator_ frame
      "xpath=html/body/div[2]/main/div/div/div[2]/div/form/button") 0 in
  wait_for_timeout 72 page 3000%N ;; click 72 elem 5000%N ;;
  frame <- pages_last 76 context ;;
  let elem := nth_ (locator_ frame
      "xpath=html/body/div[2]/main/div/div/div[2]/a/button") 0 in
  wait_for_timeout 79 page 3000%N ;; click 79 elem 5000%N ;;
  frame <- pages_last 83 context ;;
  let elem := nth_ (locator_ frame
      "xpath=html/body/div[2]/main/div/div/div[2]/div/form/div/input") 0 in
  wait_for_timeout 86 page 3000%N ;;
  fill 86 elem "mrwaywithwords@gmail.com" ;;
  frame <- pages_last 89 context ;;
  let elem := nth_ (locator_ frame
      "xpath=html/body/div[2]/main/div/div/div[2]/div/form/div[2]/input") 0 in
  wait_for_timeout 92 page 3000%N ;; fill 92 elem "narte4-Kyqdis-coqkij" ;;
  frame <- pages_last 95 context ;;
  let elem := nth_ (locator_ frame
      "xpath=html/body/div[2]/main/div/div/div[2]/div/form/button") 0 in
  wait_for_timeout 98 page 3000%N ;; click 98 elem 5000%N ;;
  frame <- pages_last 102 context ;;
  let elem := nth_ (locator_ frame
      "xpath=html/body/div[2]/main/div/div/div[2]/a/button") 0 in
  wait_for_timeout 105 page 3000%N ;; click 105 elem 5000%N ;;
  frame <- pages_last 109 context ;;
  let elem := nth_ (locator_ frame
      "xpath=html/body/div[2]/main/div/div[2]/div/form/div/input") 0 in
  wait_for_timeout 112 page 3000%N ;; fill 112 elem "Trading Session 1" ;;
  frame <- pages_last 115 context ;;
  let elem := nth_ (locator_ frame
      "xpath=html/body/div[2]/main/div/div[2]/div/form/div[2]/div/button") 0 in
  wait_for_timeout 118 page 3000%N ;; click 118 elem 5000%N ;;
  frame <- pages_last 122 context ;;
  let elem := nth_ (locator_ frame
      "xpath=html/body/div[3]/div/div/div[2]") 0 in
  wait_for_timeout 125 page 3000%N ;; click 125 elem 5000%N ;;
  frame <- pages_last 129 context ;;
  let elem := nth_ (locator_ frame
      "xpath=html/body/div[2]/main/div/div[2]/div/form/div[2]/div[2]/button") 0 in
  wait_for_timeout 132 page 3000%N ;; click 132 elem 5000%N ;;
  frame <- pages_last 136 context ;;
  let elem := nth_ (locator_ frame
      "xpath=html/body/div[3]/div/div/div[2]") 0 in
  wait_for_timeout 139 page 3000%N ;; click 139 elem 5000%N ;;
  frame <- pages_last 143 context ;;
  let elem := nth_ (locator_ frame
      "xpath=html/body/div[2]/main/div/div[2]/div/form/div[3]/div/button") 0 in
  wait_for_timeout 146 page 3000%N ;; click 146 elem 5000%N ;;
  frame <- pages_last 150 context ;;
  try_except
      (expect_to_be_visible 152 (first_ (locator_ frame
      "text=Recording session failed to start")) 1000%N)
      is_AssertionError
      (fun _ => raise_ AssertionError
        
      "Test case failed: The test plan execution failed to create and start a trading session with video recording successfully.") ;;
  sleep 155 5.
Definition TC005_finally : nat := 157.

(** [TC010_Manual_transcript_editing_with_search_and_highlighting.py], lines 48 to 171. *)
Definition TC010_steps (context page : handle) : M unit :=
  frame <- pages_last 50 context ;;
  let elem := nth_ (locator_ frame
      "xpath=html/body/div[2]/header/div/a/button") 0 in
  wait_for_timeout 53 page 3000%N ;; click 53 elem 5000%N ;;
  frame <- pages_last 57 context ;;
  let elem := nth_ (locator_ frame
      "xpath=html/body/div[2]/main/div/div/div[2]/div/form/div/input") 0 in
  wait_for_timeout 60 page 3000%N ;;
  fill 60 elem "mrwaywithwords@gmail.com" ;;
  frame <- pages_last 63 context ;;
  let elem := nth_ (locator_ frame
      "xpath=html/body/div[2]/main/div/div/div[2]/div/form/div[2]/input") 0 in
  wait_for_timeout 66 page 3000%N ;; fill 66 elem "narte4-Kyqdis-coqkij" ;;
  frame <- pages_last 69 context ;;
  let elem := nth_ (locator_ frame
      "xpath=html/body/div[2]/main/div/div/div[2]/div/form/button") 0 in
  wait_for_timeout 72 page 3000%N ;; click 72 elem 5000%N ;;
  frame <- pages_last 76 context ;;
  let elem := nth_ (locator_ frame
      "xpath=html/body/div[2]/main/div/div[3]/div[2]/a[2]") 0 in
  wait_for_timeout 79 page 3000%N ;; click 79 elem 5000%N ;;
  frame <- pages_last 83 context ;;
  let elem := nth_ (locator_ frame
      "xpath=html/body/div[2]/main/div/div/div[2]/div/form/div/input") 0 in
  wait_for_timeout 86 page 3000%N ;;
  fill 86 elem "mrwaywithwords@gmail.com" ;;
  frame <- pages_last 89 context ;;
  let elem := nth_ (locator_ frame
      "xpath=html/body/div[2]/main/div/div/div[2]/div/form/div[2]/input") 0 in
  wait_for_timeout 92 page 3000%N ;; fill 92 elem "narte4-Kyqdis-coqkij" ;;
  frame <- pages_last 95 context ;;
  let elem := nth_ (locator_ frame
      "xpath=html/body/div[2]/main/div/div/div[2]/div/form/button") 0 in
  wait_for_timeout 98 page 3000%N ;; click 98 elem 5000%N ;;
  frame <- pages_last 102 context ;;
  let elem := nth_ (locator_ frame
      "xpath=html/body/div[2]/main/div/div[3]/div[2]/a[2]") 0 in
  wait_for_timeout 105 page 3000%N ;; click 105 elem 5000%N ;;
  wheel 109 page 0 500 ;;
  frame <- pages_last 113 context ;;
  let elem := nth_ (locator_ frame
      "xpath=html/body/div[2]/main/div/div[2]/div/div[2]/div[2]/div/div[2]/div/div/textarea") 0 in
  wait_for_timeout 116 page 3000%N ;;
  fill 116 elem
      "This is a test transcript. We will paste this text and then edit it manually to validate the editor functionality." ;;
  frame <- pages_last 120 context ;;
  let elem := nth_ (locator_ frame
      "xpath=html/body/div[2]/main/div/div[2]/div/div[2]/div[2]/div/div[2]/div/div/textarea") 0 in
  wait_for_timeout 123 page 3000%N ;;
  fill 123 elem
      "This is a test transcript. We will paste this text and then edit it manually to validate the editor functionality. Adding an extra sentence to test manual editing." ;;
  frame <- pages_last 127 context ;;
  let elem := nth_ (locator_ frame
      "xpath=html/body/div[2]/main/div/div[2]/div/div[2]/div[2]/div/div[2]/div/div/div/button") 0 in
  wait_for_timeout 130 page 3000%N ;; click 130 elem 5000%N ;;
  frame <- pages_last 134 context ;;
  let elem := nth_ (locator_ frame
      "xpath=html/body/div[2]/main/div/div[2]/div/div[2]/div[2]/div/div[2]/div/div[2]/div/div/input") 0 in
  wait_for_timeout 137 page 3000%N ;; fill 137 elem "validate" ;;
  frame <- pages_last 141 context ;;
  let elem := nth_ (locator_ frame
      "xpath=html/body/div[2]/main/div/div[2]/div/div[2]/div[2]/div/div[2]/div/div[2]/div/div/div/button") 0 in
  wait_for_timeout 144 page 3000%N ;; click 144 elem 5000%N ;;
  frame <- pages_last 148 context ;;
  let elem := nth_ (locator_ frame
      "xpath=html/body/div[2]/main/div/div/div[2]/div/form/div/input") 0 in
  wait_for_timeout 151 page 3000%N ;;
  fill 151 elem "mrwaywithwords@gmail.com" ;;
  frame <- pages_last 154 context ;;
  let elem := nth_ (locator_ frame
      "xpath=html/body/div[2]/main/div/div/div[2]/div/form/div[2]/input") 0 in
  wait_for_timeout 157 page 3000%N ;; fill 157 elem "narte4-Kyqdis-coqkij" ;;
  frame <- pages_last 160 context ;;
  let elem := nth_ (locator_ frame
      "xpath=html/body/div[2]/main/div/div/div[2]/div/form/button") 0 in
  wait_for_timeout 163 page 3000%N ;; click 163 elem 5000%N ;;
  frame <- pages_last 167 context ;;
  expect_to_be_visible 168 (first_ (locator_ frame
      "text=This is a test transcript. We will paste this text and then edit it manually to validate the editor functionality. Adding an extra sentence to test manual editing.")) 30000%N ;;
  expect_to_be_visible 169 (first_ (locator_ frame
      "text=validate")) 30000%N ;;
  sleep 170 5.
Definition TC010_finally : nat := 172.

(** [TC011_Queue_AI_job_for_transcription_and_verify_result.py], lines 48 to 169. *)
Definition TC011_steps (context page : handle) : M unit :=
  frame <- pages_last 50 context ;;
  let elem := nth_ (locator_ frame
      "xpath=html/body/div[2]/header/div/a/button") 0 in
  wait_for_timeout 53 page 3000%N ;; click 53 elem 5000%N ;;
  frame <- pages_last 57 context ;;
  let elem := nth_ (locator_ frame
      "xpath=html/body/div[2]/main/div/div/div[2]/div/form/div/input") 0 in
  wait_for_timeout 60 page 3000%N ;;
  fill 60 elem "mrwaywithwords@gmail.com" ;;
  frame <- pages_last 63 context ;;
  let elem := nth_ (locator_ frame
      "xpath=html/body/div[2]/main/div/div/div[2]/div/form/div[2]/input") 0 in
  wait_for_timeout 66 page 3000%N ;; fill 66 elem "narte4-Kyqdis-coqkij" ;;
  frame <- pages_last 69 context ;;
  let elem := nth_ (locator_ frame
      "xpath=html/body/div[2]/main/div/div/div[2]/div/form/button") 0 in
  wait_for_timeout 72 page 3000%N ;; click 72 elem 5000%N ;;
  frame <- pages_last 76 context ;;
  let elem := nth_ (locator_ frame
      "xpath=html/body/div[2]/main/div/div[3]/div[2]/a[2]") 0 in
  wait_for_timeout 79 page 3000%N ;; click 79 elem 5000%N ;;
  frame <- pages_last 83 context ;;
  let elem := nth_ (locator_ frame
      "xpath=html/body/div[2]/main/div/div/div[2]/div/form/div/input") 0 in
  wait_for_timeout 86 page 3000%N ;;
  fill 86 elem "mrwaywithwords@gmail.com" ;;
  frame <- pages_last 89 context ;;
  let elem := nth_ (locator_ frame
      "xpath=html/body/div[2]/main/div/div/div[2]/div/form/div[2]/input") 0 in
  wait_for_timeout 92 page 3000%N ;; fill 92 elem "narte4-Kyqdis-coqkij" ;;
  frame <- pages_last 95 context ;;
  let elem := nth_ (locator_ frame
      "xpath=html/body/div[2]/main/div/div/div[2]/div/form/button") 0 in
  wait_for_timeout 98 page 3000%N ;; click 98 elem 5000%N ;;
  frame <- pages_last 102 context ;;
  let elem := nth_ (locator_ frame
      "xpath=html/body/div[2]/main/div/div[3]/div[2]/a[2]") 0 in
  wait_for_timeout 105 page 3000%N ;; click 105 elem 5000%N ;;
  frame <- pages_last 109 context ;;
  let elem := nth_ (locator_ frame
      "xpath=html/body/div[2]/main/div/div[2]/div[2]/div/div[2]/div/div/button") 0 in
  wait_for_timeout 112 page 3000%N ;; click 112 elem 5000%N ;;
  frame <- pages_last 116 context ;;
  let elem := nth_ (locator_ frame
      "xpath=html/body/div[2]/main/div/div/div[2]/div/form/div/input") 0 in
  wait_for_timeout 119 page 3000%N ;;
  fill 119 elem "mrwaywithwords@gmail.com" ;;
  frame <- pages_last 122 context ;;
  let elem := nth_ (locator_ frame
      "xpath=html/body/div[2]/main/div/div/div[2]/div/form/div[2]/input") 0 in
  wait_for_timeout 125 page 3000%N ;; fill 125 elem "narte4-Kyqdis-coqkij" ;;
  frame <- pages_last 128 context ;;
  let elem := nth_ (locator_ frame
      "xpath=html/body/div[2]/main/div/div/div[2]/div/form/button") 0 in
  wait_for_timeout 131 page 3000%N ;; click 131 elem 5000%N ;;
  frame <- pages_last 135 context ;;
  let elem := nth_ (locator_ frame
      "xpath=html/body/div[2]/main/div/div[3]/div[2]/a[2]") 0 in
  wait_for_timeout 138 page 3000%N ;; click 138 elem 5000%N ;;
  frame <- pages_last 142 context ;;
  let elem := nth_ (locator_ frame
      "xpath=html/body/div[2]/main/div/div[2]/div[2]/div/div[2]/div/div[2]/div[2]/div/div/div[2]/button") 0 in
  wait_for_timeout 145 page 3000%N ;; click 145 elem 5000%N ;;
  frame <- pages_last 149 context ;;
  let elem := nth_ (locator_ frame
      "xpath=html/body/div[2]/main/div/div[2]/div/div[2]/div[2]/div/div[2]/div/div/textarea") 0 in
  wait_for_timeout 152 page 3000%N ;;
  fill 152 elem
      "This is a test transcript. We will paste this text and then edit it manually to validate the editor functionality. Adding an extra sentence to test manual editing." ;;
  frame <- pages_last 156 context ;;
  let elem := nth_ (locator_ frame
      "xpath=html/body/div[2]/main/div/div[2]/div/div[2]/div[2]/div/div[2]/div/div[2]/div/div/input") 0 in
  wait_for_timeout 159 page 3000%N ;; click 159 elem 5000%N ;;
  frame <- pages_last 163 context ;;
  try_except
      (expect_to_be_visible 165 (first_ (locator_ frame
      "text=Transcription job completed successfully")) 1000%N)
      is_AssertionError
      (fun _ => raise_ AssertionError
        
      "Test case failed: The transcription job did not complete successfully as expected. Job status did not update from queued to processing to completed, or transcript output was not generated and accessible for review.") ;;
  sleep 168 5.
Definition TC011_finally : nat := 170.

(** [TC012_AI_job_error_handling_and_retry.py], lines 48 to 136. *)
Definition TC012_steps (context page : handle) : M unit :=
  frame <- pages_last 50 context ;;
  let elem := nth_ (locator_ frame
      "xpath=html/body/div[2]/header/div/a/button") 0 in
  wait_for_timeout 53 page 3000%N ;; click 53 elem 5000%N ;;
  frame <- pages_last 57 context ;;
  let elem := nth_ (locator_ frame
      "xpath=html/body/div[2]/main/div/div/div[2]/div/form/div/input") 0 in
  wait_for_timeout 60 page 3000%N ;;
  fill 60 elem "mrwaywithwords@gmail.com" ;;
  frame <- pages_last 63 context ;;
  let elem := nth_ (locator_ frame
      "xpath=html/body/div[2]/main/div/div/div[2]/div/form/div[2]/input") 0 in
  wait_for_timeout 66 page 3000%N ;; fill 66 elem "narte4-Kyqdis-coqkij" ;;
  frame <- pages_last 69 context ;;
  let elem := nth_ (locator_ frame
      "xpath=html/body/div[2]/main/div/div/div[2]/div/form/button") 0 in
  wait_for_timeout 72 page 3000%N ;; click 72 elem 5000%N ;;
  frame <- pages_last 76 context ;;
  let elem := nth_ (locator_ frame
      "xpath=html/body/div[2]/main/div/div[3]/div[2]/a") 0 in
  wait_for_timeout 79 page 3000%N ;; click 79 elem 5000%N ;;
  frame <- pages_last 83 context ;;
  let elem := nth_ (locator_ frame
      "xpath=html/body/div[2]/main/div/div/div[2]/div/form/div/input") 0 in
  wait_for_timeout 86 page 3000%N ;;
  fill 86 elem "mrwaywithwords@gmail.com" ;;
  frame <- pages_last 89 context ;;
  let elem := nth_ (locator_ frame
      "xpath=html/body/div[2]/main/div/div/div[2]/div/form/div[2]/input") 0 in
  wait_for_timeout 92 page 3000%N ;; fill 92 elem "narte4-Kyqdis-coqkij" ;;
  frame <- pages_last 95 context ;;
  let elem := nth_ (locator_ frame
      "xpath=html/body/div[2]/main/div/div/div[2]/div/form/button") 0 in
  wait_for_timeout 98 page 3000%N ;; click 98 elem 5000%N ;;
  frame <- pages_last 102 context ;;
  let elem := nth_ (locator_ frame
      "xpath=html/body/div[2]/main/div/div[3]/div[2]/a") 0 in
  wait_for_timeout 105 page 3000%N ;; click 105 elem 5000%N ;;
  frame <- pages_last 109 context ;;
  let elem := nth_ (locator_ frame
      "xpath=html/body/div[2]/main/div/div[2]/div[2]/div/div[2]/div/div/button") 0 in
  wait_for_timeout 112 page 3000%N ;; click 112 elem 5000%N ;;
  frame <- pages_last 116 context ;;
  let elem := nth_ (locator_ frame
      "xpath=html/body/div[2]/main/div/div[2]/div[2]/div/div[2]/div/div[2]/div[2]/div/div/div[2]/button") 0 in
  wait_for_timeout 119 page 3000%N ;; click 119 elem 5000%N ;;
  frame <- pages_last 123 context ;;
  let elem := nth_ (locator_ frame
      "xpath=html/body/div[2]/main/div/div[2]/div[2]/div/div[2]/div/div[3]/div[2]/div/div/div[2]/button") 0 in
  wait_for_timeout 126 page 3000%N ;; click 126 elem 5000%N ;;
  frame <- pages_last 130 context ;;
  try_except
      (expect_to_be_visible 132 (first_ (locator_ frame
      "text=AI job completed successfully")) 1000%N)
      is_AssertionError
      (fun _ => raise_ AssertionError
        
      "Test case failed: The AI job did not complete successfully as expected. The job status changed to failed and the retry mechanism did not process the job again successfully.") ;;
  sleep 135 5.
Definition TC012_finally : nat := 137.

(** [TC015_Verify_Row_Level_Security_enforces_data_privacy.py], lines 48 to 141. *)
Definition TC015_steps (context page : handle) : M unit :=
  frame <- pages_last 50 context ;;
  let elem := nth_ (locator_ frame
      "xpath=html/body/div[2]/header/div/a/button") 0 in
  wait_for_timeout 53 page 3000%N ;; click 53 elem 5000%N ;;
  frame <- pages_last 57 context ;;
  let elem := nth_ (locator_ frame
      "xpath=html/body/div[2]/main/div/div/div[2]/div/form/div/input") 0 in
  wait_for_timeout 60 page 3000%N ;;
  fill 60 elem "mrwaywithwords@gmail.com" ;;
  frame <- pages_last 63 context ;;
  let elem := nth_ (locator_ frame
      "xpath=html/body/div[2]/main/div/div/div[2]/div/form/div[2]/input") 0 in
  wait_for_timeout 66 page 3000%N ;; fill 66 elem "narte4-Kyqdis-coqkij" ;;
  frame <- pages_last 69 context ;;
  let elem := nth_ (locator_ frame
      "xpath=html/body/div[2]/main/div/div/div[2]/div/form/button") 0 in
  wait_for_timeout 72 page 3000%N ;; click 72 elem 5000%N ;;
  goto 77 page
      "http://localhost:3000/sessions/USER_B_SESSION_ID" None 10000%N ;;
  sleep 78 3 ;;
  frame <- pages_last 81 context ;;
  page_content <- content 82 frame ;;
  (if contains "Session not found" page_content
      || contains "not found" (lower page_content)
      || contains "error" (lower page_content)
   then
     print "SUCCESS: User A was correctly denied access to User B's session (RLS working)"
   else
     n <- count 89 (locator_ frame "h1") ;;
     let session_title_visible := (0 <? n)%nat in
     if session_title_visible then
       print "WARNING: User A may have accessed User B's session - verify RLS policies"
     else ret tt) ;;
  goto 94 page "http://localhost:3000/auth/signout" None 10000%N ;;
  sleep 95 3 ;;
  goto 98 page "http://localhost:3000/auth/signin" None 10000%N ;;
  sleep 99 3 ;;
  frame <- pages_last 105 context ;;
  let elem := nth_ (locator_ frame
      "xpath=html/body/div[2]/main/div/div/div[2]/div/form/div/input") 0 in
  wait_for_timeout 108 page 3000%N ;;
  fill 108 elem "USER_B_EMAIL@example.com" ;;
  frame <- pages_last 111 context ;;
  let elem := nth_ (locator_ frame
      "xpath=html/body/div[2]/main/div/div/div[2]/div/form/div[2]/input") 0 in
  wait_for_timeout 114 page 3000%N ;; fill 114 elem "USER_B_PASSWORD" ;;
  frame <- pages_last 117 context ;;
  let elem := nth_ (locator_ frame
      "xpath=html/body/div[2]/main/div/div/div[2]/div/form/button") 0 in
  wait_for_timeout 120 page 3000%N ;; click 120 elem 5000%N ;;
  frame <- pages_last 125 context ;;
  sleep 126 3 ;;
  try_except
    (expect_to_be_visible 131 (first_ (locator_ frame
        "text=Your Sessions")) 5000%N ;;
     print "SUCCESS: User B logged in and can access their own dashboard")
    is_AssertionError
    (fun _ =>
       let error_elem := locator_ frame "text=Invalid login credentials" in
       n <- count 136 error_elem ;;
       if (0 <? n)%nat then
         raise_ AssertionError
           "Test case failed: User B login failed due to invalid credentials. Please create User B account and update credentials in this test file."
       else
         raise_ AssertionError
           "Test case failed: User B could not access their dashboard after login.") ;;
  sleep 140 2.
Definition TC015_finally : nat := 142.

(** [TC016_Company_and_symbol_management_functionality.py], lines 48 to 195. *)
Definition TC016_steps (context page : handle) : M unit :=
  frame <- pages_last 50 context ;;
  let elem := nth_ (locator_ frame
      "xpath=html/body/div[2]/header/div/a/button") 0 in
  wait_for_timeout 53 page 3000%N ;; click 53 elem 5000%N ;;
  frame <- pages_last 57 context ;;
  let elem := nth_ (locator_ frame
      "xpath=html/body/div[2]/main/div/div/div[2]/div/form/div/input") 0 in
  wait_for_timeout 60 page 3000%N ;;
  fill 60 elem "mrwaywithwords@gmail.com" ;;
  frame <- pages_last 63 context ;;
  let elem := nth_ (locator_ frame
      "xpath=html/body/div[2]/main/div/div/div[2]/div/form/div[2]/input") 0 in
  wait_for_timeout 66 page 3000%N ;; fill 66 elem "narte4-Kyqdis-coqkij" ;;
  frame <- pages_last 69 context ;;
  let elem := nth_ (locator_ frame
      "xpath=html/body/div[2]/main/div/div/div[2]/div/form/button") 0 in
  wait_for_timeout 72 page 3000%N ;; click 72 elem 5000%N ;;
  innerHeight <- evaluate 76 page "() => window.innerHeight" ;;
  wheel 76 page 0 innerHeight ;;
  frame <- pages_last 79 context ;;
  let elem := nth_ (locator_ frame
      "xpath=html/body/div[2]/main/div/div[3]/div/div[2]/button[3]") 0 in
  wait_for_timeout 82 page 3000%N ;; click 82 elem 5000%N ;;
  innerHeight <- evaluate 86 page "() => window.innerHeight" ;;
  wheel 86 page 0 innerHeight ;;
  innerHeight <- evaluate 90 page "() => window.innerHeight" ;;
  wheel 90 page 0 innerHeight ;;
  frame <- pages_last 93 context ;;
  let elem := nth_ (locator_ frame "xpath=html/body/div[3]/div/div/div") 0 in
  wait_for_timeout 96 page 3000%N ;; click 96 elem 5000%N ;;
  innerHeight <- evaluate 100 page "() => window.innerHeight" ;;
  wheel 100 page 0 innerHeight ;;
  frame <- pages_last 103 context ;;
  let elem := nth_ (locator_ frame "xpath=html/body/div[2]/header/a") 0 in
  wait_for_timeout 106 page 3000%N ;; click 106 elem 5000%N ;;
  frame <- pages_last 110 context ;;
  let elem := nth_ (locator_ frame
      "xpath=html/body/div[2]/header/div/a/button") 0 in
  wait_for_timeout 113 page 3000%N ;; click 113 elem 5000%N ;;
  frame <- pages_last 117 context ;;
  let elem := nth_ (locator_ frame
      "xpath=html/body/div[2]/main/div/div/div[2]/div/form/div/input") 0 in
  wait_for_timeout 120 page 3000%N ;;
  fill 120 elem "mrwaywithwords@gmail.com" ;;
  frame <- pages_last 123 context ;;
  let elem := nth_ (locator_ frame
      "xpath=html/body/div[2]/main/div/div/div[2]/div/form/div[2]/input") 0 in
  wait_for_timeout 126 page 3000%N ;; fill 126 elem "narte4-Kyqdis-coqkij" ;;
  frame <- pages_last 129 context ;;
  let elem := nth_ (locator_ frame
      "xpath=html/body/div[2]/main/div/div/div[2]/div/form/button") 0 in
  wait_for_timeout 132 page 3000%N ;; click 132 elem 5000%N ;;
  innerHeight <- evaluate 136 page "() => window.innerHeight" ;;
  wheel 136 page 0 innerHeight ;;
  frame <- pages_last 139 context ;;
  let elem := nth_ (locator_ frame "xpath=html/body/div[2]/header/a") 0 in
  wait_for_timeout 142 page 3000%N ;; click 142 elem 5000%N ;;
  frame <- pages_last 146 context ;;
  let elem := nth_ (locator_ frame
      "xpath=html/body/div[2]/header/div/a/button") 0 in
  wait_for_timeout 149 page 3000%N ;; click 149 elem 5000%N ;;
  frame <- pages_last 153 context ;;
  let elem := nth_ (locator_ frame
      "xpath=html/body/div[2]/main/div/div/div[2]/div/form/div/input") 0 in
  wait_for_timeout 156 page 3000%N ;;
  fill 156 elem "mrwaywithwords@gmail.com" ;;
  frame <- pages_last 159 context ;;
  let elem := nth_ (locator_ frame
      "xpath=html/body/div[2]/main/div/div/div[2]/div/form/div[2]/input") 0 in
  wait_for_timeout 162 page 3000%N ;; fill 162 elem "narte4-Kyqdis-coqkij" ;;
  frame <- pages_last 165 context ;;
  let elem := nth_ (locator_ frame
      "xpath=html/body/div[2]/main/div/div/div[2]/div/form/button") 0 in
  wait_for_timeout 168 page 3000%N ;; click 168 elem 5000%N ;;
  innerHeight <- evaluate 172 page "() => window.innerHeight" ;;
  wheel 172 page 0 innerHeight ;;
  frame <- pages_last 175 context ;;
  let elem := nth_ (locator_ frame
      "xpath=html/body/div[2]/main/div/div[3]/div/div[2]/button[3]") 0 in
  wait_for_timeout 178 page 3000%N ;; click 178 elem 5000%N ;;
  frame <- pages_last 182 context ;;
  let elem := nth_ (locator_ frame
      "xpath=html/body/div[3]/div/div/div[2]") 0 in
  wait_for_timeout 185 page 3000%N ;; click 185 elem 5000%N ;;
  frame <- pages_last 189 context ;;
  try_except
      (expect_to_be_visible 191 (first_ (locator_ frame
      "text=Company Creation Successful")) 1000%N)
      is_AssertionError
      (fun _ => raise_ AssertionError
        
      "Test case failed: The test plan execution for creating, updating, and deleting company and trading symbols did not complete successfully.") ;;
  sleep 194 5.
Definition TC016_finally : nat := 196.

(** [TC017_UI_responsiveness_and_theme_toggling.py], lines 48 to 145. *)
Definition TC017_steps (context page : handle) : M unit :=
  wheel 50 page 0 400 ;;
  frame <- pages_last 53 context ;;
  let elem := nth_ (locator_ frame
      "xpath=html/body/div[2]/header/div/button") 0 in
  wait_for_timeout 56 page 3000%N ;; click 56 elem 5000%N ;;
  frame <- pages_last 60 context ;;
  let elem := nth_ (locator_ frame
      "xpath=html/body/div[2]/header/div/button") 0 in
  wait_for_timeout 63 page 3000%N ;; click 63 elem 5000%N ;;
  goto 67 page "http://localhost:3000/" None 10000%N ;;
  sleep 68 3 ;;
  wheel 71 page 0 300 ;;
  goto 75 page "http://localhost:3000/" None 10000%N ;;
  sleep 76 3 ;;
  goto 80 page "http://localhost:3000/" None 10000%N ;;
  sleep 81 3 ;;
  wheel 84 page 0 400 ;;
  goto 88 page "http://localhost:3000/" None 10000%N ;;
  sleep 89 3 ;;
  goto 93 page "http://localhost:3000/" None 10000%N ;;
  sleep 94 3 ;;
  goto 98 page "http://localhost:3000/" None 10000%N ;;
  sleep 99 3 ;;
  goto 103 page "http://localhost:3000/" None 10000%N ;;
  sleep 104 3 ;;
  goto 108 page "http://localhost:3000/" None 10000%N ;;
  sleep 109 3 ;;
  wheel 113 page 0 400 ;;
  frame <- pages_last 116 context ;;
  let elem := nth_ (locator_ frame
      "xpath=html/body/div[2]/header/div/button") 0 in
  wait_for_timeout 119 page 3000%N ;; click 119 elem 5000%N ;;
  goto 123 page "http://localhost:3000/" None 10000%N ;;
  sleep 124 3 ;;
  frame <- pages_last 128 context ;;
  let elem := nth_ (locator_ frame
      "xpath=html/body/div[2]/header/div/button") 0 in
  wait_for_timeout 131 page 3000%N ;; click 131 elem 5000%N ;;
  frame <- pages_last 135 context ;;
  expect_to_be_visible 136 (first_ (locator_ frame
      "text=Replay.ai")) 30000%N ;;
  expect_to_be_visible 137 (first_ (locator_ frame
      "text=Review your performance like game film")) 30000%N ;;
  expect_to_be_visible 138 (first_ (locator_ frame
      "text=The elite platform for professionals to record, review, and analyze performance with AI-powered insights.")) 30000%N ;;
  expect_to_be_visible 139 (first_ (locator_ frame
      "text=Start Free Session")) 30000%N ;;
  expect_to_be_visible 140 (first_ (locator_ frame
      "text=Simulate real-world interview scenarios. Record your audio and video to analyze body language, tone, and content quality.")) 30000%N ;;
  expect_to_be_visible 141 (first_ (locator_ frame
      "text=Review your sessions like game film. Tag important moments, add notes, and track your progress across multiple sessions.")) 30000%N ;;
  expect_to_be_visible 142 (first_ (locator_ frame
      "text=Get instant feedback on your speaking pace, filler word usage, and content clarity powered by advanced speech analysis.")) 30000%N ;;
  expect_to_be_visible 143 (first_ (locator_ frame
      "text=Replay.ai© 2026 Replay.ai. All rights reserved.")) 30000%N ;;
  sleep 144 5.
Definition TC017_finally : nat := 146.


(** ** The suite *)

Record scenario := Scenario {
  name : string;
  steps : handle -> handle -> M unit;
  finally_line : nat
}.

Definition TC001 := Scenario "TC001" TC001_steps TC001_finally.
Definition TC004 := Scenario "TC004" TC004_steps TC004_finally.
Definition TC005 := Scenario "TC005" TC005_steps TC005_finally.
Definition TC010 := Scenario "TC010" TC010_steps TC010_finally.
Definition TC011 := Scenario "TC011" TC011_steps TC011_finally.
Definition TC012 := Scenario "TC012" TC012_steps TC012_finally.
Definition TC015 := Scenario "TC015" TC015_steps TC015_finally.
Definition TC016 := Scenario "TC016" TC016_steps TC016_finally.
Definition TC017 := Scenario "TC017" TC017_steps TC017_finally.

Definition suite : list scenario :=
  [TC001; TC004; TC005; TC010; TC011; TC012; TC015; TC016; TC017].

(** [asyncio.run(run_test())]: one run of a script in a world. *)
Definition run (sc : scenario) (w : World) : result unit * state :=
  run_test (steps sc) (finally_line sc) w initial_state.

(** The outcome of a run: the script returns, or ends with an uncaught
    exception. *)
Definition passed (sc : scenario) (w : World) : bool :=
  match fst (run sc w) with
  | Returned _ => true
  | Raised _ => false
  end.

(** ** Some worlds *)

(** Every call returns; the page has its main frame only. *)
Definition calm : World :=
  fun _ c =>
    match c with
    | PageFrames _ => Reply None 1 EmptyString
    | _ => Reply None 0 EmptyString
    end.

(** Every load-state wait times out; every other call returns. *)
Definition load_state_stalls : World :=
  fun n c =>
    match c with
    | WaitForLoadState _ _ _ =>
        Reply (Some (PlaywrightTimeoutError, "Timeout 3000ms exceeded.")) 0 EmptyString
    | _ => calm n c
    end.

(** The connection to the driver is lost when the context is closed:
    [context.close()] raises; every other call returns. *)
Definition context_close_fails : World :=
  fun n c =>
    match c with
    | ContextClose _ =>
        Reply (Some (OtherException, "Connection closed while reading from the driver"))
          0 EmptyString
    | _ => calm n c
    end.

(** No expected text ever becomes visible; every other call returns. *)
Definition never_visible : World :=
  fun n c =>
    match c with
    | ExpectToBeVisible _ _ =>
        Reply (Some (AssertionError, "Locator expected to be visible")) 0 EmptyString
    | _ => calm n c
    end.

(** No expected text ever becomes visible, and the connection to the driver
    is lost when the context is closed; every other call returns. *)
Definition never_visible_close_fails : World :=
  fun n c =>
    match c with
    | ExpectToBeVisible _ _ => never_visible n c
    | ContextClose _ => context_close_fails n c
    | _ => calm n c
    end.

(** Every click times out; every other call returns. *)
Definition click_times_out : World :=
  fun n c =>
    match c with
    | Click _ _ =>
        Reply (Some (PlaywrightTimeoutError, "Timeout 5000ms exceeded.")) 0 EmptyString
    | _ => calm n c
    end.

(** User A is shown User B's session: the page has a title and no error
    text.  Every call returns. *)
Definition rls_breach : World :=
  fun n c =>
    match c with
    | Content _ => Reply None 0 "<html><body><h1>User B session</h1></body></html>"
    | Count l => Reply None (if String.eqb (selector l) "h1" then 1 else 0) EmptyString
    | _ => calm n c
    end.

(** A world in which the page has three frames and the wait for the second
    one fails with an error that is no Playwright error. *)
Definition second_frame_breaks : World :=
  fun n c =>
    match c with
    | PageFrames _ => Reply None 3 EmptyString
    | WaitForLoadState 1 _ _ =>
        Reply (Some (OtherException, "Connection closed while reading from the driver"))
          0 EmptyString
    | _ => calm n c
    end.

(** A world that hands out a new object at every call (the number of the
    call), and whose page has two frames. *)
Definition numbered : World :=
  fun n c =>
    match c with
    | PageFrames _ => Reply None 2 EmptyString
    | _ => Reply None n EmptyString
    end.

(** * The vocabulary of the properties

    Classifications of events, properties of logs, the judgments on script
    fragments that the proofs below establish by walking the scripts, and
    the statements of the claims. *)

(** ** Classifying events *)

(** Element-targeted actions. *)
Definition is_action (c : call) : bool :=
  match c with
  | Click _ _ | Fill _ _ => true
  | _ => false
  end.

(** The release calls of the [finally] block. *)
Definition is_release (c : call) : bool :=
  match c with
  | ContextClose _ | BrowserClose _ | PlaywrightStop _ => true
  | _ => false
  end.

(** Calls that create or release one of the three handles. *)
Definition is_lifecycle (c : call) : bool :=
  match c with
  | PlaywrightStart | ChromiumLaunch _ _ _ | NewContext _ => true
  | _ => is_release c
  end.

Definition is_count (c : call) : bool :=
  match c with
  | Count _ => true
  | _ => false
  end.

Definition is_load_state (c : call) : bool :=
  match c with
  | WaitForLoadState _ _ _ => true
  | _ => false
  end.

Definition faulted (ev : event) : bool :=
  match fault (ev_reply ev) with
  | Some _ => true
  | None => false
  end.

(** The two load-state waits of the preamble, wrapped in
    [try: ... except async_api.Error: pass]. *)
Definition is_guarded_line (line : nat) : bool :=
  Nat.eqb line 37 || Nat.eqb line 44.

(** The faults that the scripts catch and drop: a Playwright error of one
    of those two load-state waits. *)
Definition guarded (ev : event) : bool :=
  match ev_call ev, fault (ev_reply ev) with
  | WaitForLoadState _ _ _, Some (cls, _) =>
      is_guarded_line (ev_line ev) && is_async_api_Error cls
  | _, _ => false
  end.

(** [page.wait_for_timeout(3000)] at line [line], returning normally. *)
Definition is_micro_wait (line : nat) (ev : event) : bool :=
  match ev_call ev with
  | WaitForTimeout _ ms =>
      N.eqb ms 3000 && Nat.eqb (ev_line ev) line && negb (faulted ev)
  | _ => false
  end.

(** The selector engines the scripts use: a structural path ([xpath=...]),
    here always absolute from the document root, or the visible text
    ([text=...]). *)
Definition is_structural (sel : string) : bool := prefix "xpath=" sel.
Definition is_absolute_xpath (sel : string) : bool := prefix "xpath=html/body/" sel.
Definition is_visible_text (sel : string) : bool := prefix "text=" sel.

(** The locator a call looks up, if any. *)
Definition lookup_of (c : call) : option locator :=
  match c with
  | Click l _ | Fill l _ | Count l | ExpectToBeVisible l _ => Some l
  | _ => None
  end.

(** ** Judgments on script fragments *)

(** A relation on states that every allowed call respects, and that is
    closed under doing nothing and under sequencing. *)
Class Stable (R : state -> state -> Prop) (allowed : nat -> call -> bool) := {
  stable_refl : forall s, R s s;
  stable_trans : forall s1 s2 s3, R s1 s2 -> R s2 s3 -> R s1 s3;
  stable_record : forall l c r s, allowed l c = true -> R s (record (Ev l c r) s)
}.

Definition Rel {A} (R : state -> state -> Prop) (m : M A) : Prop :=
  forall w s, R s (snd (m w s)).

(** Fragments that leave the log alone respect every property of the log. *)
Definition keeps (I : list event -> Prop) (s s' : state) : Prop :=
  I (log s) -> I (log s').

(** The handle variables are not assigned. *)
Definition same_vars (s s' : state) : Prop :=
  pw s' = pw s /\ browser s' = browser s /\ context s' = context s.

(** Every logged call satisfies [P]. *)
Definition all_calls (P : nat -> call -> bool) (l : list event) : Prop :=
  Forall (fun ev => P (ev_line ev) (ev_call ev) = true) l.

(** On a log (newest first): the event logged just before an action is a
    [wait_for_timeout(3000)] of the same source line that returned. *)
Fixpoint waits_before_actions (l : list event) : bool :=
  match l with
  | [] => true
  | ev :: older =>
      (if is_action (ev_call ev) then
         match older with
         | wt :: _ => is_micro_wait (ev_line ev) wt
         | [] => false
         end
       else true) && waits_before_actions older
  end.

(** Fragments keep [waits_before_actions]. *)
Definition keeps_waits : state -> state -> Prop :=
  keeps (fun l => waits_before_actions l = true).

(** Some logged event satisfies [P]. *)
Definition has (P : event -> bool) (l : list event) : Prop :=
  exists ev, In ev l /\ P ev = true.

(** The three kinds of handle a script holds: [pw], [browser] and
    [context]. *)
Inductive resource := Driver | Browser | BrowserContext.

Definition resource_eqb (a b : resource) : bool :=
  match a, b with
  | Driver, Driver | Browser, Browser | BrowserContext, BrowserContext => true
  | _, _ => false
  end.

(** The handle an event opened: a creating call that returned. *)
Definition opens (ev : event) : option (resource * handle) :=
  if faulted ev then None
  else
    match ev_call ev with
    | PlaywrightStart => Some (Driver, int_val (ev_reply ev))
    | ChromiumLaunch _ _ _ => Some (Browser, int_val (ev_reply ev))
    | NewContext _ => Some (BrowserContext, int_val (ev_reply ev))
    | _ => None
    end.

(** The handle a release call was made on, whether it returned or not. *)
Definition releases (ev : event) : option (resource * handle) :=
  match ev_call ev with
  | ContextClose h => Some (BrowserContext, h)
  | BrowserClose h => Some (Browser, h)
  | PlaywrightStop h => Some (Driver, h)
  | _ => None
  end.

Fixpoint handles_of (f : event -> option (resource * handle)) (k : resource)
    (l : list event) : list handle :=
  match l with
  | [] => []
  | ev :: rest =>
      match f ev with
      | Some (k', h) =>
          if resource_eqb k k' then h :: handles_of f k rest
          else handles_of f k rest
      | None => handles_of f k rest
      end
  end.

(** The handles of kind [k] opened, and those a release call was made on,
    one entry per call. *)
Definition opened := handles_of opens.
Definition released := handles_of releases.

(** The handle variables and the handles opened and released are the same
    before and after. *)
Definition same_handles (s s' : state) : Prop :=
  same_vars s s' /\
  (forall k, opened k (log s') = opened k (log s)) /\
  (forall k, released k (log s') = released k (log s)).

Definition RLS_WARNING : string :=
  "WARNING: User A may have accessed User B's session - verify RLS policies".

(** [frame.locator('h1').count()] returned a positive number. *)
Definition session_title_seen (ev : event) : bool :=
  match ev_call ev with
  | Count l =>
      String.eqb (selector l) "h1" && negb (faulted ev)
      && (0 <? int_val (ev_reply ev))%nat
  | _ => false
  end.

(** If the session title was seen, the warning was printed. *)
Definition warned (s : state) : Prop :=
  has session_title_seen (log s) -> In RLS_WARNING (stdout s).

Definition keeps_warned (s s' : state) : Prop := warned s -> warned s'.

(** Any call but a count of [h1]. *)
Definition not_title_count (l : nat) (c : call) : bool :=
  match c with
  | Count e => negb (String.eqb (selector e) "h1")
  | _ => true
  end.

(** The lookups of a script: every action targets the first match of an
    absolute XPath, every visibility assertion the first match of a text
    selector, and only a count looks at all matches. *)
Definition call_ok (l : nat) (c : call) : bool :=
  match c with
  | Click e _ | Fill e _ =>
      match which e with
      | Nth 0 => is_structural (selector e) && is_absolute_xpath (selector e)
      | _ => false
      end
  | ExpectToBeVisible e _ =>
      match which e with
      | First => is_visible_text (selector e)
      | _ => false
      end
  | Count e =>
      match which e with
      | AllMatches => true
      | _ => false
      end
  | _ => true
  end.

(** On a log (newest first): the lines never increase towards the past, and
    the newest is at most [hi]. *)
Fixpoint ordered (hi : nat) (l : list event) : Prop :=
  match l with
  | [] => True
  | ev :: older => ev_line ev <= hi /\ ordered (ev_line ev) older
  end.

(** A fragment entered after line [lo] leaves at line [hi]. *)
Definition Lines {A} (lo : nat) (m : M A) (hi : nat) : Prop :=
  forall w s, ordered lo (log s) -> ordered hi (log (snd (m w s))).

(** An event is harmless when its call returned, or raised an error that
    the script drops. *)
Definition harmless (ev : event) : bool := negb (faulted ev) || guarded ev.

(** The number of faults that were not dropped. *)
Definition nfaults (l : list event) : nat :=
  length (filter (fun ev => negb (harmless ev)) l).

(** No fault is ever removed from the log. *)
Definition more_faults (s s' : state) : Prop :=
  nfaults (log s) <= nfaults (log s').

Definition clean (l : list event) : Prop :=
  Forall (fun ev => harmless ev = true) l.

(** The count query of the assertion handler of TC015, line 136. *)
Definition is_handler_count (line : nat) (c : call) : bool :=
  match c with
  | Count e =>
      Nat.eqb line 136
      && String.eqb (selector e) "text=Invalid login credentials"
  | _ => false
  end.

(** What may still be called once a fault ended the steps: the count query
    of the assertion handler of TC015 and the release calls of the
    [finally] block. *)
Definition aftermath (ev : event) : bool :=
  is_release (ev_call ev) || is_handler_count (ev_line ev) (ev_call ev).

(** The most recent fault that was not dropped. *)
Fixpoint last_fault (l : list event) : option (error_class * string) :=
  match l with
  | [] => None
  | ev :: older => if harmless ev then last_fault older else fault (ev_reply ev)
  end.

(** Every fault that was not dropped is in the trail of [e]. *)
Definition surfaced (e : exn) (l : list event) : Prop :=
  forall ev f,
    In ev l -> fault (ev_reply ev) = Some f -> guarded ev = false ->
    In f (exn_trail e).

(** The log (newest first) is: aftermath calls, then the first harmful
    event, then harmless events only. *)
Definition stopped (l : list event) : Prop :=
  exists post ev pre,
    l = post ++ ev :: pre /\ clean pre /\ harmless ev = false /\
    Forall (fun ev' => aftermath ev' = true) post.

(** The class of [e] is the class of the most recent fault. *)
Definition heads (e : exn) (l : list event) : Prop :=
  exists f, last_fault l = Some f /\ exn_class e = fst f.

(** The log of a fragment that is ending with the exception [e]. *)
Definition Pending (e : exn) (l : list event) : Prop :=
  stopped l /\ surfaced e l /\ heads e l.

Definition Fine {A} (r : result A) (l : list event) : Prop :=
  match r with
  | Returned _ => clean l
  | Raised e => Pending e l
  end.

(** A fragment entered with a clean log. *)
Definition Faulty {A} (m : M A) : Prop :=
  forall w s, clean (log s) -> Fine (fst (m w s)) (log (snd (m w s))).

(** A fragment entered while an exception of class [cls] is pending: a
    handler or a [finally] block. *)
Definition After {A} (cls : error_class) (m : M A) : Prop :=
  forall w s e,
    exn_class e = cls -> Pending e (log s) ->
    match fst (m w s) with
    | Returned _ => Pending e (log (snd (m w s)))
    | Raised e' => Pending (during e e') (log (snd (m w s)))
    end.

(** A fragment that always raises. *)
Definition NoReturn {A} (m : M A) : Prop :=
  forall w s, exists e, fst (m w s) = Raised e.

(** A fragment that raises only when one of its calls raised an error that
    is not dropped. *)
Definition Calm {A} (m : M A) : Prop :=
  forall w s,
    match fst (m w s) with
    | Returned _ => nfaults (log s) <= nfaults (log (snd (m w s)))
    | Raised _ => nfaults (log s) < nfaults (log (snd (m w s)))
    end.

(** When the fragment returns, an event satisfying [P] is in the log. *)
Definition Reach {A} (P : event -> bool) (m : M A) : Prop :=
  forall w s,
    match fst (m w s) with
    | Returned _ => has P (log (snd (m w s)))
    | Raised _ => True
    end.

(** What the walks establish for the steps of a script. *)
Record Wellformed (steps : handle -> handle -> M unit) (fin : nat) : Prop := {
  wf_handles : forall c p, Rel same_handles (steps c p);
  wf_calls : forall c p, Rel (keeps (all_calls call_ok)) (steps c p);
  wf_waits : forall c p, Rel keeps_waits (steps c p);
  wf_lines : forall c p, Lines 47 (steps c p) fin;
  wf_faults : forall c p, Faulty (steps c p);
  wf_calm : forall c p, Calm (steps c p);
  wf_warned : forall c p, Rel keeps_warned (steps c p);
  wf_finally : 47 <= fin
}.

(** ** Handles, and the claims as stated *)

Definition opt (o : option handle) : list handle :=
  match o with
  | Some h => [h]
  | None => []
  end.

(** Inside the [try] block: the handle variables hold exactly what was
    opened, and nothing was released. *)
Definition hygienic (s : state) : Prop :=
  opened Driver (log s) = opt (pw s) /\
  opened Browser (log s) = opt (browser s) /\
  opened BrowserContext (log s) = opt (context s) /\
  forall k, released k (log s) = [].

(** A release call on a handle of kind [k] raised. *)
Definition release_raised (k : resource) (l : list event) : Prop :=
  exists ev h, In ev l /\ releases ev = Some (k, h) /\ faulted ev = true.

(** The release calls made on handles of kind [k] are exactly one call on
    each handle that was opened. *)
Definition released_once (k : resource) (l : list event) : Prop :=
  released k l = opened k l /\ length (opened k l) <= 1.

(** What the [finally] block achieves: the context is released once; the
    browser and the driver are released once unless an earlier release call
    raised, in which case they are not released at all. *)
Definition discipline (l : list event) : Prop :=
  released_once BrowserContext l /\
  ((released_once Browser l /\ ~ release_raised BrowserContext l) \/
   (released Browser l = [] /\ release_raised BrowserContext l)) /\
  ((released_once Driver l /\
    ~ release_raised BrowserContext l /\ ~ release_raised Browser l) \/
   (released Driver l = [] /\
    (release_raised BrowserContext l \/ release_raised Browser l))).

(** C1 as stated: every handle opened during a run is released exactly
    once. *)
Definition releases_every_handle (sc : scenario) (w : World) : Prop :=
  forall k, released_once k (history (snd (run sc w))).

(** C2 as stated: every fault of a run is surfaced in its result. *)
Definition no_fault_discarded (sc : scenario) (w : World) : Prop :=
  forall ev f,
    In ev (history (snd (run sc w))) -> fault (ev_reply ev) = Some f ->
    exists e, fst (run sc w) = Raised e /\ In f (exn_trail e).

(** A visibility assertion of [sel] with timeout [timeout] at line [line]
    that held. *)
Definition asserts_visible (line : nat) (sel : string) (timeout : N)
    (ev : event) : bool :=
  match ev_call ev with
  | ExpectToBeVisible l t =>
      Nat.eqb (ev_line ev) line && String.eqb (selector l) sel
      && match which l with First => true | _ => false end
      && N.eqb t timeout && negb (faulted ev)
  | _ => false
  end.

(** A fill with [value] at line [line] that returned. *)
Definition fills (line : nat) (value : string) (ev : event) : bool :=
  match ev_call ev with
  | Fill _ v =>
      Nat.eqb (ev_line ev) line && String.eqb v value && negb (faulted ev)
  | _ => false
  end.

(** The text TC005 expects. *)
Definition FAILURE_MESSAGE : string := "text=Recording session failed to start".

(** No visibility assertion but that of [FAILURE_MESSAGE]. *)
Definition only_failure_message (l : nat) (c : call) : bool :=
  match c with
  | ExpectToBeVisible e _ => String.eqb (selector e) FAILURE_MESSAGE
  | _ => true
  end.

(** C5 as stated: the first failure of any step ends the scenario as
    failed, nothing but the aftermath running after the failing step. *)
Definition stops_at_first_failure (sc : scenario) (w : World) : Prop :=
  forall pre ev post,
    history (snd (run sc w)) = pre ++ ev :: post ->
    faulted ev = true ->
    passed sc w = false /\ Forall (fun ev' => aftermath ev' = true) post.

(** C6 as stated.  A lookup hands one selector to [frame.locator]: it is
    the first and only strategy tried, so a structural path may never be
    it. *)
Definition structural_only_as_fallback (sc : scenario) (w : World) : Prop :=
  forall ev l,
    In ev (history (snd (run sc w))) -> lookup_of (ev_call ev) = Some l ->
    is_structural (selector l) = false.

(** The email TC001 signs up and signs in with. *)
Definition ACCOUNT_EMAIL : string := "mrwaywithwords@gmail.com".

(** C9 as stated: every locator acts on the first match. *)
Definition first_match_everywhere (sc : scenario) (w : World) : Prop :=
  forall ev l,
    In ev (history (snd (run sc w))) -> lookup_of (ev_call ev) = Some l ->
    which l = First \/ which l = Nth 0.

(** One [await expect(frame.locator(sel).first).to_be_visible(timeout=t)]
    of a script. *)
Record assertion := Assertion {
  at_line : nat;
  shows : string;
  within : N
}.

(** The visibility assertions of [TC001]. *)
Definition TC001_assertions : list assertion :=
  [ Assertion 117
      "text=mrwaywithwords@gmail.com"
      30000;
    Assertion 118
      "text=Sign Out"
      30000;
    Assertion 119
      "text=Review and analyze your recorded sessions to sharpen your performance."
      30000;
    Assertion 120
      "text=Sessions This Week"
      30000;
    Assertion 121
      "text=2"
      30000;
    Assertion 122
      "text=Total Minutes Practiced"
      30000;
    Assertion 123
      "text=0"
      30000;
    Assertion 124
      "text=Top Session Type"
      30000;
    Assertion 125
      "text=Interview"
      30000 ].

(** The visibility assertions of [TC004]. *)
Definition TC004_assertions : list assertion :=
  [ Assertion 141
      "text=Recording Started Successfully"
      30000 ].

(** The visibility assertions of [TC005]. *)
Definition TC005_assertions : list assertion :=
  [ Assertion 152
      "text=Recording session failed to start"
      1000 ].

(** The visibility assertions of [TC010]. *)
Definition TC010_assertions : list assertion :=
  [ Assertion 168
      "text=This is a test transcript. We will paste this text and then edit it manually to validate the editor functionality. Adding an extra sentence to test manual editing."
      30000;
    Assertion 169
      "text=validate"
      30000 ].

(** The visibility assertions of [TC011]. *)
Definition TC011_assertions : list assertion :=
  [ Assertion 165
      "text=Transcription job completed successfully"
      1000 ].

(** The visibility assertions of [TC012]. *)
Definition TC012_assertions : list assertion :=
  [ Assertion 132
      "text=AI job completed successfully"
      1000 ].

(** The visibility assertions of [TC015]. *)
Definition TC015_assertions : list assertion :=
  [ Assertion 131
      "text=Your Sessions"
      5000 ].

(** The visibility assertions of [TC016]. *)
Definition TC016_assertions : list assertion :=
  [ Assertion 191
      "text=Company Creation Successful"
      1000 ].

(** The visibility assertions of [TC017]. *)
Definition TC017_assertions : list assertion :=
  [ Assertion 136
      "text=Replay.ai"
      30000;
    Assertion 137
      "text=Review your performance like game film"
      30000;
    Assertion 138
      "text=The elite platform for professionals to record, review, and analyze performance with AI-powered insights."
      30000;
    Assertion 139
      "text=Start Free Session"
      30000;
    Assertion 140
      "text=Simulate real-world interview scenarios. Record your audio and video to analyze body language, tone, and content quality."
      30000;
    Assertion 141
      "text=Review your sessions like game film. Tag important moments, add notes, and track your progress across multiple sessions."
      30000;
    Assertion 142
      "text=Get instant feedback on your speaking pace, filler word usage, and content clarity powered by advanced speech analysis."
      30000;
    Assertion 143
      "text=Replay.ai© 2026 Replay.ai. All rights reserved."
      30000 ].

Definition assertion_table : list (scenario * list assertion) :=
  [ (TC001, TC001_assertions);
    (TC004, TC004_assertions);
    (TC005, TC005_assertions);
    (TC010, TC010_assertions);
    (TC011, TC011_assertions);
    (TC012, TC012_assertions);
    (TC015, TC015_assertions);
    (TC016, TC016_assertions);
    (TC017, TC017_assertions) ].

(** The assertion [a] was evaluated and held. *)
Definition assertion_held (a : assertion) (ev : event) : bool :=
  asserts_visible (at_line a) (shows a) (within a) ev.

(** The call is no visibility assertion, or one of [tbl]. *)
Definition asserts_only (tbl : list assertion) (l : nat) (c : call) : bool :=
  match c with
  | ExpectToBeVisible e t =>
      existsb (fun a => Nat.eqb (at_line a) l && String.eqb (shows a) (selector e)
                        && N.eqb (within a) t
                        && match which e with First => true | _ => false end)
              tbl
  | _ => true
  end.

(** The text of the assertion [a] never becomes visible in the world [w]:
    whenever the assertion is made, it runs out of its timeout and
    Playwright raises [AssertionError]. *)
Definition never_shows (w : World) (a : assertion) : Prop :=
  forall n l,
    selector l = shows a ->
    exists msg,
      fault (w n (ExpectToBeVisible l (within a))) = Some (AssertionError, msg).

(** C4 as stated: when none of the texts a scenario asserts ever becomes
    visible, the run ends with an [AssertionError]. *)
Definition ends_with_AssertionError (sc : scenario) (w : World) : Prop :=
  (forall tbl a, In (sc, tbl) assertion_table -> In a tbl -> never_shows w a) ->
  exists e, fst (run sc w) = Raised e /\ exn_class e = AssertionError.

(** What may follow the failing call in a run of [sc]: a release call of
    the [finally] block or, in TC015 only, the count query of its assertion
    handler. *)
Definition aftermath_of (sc : scenario) (ev : event) : Prop :=
  is_release (ev_call ev) = true \/
  (name sc = "TC015" /\ is_handler_count (ev_line ev) (ev_call ev) = true).

(** The count query of the row-level-security check of TC015, line 89. *)
Definition is_title_count (line : nat) (c : call) : bool :=
  match c with
  | Count e => Nat.eqb line 89 && String.eqb (selector e) "h1"
  | _ => false
  end.

(** The only count queries are the two of TC015. *)
Definition count_ok (script : string) (l : nat) (c : call) : bool :=
  match c with
  | Count _ =>
      String.eqb script "TC015" && (is_title_count l c || is_handler_count l c)
  | _ => true
  end.

(** On a log (newest first): every reply is the answer of the world [w] to
    the call, at its place in the run. *)
Fixpoint answered (w : World) (l : list event) : Prop :=
  match l with
  | [] => True
  | ev :: older =>
      ev_reply ev = w (length older) (ev_call ev) /\ answered w older
  end.

(** A fragment that logs what the world answers. *)
Definition Faithful {A} (m : M A) : Prop :=
  forall w s, answered w (log s) -> answered w (log (snd (m w s))).

(** ** Further properties of the scripts *)

(** Where a call may stand in a script whose [finally] is at line [fin]:
    the three release calls at their lines of the [finally] block, every
    other call inside the [try] block. *)
Definition line_discipline (fin : nat) (l : nat) (c : call) : bool :=
  match c with
  | ContextClose _ => Nat.eqb l (fin + 2)
  | BrowserClose _ => Nat.eqb l (fin + 4)
  | PlaywrightStop _ => Nat.eqb l (fin + 6)
  | _ => Nat.ltb l fin
  end.

(** The place of a release call in the [finally] block. *)
Definition release_rank (c : call) : nat :=
  match c with
  | ContextClose _ => 1
  | BrowserClose _ => 2
  | PlaywrightStop _ => 3
  | _ => 0
  end.

(** *** What a run prints *)

(** The two other lines TC015 prints. *)
Definition RLS_DENIED : string :=
  "SUCCESS: User A was correctly denied access to User B's session (RLS working)".
Definition DASHBOARD_SEEN : string :=
  "SUCCESS: User B logged in and can access their own dashboard".

(** The condition of line 85 of TC015: the page counts as a denial. *)
Definition access_denied (page_content : string) : bool :=
  contains "Session not found" page_content
  || contains "not found" (lower page_content)
  || contains "error" (lower page_content).

(** The line an event makes a script print, if any: a page content that
    counts as a denial, a positive count of [h1], the dashboard assertion
    of line 131 holding. *)
Definition says (ev : event) : option string :=
  if faulted ev then None
  else
    match ev_call ev with
    | Content _ =>
        if access_denied (str_val (ev_reply ev)) then Some RLS_DENIED else None
    | Count e =>
        if String.eqb (selector e) "h1" && (0 <? int_val (ev_reply ev))%nat
        then Some RLS_WARNING else None
    | ExpectToBeVisible e _ =>
        if Nat.eqb (ev_line ev) 131 && String.eqb (selector e) "text=Your Sessions"
        then Some DASHBOARD_SEEN else None
    | _ => None
    end.

(** What was printed is what the logged events say. *)
Definition reported (s : state) : Prop :=
  forall msg,
    In msg (stdout s) <-> exists ev, In ev (log s) /\ says ev = Some msg.

Definition keeps_reported (s s' : state) : Prop := reported s -> reported s'.

(** The calls that say nothing, whatever they come back with. *)
Definition silent (l : nat) (c : call) : bool :=
  match c with
  | Content _ => false
  | Count e => negb (String.eqb (selector e) "h1")
  | ExpectToBeVisible e _ =>
      negb (Nat.eqb l 131 && String.eqb (selector e) "text=Your Sessions")
  | _ => true
  end.

(** *** Where an exception comes from *)

(** The two failures TC015 raises itself, lines 137 and 138. *)
Definition LOGIN_REJECTED : string :=
  "Test case failed: User B login failed due to invalid credentials. Please create User B account and update credentials in this test file.".
Definition NO_DASHBOARD : string :=
  "Test case failed: User B could not access their dashboard after login.".

(** [frame.locator('text=Invalid login credentials').count()] returned, with
    a positive number or with zero. *)
Definition rejection_counted (positive : bool) (ev : event) : bool :=
  match ev_call ev with
  | Count e =>
      String.eqb (selector e) "text=Invalid login credentials"
      && negb (faulted ev)
      && Bool.eqb (0 <? int_val (ev_reply ev))%nat positive
  | _ => false
  end.

(** Some logged call raised the error [cm]. *)
Definition from_call (cm : error_class * string) (l : list event) : Prop :=
  exists ev, In ev l /\ fault (ev_reply ev) = Some cm.

(** Some logged visibility assertion raised [AssertionError(m)]. *)
Definition from_assertion (m : string) (l : list event) : Prop :=
  exists ev e t,
    In ev l /\ ev_call ev = ExpectToBeVisible e t /\
    fault (ev_reply ev) = Some (AssertionError, m).

(** An [AssertionError] of the script's own, with the message [msg]. *)
Definition own_failure (cm : error_class * string) (l : list event) : Prop :=
  fst cm = AssertionError /\
  prefix "Test case failed: " (snd cm) = true /\
  (snd cm = LOGIN_REJECTED -> has (rejection_counted true) l) /\
  (snd cm = NO_DASHBOARD -> has (rejection_counted false) l).

(** The exception [e] is the error of a logged call, or a failure of the
    script's own that was raised while the error of a visibility assertion,
    which is in its context chain, was being handled. *)
Definition explained (e : exn) (l : list event) : Prop :=
  from_call (exn_class e, exn_msg e) l \/
  (own_failure (exn_class e, exn_msg e) l /\
   exists m, In (AssertionError, m) (exn_context e) /\ from_assertion m l).

(** A fragment whose exceptions are explained by its log. *)
Definition Blames {A} (m : M A) : Prop :=
  forall w s,
    match fst (m w s) with
    | Returned _ => True
    | Raised e => explained e (log (snd (m w s)))
    end.

(** *** Micro-waits and their actions *)

(** [page.wait_for_timeout(3000)] that returned. *)
Definition wait_returned (ev : event) : bool := is_micro_wait (ev_line ev) ev.

(** On a log (newest first): the event logged just after a micro-wait that
    returned is a click or a fill of the same source line. *)
Fixpoint acts_after_waits (l : list event) : bool :=
  match l with
  | [] => true
  | ev :: older =>
      match older with
      | wt :: _ =>
          if wait_returned wt
          then is_action (ev_call ev) && Nat.eqb (ev_line ev) (ev_line wt)
          else true
      | [] => true
      end
      && acts_after_waits older
  end.

(** No micro-wait that returned is the newest event. *)
Definition no_wait_pending (l : list event) : bool :=
  match l with
  | wt :: _ => negb (wait_returned wt)
  | [] => true
  end.

Definition waits_used (l : list event) : Prop :=
  acts_after_waits l = true /\ no_wait_pending l = true.

Definition is_wait (c : call) : bool :=
  match c with
  | WaitForTimeout _ _ => true
  | _ => false
  end.

(** *** The loop over the frames *)

(** The frames [page.frames] reported, in a history. *)
Definition frames_reported (h : list event) : list handle :=
  flat_map
    (fun ev =>
       match ev_call ev with
       | PageFrames p => if faulted ev then [] else seq p (int_val (ev_reply ev))
       | _ => []
       end) h.

(** The frames the loop of line 42 waited for, in a history. *)
Definition frame_waits (h : list event) : list handle :=
  flat_map
    (fun ev =>
       match ev_call ev with
       | WaitForLoadState f _ _ => if Nat.eqb (ev_line ev) 44 then [f] else []
       | _ => []
       end) h.

(** Neither [page.frames] nor a load-state wait of line 44. *)
Definition outside_loop (l : nat) (c : call) : bool :=
  match c with
  | PageFrames _ => false
  | WaitForLoadState _ _ _ => negb (Nat.eqb l 44)
  | _ => true
  end.

(** A property of the frames reported and waited for is kept. *)
Definition keeps_frames (I : list handle -> list handle -> Prop)
    (s s' : state) : Prop :=
  I (frames_reported (history s)) (frame_waits (history s)) ->
  I (frames_reported (history s')) (frame_waits (history s')).

(** The loop has not begun, is under way, is over. *)
Definition loop_pristine (reported waited : list handle) : Prop :=
  reported = [] /\ waited = [].
Definition loop_partial (reported waited : list handle) : Prop :=
  exists rest, reported = waited ++ rest.
Definition loop_complete (reported waited : list handle) : Prop :=
  reported = waited.

(** A fragment that, run before the loop began, leaves the loop over when
    it returns, and under way at worst when it raises. *)
Definition Loops {A} (m : M A) : Prop :=
  forall w s,
    loop_pristine (frames_reported (history s)) (frame_waits (history s)) ->
    let s' := snd (m w s) in
    match fst (m w s) with
    | Returned _ =>
        loop_complete (frames_reported (history s')) (frame_waits (history s'))
    | Raised _ =>
        loop_partial (frames_reported (history s')) (frame_waits (history s'))
    end.

(** *** The objects the calls are made on *)

(** The objects a run holds: the Playwright driver, the browser, the
    context and the page of the preamble, the page [context.pages[-1]]
    returned last, and the frames [page.frames] reported. *)
Record env := Env {
  held_pw : option handle;
  held_browser : option handle;
  held_context : option handle;
  held_page : option handle;
  held_frame : option handle;
  held_frames : list handle
}.

Definition nothing_held : env := Env None None None None None [].

(** The calls that hand out an object. *)
Definition obtains (c : call) : bool :=
  match c with
  | PlaywrightStart | ChromiumLaunch _ _ _ | NewContext _ | NewPage _
  | ContextPagesLast _ | PageFrames _ => true
  | _ => false
  end.

(** What is held once the call [c] has returned [n]. *)
Definition obtain (e : env) (c : call) (n : nat) : env :=
  match c with
  | PlaywrightStart =>
      Env (Some n) (held_browser e) (held_context e) (held_page e)
        (held_frame e) (held_frames e)
  | ChromiumLaunch _ _ _ =>
      Env (held_pw e) (Some n) (held_context e) (held_page e)
        (held_frame e) (held_frames e)
  | NewContext _ =>
      Env (held_pw e) (held_browser e) (Some n) (held_page e)
        (held_frame e) (held_frames e)
  | NewPage _ =>
      Env (held_pw e) (held_browser e) (held_context e) (Some n)
        (held_frame e) (held_frames e)
  | ContextPagesLast _ =>
      Env (held_pw e) (held_browser e) (held_context e) (held_page e)
        (Some n) (held_frames e)
  | PageFrames page =>
      Env (held_pw e) (held_browser e) (held_context e) (held_page e)
        (held_frame e) (seq page n)
  | _ => e
  end.

(** What is held after the events of a log (newest first). *)
Fixpoint held (l : list event) : env :=
  match l with
  | [] => nothing_held
  | ev :: older =>
      if faulted ev then held older
      else obtain (held older) (ev_call ev) (int_val (ev_reply ev))
  end.

Definition holds (o : option handle) (h : handle) : bool :=
  match o with
  | Some h' => Nat.eqb h h'
  | None => false
  end.

(** The call [c] of line [line] is made on an object that is held: the
    driver for [launch] and [stop], the browser for [new_context] and
    [close], the context for its methods, the page of the preamble for the
    page-level calls, a reported frame for the wait of line 44, and the page
    [context.pages[-1]] returned last for every element and for
    [content]. *)
Definition admits (e : env) (line : nat) (c : call) : bool :=
  match c with
  | PlaywrightStart | Sleep _ => true
  | ChromiumLaunch p _ _ | PlaywrightStop p => holds (held_pw e) p
  | NewContext b | BrowserClose b => holds (held_browser e) b
  | SetDefaultTimeout c _ | NewPage c | ContextPagesLast c | ContextClose c =>
      holds (held_context e) c
  | Goto p _ _ _ | PageFrames p | WaitForTimeout p _ | MouseWheel p _ _
  | Evaluate p _ =>
      holds (held_page e) p
  | WaitForLoadState f _ _ =>
      if Nat.eqb line 44 then existsb (Nat.eqb f) (held_frames e)
      else holds (held_page e) f
  | Click el _ | Fill el _ | Count el | ExpectToBeVisible el _ =>
      holds (held_frame e) (loc_frame el)
  | Content f => holds (held_frame e) f
  end.

(** On a log (newest first): every call was made on an object held when it
    was made. *)
Fixpoint provenance (l : list event) : bool :=
  match l with
  | [] => true
  | ev :: older =>
      admits (held older) (ev_line ev) (ev_call ev) && provenance older
  end.

(** The handle variables of [run_test]. *)
Definition vars (s : state) : option handle * option handle * option handle :=
  (pw s, browser s, context s).

(** A handle variable is [None] or holds the object of its kind. *)
Definition agree (v : option handle * option handle * option handle)
    (e : env) : Prop :=
  (fst (fst v) = None \/ fst (fst v) = held_pw e) /\
  (snd (fst v) = None \/ snd (fst v) = held_browser e) /\
  (snd v = None \/ snd v = held_context e).

Definition sound (s : state) : Prop :=
  provenance (log s) = true /\ agree (vars s) (held (log s)).

(** Calls on held objects that hand nothing out. *)
Definition uses_held (e : env) (l : nat) (c : call) : bool :=
  admits e l c && negb (obtains c).

Definition keeps_held (e : env) (s s' : state) : Prop :=
  held (log s) = e /\ provenance (log s) = true ->
  held (log s') = e /\ provenance (log s') = true.

(** A fragment that, run when [e] is held and the variables are [v], calls
    held objects only and leaves the variables in agreement with what is
    held. *)
Definition Uses {A} (e : env)
    (v : option handle * option handle * option handle) (m : M A) : Prop :=
  agree v e ->
  forall w s,
    held (log s) = e -> vars s = v -> provenance (log s) = true ->
    sound (snd (m w s)).

(** *** Navigation and waiting *)

(** The application under test. *)
Definition APPLICATION : string := "http://localhost:3000".

(** The address is the application's root or lies under it. *)
Definition on_application (url : string) : bool :=
  String.eqb url APPLICATION || prefix (String.append APPLICATION "/") url.

(** Every navigation goes to the application, with a timeout of 10 s. *)
Definition stays_local (l : nat) (c : call) : bool :=
  match c with
  | Goto _ url _ t => on_application url && N.eqb t 10000
  | _ => true
  end.

(** [context.set_default_timeout(ms)] returned. *)
Definition sets_default (ev : event) : option N :=
  match ev_call ev with
  | SetDefaultTimeout _ ms => if faulted ev then None else Some ms
  | _ => None
  end.

(** The default timeout in force after the events of a log (newest first):
    the one set last, or Playwright's own 30 s. *)
Fixpoint default_timeout (l : list event) : N :=
  match l with
  | [] => 30000%N
  | ev :: older =>
      match sets_default ev with
      | Some ms => ms
      | None => default_timeout older
      end
  end.

(** The time a call is given, in milliseconds: the timeout or the duration
    the script passes and, for [fill], which is passed none, the default
    timeout in force.  The other calls ([start], [launch], [new_context],
    [set_default_timeout], [new_page], [frames], [pages[-1]], [mouse.wheel],
    [evaluate], [content], [count] and the release calls) are given no
    time: [None]. *)
Definition budget (c : call) (earlier : list event) : option N :=
  match c with
  | Goto _ _ _ t | WaitForLoadState _ _ t | Click _ t
  | ExpectToBeVisible _ t => Some t
  | WaitForTimeout _ ms => Some ms
  | Sleep seconds => Some (1000 * N.of_nat seconds)%N
  | Fill _ _ => Some (default_timeout earlier)
  | _ => None
  end.

(** A click or a fill is given 5 s, every other call that is given a time
    at most 30 s. *)
Definition within_budget (c : call) (earlier : list event) : bool :=
  match budget c earlier with
  | Some t => if is_action c then N.eqb t 5000 else N.leb t 30000
  | None => true
  end.

Fixpoint budgeted (l : list event) : bool :=
  match l with
  | [] => true
  | ev :: older => within_budget (ev_call ev) older && budgeted older
  end.

Definition budget_kept (l : list event) : Prop := budgeted l = true.
Definition budget_kept_by_default (l : list event) : Prop :=
  budgeted l = true /\ default_timeout l = 5000%N.

Definition is_set_default (c : call) : bool :=
  match c with
  | SetDefaultTimeout _ _ => true
  | _ => false
  end.

Definition is_fill (c : call) : bool :=
  match c with
  | Fill _ _ => true
  | _ => false
  end.

(** The calls allowed before the default timeout is set, and after. *)
Definition before_default (l : nat) (c : call) : bool :=
  negb (is_set_default c) && negb (is_fill c) && within_budget c [].
Definition after_default (l : nat) (c : call) : bool :=
  negb (is_set_default c) && (is_fill c || within_budget c []).

(** A fragment that keeps the calls within their budgets. *)
Definition Budgets {A} (m : M A) : Prop :=
  forall w s, budget_kept (log s) -> budget_kept (log (snd (m w s))).

(** *** Scrolling *)

(** [page.evaluate('() => window.innerHeight')] returned. *)
Definition height_read (ev : event) : bool :=
  match ev_call ev with
  | Evaluate _ js => String.eqb js "() => window.innerHeight" && negb (faulted ev)
  | _ => false
  end.

(** [ev] is [page.mouse.wheel(0, height)] of the same source line and page,
    [height] being what [ht] returned. *)
Definition scrolls_by (ht ev : event) : bool :=
  match ev_call ht, ev_call ev with
  | Evaluate p _, MouseWheel p' dx dy =>
      Nat.eqb p' p && Nat.eqb dx 0 && Nat.eqb dy (int_val (ev_reply ht))
      && Nat.eqb (ev_line ev) (ev_line ht)
  | _, _ => false
  end.

(** On a log (newest first): the event logged just after a height was read
    scrolls by that height. *)
Fixpoint heights_used (l : list event) : bool :=
  match l with
  | [] => true
  | ev :: older =>
      match older with
      | ht :: _ => if height_read ht then scrolls_by ht ev else true
      | [] => true
      end
      && heights_used older
  end.

Definition no_height_pending (l : list event) : bool :=
  match l with
  | ht :: _ => negb (height_read ht)
  | [] => true
  end.

Definition heights_scrolled (l : list event) : Prop :=
  heights_used l = true /\ no_height_pending l = true.

Definition is_evaluate (c : call) : bool :=
  match c with
  | Evaluate _ _ => true
  | _ => false
  end.

(** * The scripts on some worlds *)

(** When every call returns, every script of the suite passes. *)
Example calm_suite_passes :
  forallb (fun sc => passed sc calm) suite = true.
Proof. vm_compute. reflexivity. Qed.

(** The source lines of the calls of TC001 when every call returns: the
    preamble, ten actions each after its micro-wait, nine assertions, the
    final sleep and the three release calls. *)
Example TC001_calm_lines :
  map ev_line (history (snd (run TC001 calm))) =
  [12; 15; 26; 27; 30; 33; 37; 42; 44;
   50; 53; 53; 57; 60; 60; 64; 67; 67; 70; 73; 73; 76; 79; 79; 83; 86; 86;
   90; 93; 93; 97; 100; 100; 103; 106; 106; 109; 112; 112;
   116; 117; 118; 119; 120; 121; 122; 123; 124; 125; 126;
   130; 132; 134].
Proof. vm_compute. reflexivity. Qed.

(** When the expected text never shows, TC004 ends with the script's own
    [AssertionError], raised while handling Playwright's. *)
Example TC004_never_visible_result :
  fst (run TC004 never_visible) =
  Raised
    (Exn AssertionError
       "Test case failed: The audio recording did not start successfully as expected in the interview session creation process."
       [(AssertionError, "Locator expected to be visible")]).
Proof. vm_compute. reflexivity. Qed.

(** When the first click times out, TC001 stops there and releases the
    three handles. *)
Example TC001_click_times_out_lines :
  map ev_line (history (snd (run TC001 click_times_out))) =
  [12; 15; 26; 27; 30; 33; 37; 42; 44; 50; 53; 53; 130; 132; 134].
Proof. vm_compute. reflexivity. Qed.

(** When [context.close()] raises, no other release call is made. *)
Example TC001_context_close_fails_releases :
  map ev_call
    (filter (fun ev => is_release (ev_call ev))
       (history (snd (run TC001 context_close_fails)))) =
  [ContextClose 0].
Proof. vm_compute. reflexivity. Qed.

(** When the load-state waits time out, TC001 still passes. *)
Example TC001_load_state_stalls_passes :
  passed TC001 load_state_stalls = true.
Proof. vm_compute. reflexivity. Qed.

(** When User A is shown User B's session, TC015 prints the warning and
    passes. *)
Example TC015_rls_breach_output :
  passed TC015 rls_breach = true /\
  rev (stdout (snd (run TC015 rls_breach))) =
  [RLS_WARNING; "SUCCESS: User B logged in and can access their own dashboard"].
Proof. split; vm_compute; reflexivity. Qed.

(** * Reasoning about script fragments *)

(** ** How fragments run *)

Lemma run_bind {A B} (m : M A) (k : A -> M B) w s :
  bind m k w s =
  match m w s with
  | (Returned a, s') => k a w s'
  | (Raised e, s') => (Raised e, s')
  end.
Proof. reflexivity. Qed.

Lemma run_perform l c w s :
  perform l c w s =
  match fault (w (length (log s)) c) with
  | None =>
      (Returned (w (length (log s)) c),
       record (Ev l c (w (length (log s)) c)) s)
  | Some (cls, msg) =>
      (Raised (Exn cls msg []), record (Ev l c (w (length (log s)) c)) s)
  end.
Proof. reflexivity. Qed.

Lemma run_await_ l c w s :
  await_ l c w s =
  match fault (w (length (log s)) c) with
  | None => (Returned tt, record (Ev l c (w (length (log s)) c)) s)
  | Some (cls, msg) =>
      (Raised (Exn cls msg []), record (Ev l c (w (length (log s)) c)) s)
  end.
Proof.
  unfold await_. rewrite run_bind, run_perform.
  destruct (fault (w (length (log s)) c)) as [[cls msg] |]; reflexivity.
Qed.

Lemma run_await_int l c w s :
  await_int l c w s =
  match fault (w (length (log s)) c) with
  | None =>
      (Returned (int_val (w (length (log s)) c)),
       record (Ev l c (w (length (log s)) c)) s)
  | Some (cls, msg) =>
      (Raised (Exn cls msg []), record (Ev l c (w (length (log s)) c)) s)
  end.
Proof.
  unfold await_int. rewrite run_bind, run_perform.
  destruct (fault (w (length (log s)) c)) as [[cls msg] |]; reflexivity.
Qed.

(** ** Relations between the state before and after a fragment *)

Section StableRelations.
Context {R : state -> state -> Prop} {allowed : nat -> call -> bool}.
Context {HR : Stable R allowed}.

Lemma Rel_ret {A} (a : A) : Rel R (ret a).
Proof. intros w s. apply stable_refl. Qed.

Lemma Rel_raise {A} c msg : Rel R (@raise_ A c msg).
Proof. intros w s. apply stable_refl. Qed.

Lemma Rel_get {A} (f : state -> A) : Rel R (get f).
Proof. intros w s. apply stable_refl. Qed.

Lemma Rel_bind {A B} (m : M A) (k : A -> M B) :
  Rel R m -> (forall a, Rel R (k a)) -> Rel R (bind m k).
Proof.
  intros Hm Hk w s. unfold bind. specialize (Hm w s).
  destruct (m w s) as [[a | e] s1]; simpl in *; [| exact Hm].
  eapply stable_trans; [exact Hm | apply Hk].
Qed.

Lemma Rel_perform l c : allowed l c = true -> Rel R (perform l c).
Proof.
  intros Hc w s. unfold perform.
  destruct (fault (w (length (log s)) c)) as [[cls msg] |]; simpl;
    apply stable_record; exact Hc.
Qed.

Lemma Rel_await_ l c : allowed l c = true -> Rel R (await_ l c).
Proof. intro Hc. apply Rel_bind; [apply Rel_perform; exact Hc | intro; apply Rel_ret]. Qed.

Lemma Rel_await_int l c : allowed l c = true -> Rel R (await_int l c).
Proof. intro Hc. apply Rel_bind; [apply Rel_perform; exact Hc | intro; apply Rel_ret]. Qed.

Lemma Rel_await_str l c : allowed l c = true -> Rel R (await_str l c).
Proof. intro Hc. apply Rel_bind; [apply Rel_perform; exact Hc | intro; apply Rel_ret]. Qed.

Lemma Rel_try_except {A} (m : M A) catches handler :
  Rel R m -> (forall e, Rel R (handler e)) -> Rel R (try_except m catches handler).
Proof.
  intros Hm Hh w s. unfold try_except. specialize (Hm w s).
  destruct (m w s) as [[a | e] s1]; simpl in *; [exact Hm |].
  destruct (catches (exn_class e)); [| exact Hm].
  specialize (Hh e w s1).
  destruct (handler e w s1) as [[a | e'] s2]; simpl in *;
    eapply stable_trans; eauto.
Qed.

Lemma Rel_try_finally {A} (m : M A) fin :
  Rel R m -> Rel R fin -> Rel R (try_finally m fin).
Proof.
  intros Hm Hf w s. unfold try_finally. specialize (Hm w s).
  destruct (m w s) as [[a | e] s1]; simpl in *;
    specialize (Hf w s1);
    destruct (fin w s1) as [[u | e'] s2]; simpl in *;
    eapply stable_trans; eauto.
Qed.

Lemma Rel_for_each {A} (xs : list A) body :
  (forall x, Rel R (body x)) -> Rel R (for_each xs body).
Proof.
  intro Hb. induction xs as [| x xs IH]; simpl.
  - apply Rel_ret.
  - apply Rel_bind; [apply Hb | intro; exact IH].
Qed.

Lemma Rel_if {A} (b : bool) (m1 m2 : M A) :
  Rel R m1 -> Rel R m2 -> Rel R (if b then m1 else m2).
Proof. destruct b; auto. Qed.
End StableRelations.

(** Unfolds the source-level names of the calls. *)
Ltac unfold_calls :=
  unfold start, launch, new_context, set_default_timeout, new_page, goto,
    wait_for_load_state, frames, pages_last, wait_for_timeout, click, fill,
    wheel, evaluate, content, count, expect_to_be_visible, sleep,
    close_context, close_browser, stop.

Lemma Rel_keeps_print I msg : Rel (keeps I) (print msg).
Proof. intros w s H. exact H. Qed.

Lemma Rel_keeps_set_pw I v : Rel (keeps I) (set_pw v).
Proof. intros w s H. exact H. Qed.

Lemma Rel_keeps_set_browser I v : Rel (keeps I) (set_browser v).
Proof. intros w s H. exact H. Qed.

Lemma Rel_keeps_set_context I v : Rel (keeps I) (set_context v).
Proof. intros w s H. exact H. Qed.

(** *** The handle variables *)

#[export] Instance Stable_same_vars : Stable same_vars (fun _ _ => true).
Proof.
  split.
  - intros s. repeat split.
  - intros s1 s2 s3 (Ha & Hb & Hc) (Ha' & Hb' & Hc'). repeat split; congruence.
  - intros l c r s _. repeat split.
Qed.

Lemma Rel_vars_print msg : Rel same_vars (print msg).
Proof. intros w s. repeat split. Qed.

(** *** Which calls are made *)

#[export] Instance Stable_all_calls P : Stable (keeps (all_calls P)) P.
Proof.
  split.
  - intros s H. exact H.
  - intros s1 s2 s3 Ha Hb H. auto.
  - intros l c r s Hc H. simpl. constructor; [exact Hc | exact H].
Qed.

(** *** A micro-wait before every action *)

#[export] Instance Stable_waits :
  Stable keeps_waits (fun _ c => negb (is_action c)).
Proof.
  split.
  - intros s H. exact H.
  - intros s1 s2 s3 Ha Hb H. auto.
  - intros l c r s Hc H. unfold keeps_waits, keeps in *. simpl.
    apply negb_true_iff in Hc. rewrite Hc. simpl. exact H.
Qed.

(** [await page.wait_for_timeout(3000); await elem.click(...)] and the same
    with [fill]: the action is only reached when the wait returned. *)
Lemma Rel_waits_then_act {B} l page c (k : unit -> M B) :
  (forall u, Rel keeps_waits (k u)) ->
  Rel keeps_waits
    (bind (wait_for_timeout l page 3000%N) (fun _ => bind (await_ l c) k)).
Proof.
  intros Hk w s H. unfold wait_for_timeout.
  rewrite run_bind, run_await_.
  set (r1 := w (length (log s)) (WaitForTimeout page 3000)).
  destruct (fault r1) as [[cls msg] |] eqn:E1.
  - exact H.
  - set (s1 := record (Ev l (WaitForTimeout page 3000) r1) s).
    rewrite run_bind, run_await_.
    set (r2 := w (length (log s1)) c).
    assert (H2 : waits_before_actions (log (record (Ev l c r2) s1)) = true).
    { simpl. unfold is_micro_wait, faulted. simpl. rewrite E1, Nat.eqb_refl.
      simpl. rewrite H. destruct (is_action c); reflexivity. }
    destruct (fault r2) as [[cls msg] |].
    + exact H2.
    + apply Hk. exact H2.
Qed.

(** *** How many calls raised *)

#[export] Instance Stable_more_faults : Stable more_faults (fun _ _ => true).
Proof.
  split; unfold more_faults.
  - intros s. lia.
  - intros s1 s2 s3. lia.
  - intros l c r s _. unfold nfaults. simpl.
    destruct (harmless (Ev l c r)); simpl; lia.
Qed.

(** *** Events that were logged *)

#[export] Instance Stable_has P : Stable (keeps (has P)) (fun _ _ => true).
Proof.
  split.
  - intros s H. exact H.
  - intros s1 s2 s3 Ha Hb H. auto.
  - intros l c r s _ (ev & Hin & HP). exists ev. split; [right; exact Hin | exact HP].
Qed.

(** *** Handles opened and released *)

Lemma lifecycle_free l c r :
  is_lifecycle c = false -> opens (Ev l c r) = None /\ releases (Ev l c r) = None.
Proof.
  unfold opens, releases. simpl. intro H.
  destruct c; try discriminate; split; try reflexivity;
    destruct (faulted _); reflexivity.
Qed.

#[export] Instance Stable_same_handles :
  Stable same_handles (fun _ c => negb (is_lifecycle c)).
Proof.
  split.
  - intros s. repeat split.
  - intros s1 s2 s3 (Hv & Ho & Hr) (Hv' & Ho' & Hr'). split; [| split].
    + eapply stable_trans; eauto.
    + intro k. rewrite Ho'. apply Ho.
    + intro k. rewrite Hr'. apply Hr.
  - intros l c r s Hc. apply negb_true_iff in Hc.
    destruct (lifecycle_free l c r Hc) as [Ho Hr].
    repeat split; intro k; unfold opened, released; simpl;
      [rewrite Ho | rewrite Hr]; reflexivity.
Qed.

Lemma Rel_handles_print msg : Rel same_handles (print msg).
Proof. intros w s. repeat split. Qed.

(** *** The warning of the row-level-security check *)

#[export] Instance Stable_warned : Stable keeps_warned not_title_count.
Proof.
  split.
  - intros s H. exact H.
  - intros s1 s2 s3 Ha Hb H. auto.
  - intros l c r s Hc H (ev & [<- | Hin] & HP).
    + exfalso. unfold session_title_seen in HP. simpl in HP.
      destruct c; try discriminate. simpl in Hc.
      destruct (String.eqb (selector elem) "h1"); discriminate.
    + apply H. exists ev. auto.
Qed.

Lemma Rel_warned_print msg : Rel keeps_warned (print msg).
Proof. intros w s H Hs. right. apply H, Hs. Qed.

Lemma Rel_warned_set_pw v : Rel keeps_warned (set_pw v).
Proof. intros w s H. exact H. Qed.

Lemma Rel_warned_set_browser v : Rel keeps_warned (set_browser v).
Proof. intros w s H. exact H. Qed.

Lemma Rel_warned_set_context v : Rel keeps_warned (set_context v).
Proof. intros w s H. exact H. Qed.

(** Lines 89 to 91 of TC015. *)
Lemma Rel_warned_check l e :
  Rel keeps_warned
    (bind (await_int l (Count e))
       (fun n => if (0 <? n)%nat then print RLS_WARNING else ret tt)).
Proof.
  intros w s H. rewrite run_bind, run_await_int.
  set (r := w (length (log s)) (Count e)).
  assert (Hold : forall ev, In ev (log s) -> session_title_seen ev = true ->
                            In RLS_WARNING (stdout s))
    by (intros ev Hin HP; apply H; exists ev; auto).
  destruct (fault r) as [[cls msg] |] eqn:E.
  - intros (ev & [<- | Hin] & HP); [| eauto].
    unfold session_title_seen, faulted in HP. simpl in HP. rewrite E in HP.
    rewrite andb_false_r in HP. discriminate.
  - destruct (0 <? int_val r)%nat eqn:En; simpl.
    + intros _. left. reflexivity.
    + intros (ev & [<- | Hin] & HP); [| eauto].
      unfold session_title_seen in HP. simpl in HP. rewrite En in HP.
      rewrite andb_false_r in HP. discriminate.
Qed.

(** Walks a fragment built from allowed calls, following its syntax. *)
Ltac rel_step :=
  lazymatch goal with
  | |- Rel _ (ret _) => apply Rel_ret
  | |- Rel _ (raise_ _ _) => apply Rel_raise
  | |- Rel _ (get _) => apply Rel_get
  | |- Rel (keeps _) (print _) => apply Rel_keeps_print
  | |- Rel keeps_waits (print _) => apply Rel_keeps_print
  | |- Rel (keeps _) (set_pw _) => apply Rel_keeps_set_pw
  | |- Rel (keeps _) (set_browser _) => apply Rel_keeps_set_browser
  | |- Rel (keeps _) (set_context _) => apply Rel_keeps_set_context
  | |- Rel keeps_waits (set_pw _) => apply Rel_keeps_set_pw
  | |- Rel keeps_waits (set_browser _) => apply Rel_keeps_set_browser
  | |- Rel keeps_waits (set_context _) => apply Rel_keeps_set_context
  | |- Rel same_vars (print _) => apply Rel_vars_print
  | |- Rel same_handles (print _) => apply Rel_handles_print
  | |- Rel keeps_warned (print _) => apply Rel_warned_print
  | |- Rel keeps_warned (set_pw _) => apply Rel_warned_set_pw
  | |- Rel keeps_warned (set_browser _) => apply Rel_warned_set_browser
  | |- Rel keeps_warned (set_context _) => apply Rel_warned_set_context
  | |- Rel keeps_warned
         (bind (await_int _ (Count _))
            (fun n => if (0 <? n)%nat then print _ else ret tt)) =>
      apply Rel_warned_check
  | |- Rel keeps_waits
         (bind (await_ _ (WaitForTimeout _ 3000%N)) (fun _ => bind (await_ _ _) _)) =>
      apply Rel_waits_then_act; intro
  | |- Rel _ (await_ _ _) => apply Rel_await_; reflexivity
  | |- Rel _ (await_int _ _) => apply Rel_await_int; reflexivity
  | |- Rel _ (await_str _ _) => apply Rel_await_str; reflexivity
  | |- Rel _ (perform _ _) => apply Rel_perform; reflexivity
  | |- Rel _ (bind _ _) => apply Rel_bind; [| intro]
  | |- Rel _ (try_except _ _ _) => apply Rel_try_except; [| intro]
  | |- Rel _ (try_finally _ _) => apply Rel_try_finally
  | |- Rel _ (for_each _ _) => apply Rel_for_each; intro
  | |- Rel _ (if _ then _ else _) => apply Rel_if
  | |- Rel _ (match _ with Some _ => _ | None => _ end) =>
      lazymatch goal with |- Rel _ (match ?o with Some _ => _ | None => _ end) =>
        destruct o end
  end.

Ltac rel_walk := unfold_calls; cbv zeta; repeat rel_step.

(** ** The order of the source lines *)

Lemma ordered_mono hi hi' l : hi <= hi' -> ordered hi l -> ordered hi' l.
Proof. destruct l as [| ev older]; simpl; [auto | intros H [H1 H2]; split; [lia | exact H2]]. Qed.

Lemma ordered_bound hi l : ordered hi l -> Forall (fun ev => ev_line ev <= hi) l.
Proof.
  revert hi. induction l as [| ev older IH]; simpl; intros hi H; constructor.
  - tauto.
  - destruct H as [H1 H2]. apply IH. eapply ordered_mono; eauto.
Qed.

Lemma Lines_ret {A} lo (a : A) : Lines lo (ret a) lo.
Proof. intros w s H. exact H. Qed.

Lemma Lines_weaken {A} lo (m : M A) hi hi' :
  Lines lo m hi -> hi <= hi' -> Lines lo m hi'.
Proof. intros Hm Hle w s H. eapply ordered_mono; [exact Hle | apply Hm, H]. Qed.

Lemma Lines_from {A} lo lo' (m : M A) hi :
  Lines lo m hi -> lo' <= lo -> Lines lo' m hi.
Proof. intros Hm Hle w s H. apply Hm. eapply ordered_mono; eauto. Qed.

Lemma Lines_raise {A} lo c msg : Lines lo (@raise_ A c msg) lo.
Proof. intros w s H. exact H. Qed.

Lemma Lines_print lo msg : Lines lo (print msg) lo.
Proof. intros w s H. exact H. Qed.

Lemma Lines_get {A} lo (f : state -> A) : Lines lo (get f) lo.
Proof. intros w s H. exact H. Qed.

Lemma Lines_set_pw lo v : Lines lo (set_pw v) lo.
Proof. intros w s H. exact H. Qed.

Lemma Lines_set_browser lo v : Lines lo (set_browser v) lo.
Proof. intros w s H. exact H. Qed.

Lemma Lines_set_context lo v : Lines lo (set_context v) lo.
Proof. intros w s H. exact H. Qed.

Lemma Lines_bind {A B} lo mid hi (m : M A) (k : A -> M B) :
  Lines lo m mid -> (forall a, Lines mid (k a) hi) -> mid <= hi ->
  Lines lo (bind m k) hi.
Proof.
  intros Hm Hk Hle w s H. rewrite run_bind. specialize (Hm w s H).
  destruct (m w s) as [[a | e] s1]; simpl in *.
  - apply Hk, Hm.
  - eapply ordered_mono; eauto.
Qed.

Lemma Lines_perform lo l c : lo <= l -> Lines lo (perform l c) l.
Proof.
  intros Hle w s H. rewrite run_perform.
  destruct (fault (w (length (log s)) c)) as [[cls msg] |]; simpl;
    (split; [lia | eapply ordered_mono; eauto]).
Qed.

Lemma Lines_await_ lo l c : lo <= l -> Lines lo (await_ l c) l.
Proof.
  intro Hle. eapply Lines_bind; [apply Lines_perform, Hle | intro; apply Lines_ret | lia].
Qed.

Lemma Lines_await_int lo l c : lo <= l -> Lines lo (await_int l c) l.
Proof.
  intro Hle. eapply Lines_bind; [apply Lines_perform, Hle | intro; apply Lines_ret | lia].
Qed.

Lemma Lines_await_str lo l c : lo <= l -> Lines lo (await_str l c) l.
Proof.
  intro Hle. eapply Lines_bind; [apply Lines_perform, Hle | intro; apply Lines_ret | lia].
Qed.

Lemma Lines_try_except {A} lo mid hi (m : M A) catches handler :
  Lines lo m mid -> (forall e, Lines mid (handler e) hi) -> mid <= hi ->
  Lines lo (try_except m catches handler) hi.
Proof.
  intros Hm Hh Hle w s H. unfold try_except. specialize (Hm w s H).
  destruct (m w s) as [[a | e] s1]; simpl in *.
  - eapply ordered_mono; eauto.
  - destruct (catches (exn_class e)).
    + specialize (Hh e w s1 Hm).
      destruct (handler e w s1) as [[a | e'] s2]; exact Hh.
    + eapply ordered_mono; eauto.
Qed.

Lemma Lines_try_finally {A} lo mid hi (m : M A) fin :
  Lines lo m mid -> Lines mid fin hi -> Lines lo (try_finally m fin) hi.
Proof.
  intros Hm Hf w s H. unfold try_finally. specialize (Hm w s H).
  destruct (m w s) as [[a | e] s1]; simpl in *;
    specialize (Hf w s1 Hm);
    destruct (fin w s1) as [[u | e'] s2]; exact Hf.
Qed.

Lemma Lines_for_each {A} l (xs : list A) body :
  (forall x, Lines l (body x) l) -> Lines l (for_each xs body) l.
Proof.
  intro Hb. induction xs as [| x xs IH]; simpl.
  - apply Lines_ret.
  - eapply Lines_bind; [apply Hb | intro; exact IH | lia].
Qed.

Lemma Lines_if {A} lo h1 h2 (b : bool) (m1 m2 : M A) :
  Lines lo m1 h1 -> Lines lo m2 h2 ->
  Lines lo (if b then m1 else m2) (Nat.max h1 h2).
Proof.
  intros H1 H2. destruct b; eapply Lines_weaken; eauto; lia.
Qed.

Lemma Lines_option {A} lo hi (o : option A) (f : A -> M unit) :
  (forall h, Lines lo (f h) hi) -> lo <= hi ->
  Lines lo (match o with Some h => f h | None => ret tt end) hi.
Proof.
  intros Hf Hle. destruct o; [apply Hf |].
  eapply Lines_weaken; [apply Lines_ret | exact Hle].
Qed.

Ltac le_compute := first [lia | apply Nat.leb_le; vm_compute; reflexivity].

Ltac lines_step :=
  lazymatch goal with
  | |- Lines _ (ret _) _ => apply Lines_ret
  | |- Lines _ (raise_ _ _) _ => apply Lines_raise
  | |- Lines _ (print _) _ => apply Lines_print
  | |- Lines _ (get _) _ => apply Lines_get
  | |- Lines _ (set_pw _) _ => apply Lines_set_pw
  | |- Lines _ (set_browser _) _ => apply Lines_set_browser
  | |- Lines _ (set_context _) _ => apply Lines_set_context
  | |- Lines _ (await_ _ _) _ => apply Lines_await_; le_compute
  | |- Lines _ (await_int _ _) _ => apply Lines_await_int; le_compute
  | |- Lines _ (await_str _ _) _ => apply Lines_await_str; le_compute
  | |- Lines _ (perform _ _) _ => apply Lines_perform; le_compute
  | |- Lines _ (bind _ _) _ =>
      eapply Lines_bind; [lines_step | intro; lines_step | le_compute]
  | |- Lines _ (try_except _ _ _) _ =>
      eapply Lines_try_except; [lines_step | intro; lines_step | le_compute]
  | |- Lines _ (if _ then _ else _) _ =>
      eapply Lines_if; [lines_step | lines_step]
  | |- Lines _ (for_each _ (fun _ => try_except (await_ ?l _) _ _)) _ =>
      eapply Lines_from;
        [apply (Lines_for_each l); intro; lines_step | le_compute]
  | |- Lines _ (match _ with Some _ => _ | None => ret tt end) _ =>
      eapply Lines_option; [intro; lines_step | le_compute]
  end.

Ltac lines_walk :=
  unfold_calls; cbv zeta; eapply Lines_weaken; [lines_step | le_compute].

(** ** Faults and how a fragment ends *)

Lemma harmless_returned ev : fault (ev_reply ev) = None -> harmless ev = true.
Proof. intro H. unfold harmless, faulted. rewrite H. reflexivity. Qed.

Lemma harmful_raised ev f :
  fault (ev_reply ev) = Some f -> is_load_state (ev_call ev) = false ->
  harmless ev = false /\ guarded ev = false.
Proof.
  intros H Hc. unfold harmless, faulted, guarded. rewrite H.
  destruct (ev_call ev); try discriminate; auto.
Qed.

Lemma harmless_not_guarded ev f :
  harmless ev = true -> fault (ev_reply ev) = Some f -> guarded ev = false -> False.
Proof.
  unfold harmless, faulted. intros H Hf Hg. rewrite Hf, Hg in H. discriminate.
Qed.

Lemma clean_surfaced e l : clean l -> surfaced e l.
Proof.
  intros Hc ev f Hin Hf Hg. exfalso.
  eapply harmless_not_guarded; eauto.
  exact (proj1 (Forall_forall _ _) Hc ev Hin).
Qed.

Lemma aftermath_not_load_state ev : aftermath ev = true -> is_load_state (ev_call ev) = false.
Proof. unfold aftermath. destruct (ev_call ev); simpl; auto; discriminate. Qed.

(** The first harmful call of a clean log. *)
Lemma Pending_first l c r cls msg s :
  clean (log s) -> fault r = Some (cls, msg) ->
  harmless (Ev l c r) = false -> guarded (Ev l c r) = false ->
  Pending (Exn cls msg []) (log (record (Ev l c r) s)).
Proof.
  intros Hc Hf Hh Hg. repeat split.
  - exists [], (Ev l c r), (log s). repeat split; auto.
  - intros ev f [<- | Hin] Hf' Hg'.
    + simpl in Hf'. left. simpl. congruence.
    + exfalso. eapply harmless_not_guarded; eauto.
      exact (proj1 (Forall_forall _ _) Hc ev Hin).
  - exists (cls, msg). simpl. rewrite Hh. auto.
Qed.

(** An aftermath call while [e] is pending. *)
Lemma Pending_returned e l c r s :
  Pending e (log s) -> aftermath (Ev l c r) = true -> fault r = None ->
  Pending e (log (record (Ev l c r) s)).
Proof.
  intros ((post & ev0 & pre & Hl & Hpre & Hev0 & Hpost) & Hs & (f & Hlf & Hcls)) Ha Hf.
  repeat split.
  - exists (Ev l c r :: post), ev0, pre. simpl. rewrite Hl. repeat split; auto.
  - intros ev f' [<- | Hin] Hf' Hg'.
    + simpl in Hf'. congruence.
    + eapply Hs; eauto.
  - exists f. simpl. rewrite (harmless_returned (Ev l c r) Hf). auto.
Qed.

Lemma Pending_raised e l c r cls msg s :
  Pending e (log s) -> aftermath (Ev l c r) = true -> fault r = Some (cls, msg) ->
  Pending (during e (Exn cls msg [])) (log (record (Ev l c r) s)).
Proof.
  intros ((post & ev0 & pre & Hl & Hpre & Hev0 & Hpost) & Hs & _) Ha Hf.
  destruct (harmful_raised (Ev l c r) (cls, msg) Hf
              (aftermath_not_load_state _ Ha)) as [Hh Hg].
  repeat split.
  - exists (Ev l c r :: post), ev0, pre. simpl. rewrite Hl. repeat split; auto.
  - intros ev f' [<- | Hin] Hf' Hg'.
    + simpl in Hf'. left. simpl. congruence.
    + right. eapply Hs; eauto.
  - exists (cls, msg). simpl. rewrite Hh. auto.
Qed.

(** Raising while [e] is pending keeps what [e] had surfaced. *)
Lemma Pending_during e e' l :
  Pending e l -> exn_class e' = exn_class e -> Pending (during e e') l.
Proof.
  intros (Hst & Hs & (f & Hlf & Hcls)) Hc. repeat split; auto.
  - intros ev f' Hin Hf' Hg'. unfold during, exn_trail at 1. simpl.
    right. apply in_or_app. right. eapply Hs; eauto.
  - exists f. split; [exact Hlf | simpl; congruence].
Qed.

Lemma Faulty_ret {A} (a : A) : Faulty (ret a).
Proof. intros w s H. exact H. Qed.

Lemma Faulty_print msg : Faulty (print msg).
Proof. intros w s H. exact H. Qed.

Lemma Faulty_get {A} (f : state -> A) : Faulty (get f).
Proof. intros w s H. exact H. Qed.

Lemma Faulty_set_pw v : Faulty (set_pw v).
Proof. intros w s H. exact H. Qed.

Lemma Faulty_set_browser v : Faulty (set_browser v).
Proof. intros w s H. exact H. Qed.

Lemma Faulty_set_context v : Faulty (set_context v).
Proof. intros w s H. exact H. Qed.

Lemma Faulty_bind {A B} (m : M A) (k : A -> M B) :
  Faulty m -> (forall a, Faulty (k a)) -> Faulty (bind m k).
Proof.
  intros Hm Hk w s H. rewrite run_bind. specialize (Hm w s H).
  destruct (m w s) as [[a | e] s1]; simpl in *.
  - apply Hk, Hm.
  - exact Hm.
Qed.

Lemma Faulty_perform l c : is_load_state c = false -> Faulty (perform l c).
Proof.
  intros Hc w s H. rewrite run_perform.
  destruct (fault (w (length (log s)) c)) as [[cls msg] |] eqn:E; simpl.
  - destruct (harmful_raised (Ev l c (w (length (log s)) c)) _ E Hc).
    apply Pending_first; auto.
  - constructor; [apply harmless_returned; exact E | exact H].
Qed.

Lemma Faulty_await_ l c : is_load_state c = false -> Faulty (await_ l c).
Proof. intro Hc. apply Faulty_bind; [apply Faulty_perform, Hc | intro; apply Faulty_ret]. Qed.

Lemma Faulty_await_int l c : is_load_state c = false -> Faulty (await_int l c).
Proof. intro Hc. apply Faulty_bind; [apply Faulty_perform, Hc | intro; apply Faulty_ret]. Qed.

Lemma Faulty_await_str l c : is_load_state c = false -> Faulty (await_str l c).
Proof. intro Hc. apply Faulty_bind; [apply Faulty_perform, Hc | intro; apply Faulty_ret]. Qed.

(** [try: await ...wait_for_load_state(...) except async_api.Error: pass] *)
Lemma Faulty_guarded_wait l frame st timeout :
  is_guarded_line l = true ->
  Faulty (try_except (await_ l (WaitForLoadState frame st timeout))
            is_async_api_Error (fun _ => ret tt)).
Proof.
  intros Hl w s H. unfold try_except. rewrite run_await_.
  set (c := WaitForLoadState frame st timeout).
  destruct (fault (w (length (log s)) c)) as [[cls msg] |] eqn:E; simpl.
  - destruct (is_async_api_Error cls) eqn:Ecls; simpl.
    + constructor; [| exact H].
      unfold harmless, guarded, faulted. simpl. rewrite E, Hl, Ecls. reflexivity.
    + apply Pending_first; auto;
        unfold harmless, guarded, faulted; simpl; rewrite E; auto;
        rewrite Ecls, andb_false_r; reflexivity.
  - constructor; [apply harmless_returned; exact E | exact H].
Qed.

(** [try: m except AssertionError: handler], the handler always raising. *)
Lemma Faulty_try_except_raise {A} (m : M A) handler :
  Faulty m ->
  (forall e, After AssertionError (handler e)) ->
  (forall e, NoReturn (handler e)) ->
  Faulty (try_except m is_AssertionError handler).
Proof.
  intros Hm Ha Hn w s H. unfold try_except. specialize (Hm w s H).
  destruct (m w s) as [[a | e] s1]; simpl in *; [exact Hm |].
  destruct (is_AssertionError (exn_class e)) eqn:Ecls; [| exact Hm].
  assert (Hc : exn_class e = AssertionError)
    by (destruct (exn_class e); try discriminate; reflexivity).
  specialize (Ha e w s1 e Hc Hm). destruct (Hn e w s1) as [e' He'].
  destruct (handler e w s1) as [r s2]. simpl in *. subst r. exact Ha.
Qed.

Lemma Faulty_try_finally {A} (m : M A) fin :
  Faulty m -> Faulty fin -> (forall cls, After cls fin) ->
  Faulty (try_finally m fin).
Proof.
  intros Hm Hf Ha w s H. unfold try_finally. specialize (Hm w s H).
  destruct (m w s) as [[a | e] s1]; simpl in *.
  - specialize (Hf w s1 Hm). destruct (fin w s1) as [[u | e'] s2]; exact Hf.
  - specialize (Ha _ w s1 e eq_refl Hm).
    destruct (fin w s1) as [[u | e'] s2]; exact Ha.
Qed.

Lemma Faulty_for_each {A} (xs : list A) body :
  (forall x, Faulty (body x)) -> Faulty (for_each xs body).
Proof.
  intro Hb. induction xs as [| x xs IH]; simpl.
  - apply Faulty_ret.
  - apply Faulty_bind; [apply Hb | intro; exact IH].
Qed.

Lemma Faulty_if {A} (b : bool) (m1 m2 : M A) :
  Faulty m1 -> Faulty m2 -> Faulty (if b then m1 else m2).
Proof. destruct b; auto. Qed.

Lemma After_ret {A} cls (a : A) : After cls (ret a).
Proof. intros w s e Hc H. exact H. Qed.

Lemma After_get {A} cls (f : state -> A) : After cls (get f).
Proof. intros w s e Hc H. exact H. Qed.

Lemma After_raise {A} cls msg : After cls (@raise_ A cls msg).
Proof. intros w s e Hc H. simpl. apply Pending_during; auto. Qed.

Lemma After_bind {A B} cls (m : M A) (k : A -> M B) :
  After cls m -> (forall a, After cls (k a)) -> After cls (bind m k).
Proof.
  intros Hm Hk w s e Hc H. rewrite run_bind. specialize (Hm w s e Hc H).
  destruct (m w s) as [[a | e'] s1]; simpl in *.
  - apply Hk; auto.
  - exact Hm.
Qed.

Lemma After_perform cls l c :
  is_release c || is_handler_count l c = true -> After cls (perform l c).
Proof.
  intros Ha w s e Hc H. rewrite run_perform.
  destruct (fault (w (length (log s)) c)) as [[cls' msg] |] eqn:E; simpl.
  - apply Pending_raised; auto.
  - apply Pending_returned; auto.
Qed.

Lemma After_await_ cls l c :
  is_release c || is_handler_count l c = true -> After cls (await_ l c).
Proof. intro Hc. apply After_bind; [apply After_perform, Hc | intro; apply After_ret]. Qed.

Lemma After_await_int cls l c :
  is_release c || is_handler_count l c = true -> After cls (await_int l c).
Proof. intro Hc. apply After_bind; [apply After_perform, Hc | intro; apply After_ret]. Qed.

Lemma After_if {A} cls (b : bool) (m1 m2 : M A) :
  After cls m1 -> After cls m2 -> After cls (if b then m1 else m2).
Proof. destruct b; auto. Qed.

Lemma NoReturn_raise {A} c msg : NoReturn (@raise_ A c msg).
Proof. intros w s. eexists. reflexivity. Qed.

Lemma NoReturn_bind {A B} (m : M A) (k : A -> M B) :
  (forall a, NoReturn (k a)) -> NoReturn (bind m k).
Proof.
  intros Hk w s. rewrite run_bind.
  destruct (m w s) as [[a | e] s1]; [apply Hk | eexists; reflexivity].
Qed.

Lemma NoReturn_if {A} (b : bool) (m1 m2 : M A) :
  NoReturn m1 -> NoReturn m2 -> NoReturn (if b then m1 else m2).
Proof. destruct b; auto. Qed.

Ltac noreturn_step :=
  lazymatch goal with
  | |- NoReturn (raise_ _ _) => apply NoReturn_raise
  | |- NoReturn (bind _ _) => apply NoReturn_bind; intro
  | |- NoReturn (if _ then _ else _) => apply NoReturn_if
  end.

Ltac after_step :=
  lazymatch goal with
  | |- After _ (ret _) => apply After_ret
  | |- After _ (get _) => apply After_get
  | |- After _ (raise_ _ _) => apply After_raise
  | |- After _ (await_ _ _) => apply After_await_; reflexivity
  | |- After _ (await_int _ _) => apply After_await_int; reflexivity
  | |- After _ (perform _ _) => apply After_perform; reflexivity
  | |- After _ (bind _ _) => apply After_bind; [| intro]
  | |- After _ (if _ then _ else _) => apply After_if
  | |- After _ (match ?o with Some _ => _ | None => _ end) => destruct o
  end.

Ltac faulty_step :=
  lazymatch goal with
  | |- Faulty (ret _) => apply Faulty_ret
  | |- Faulty (print _) => apply Faulty_print
  | |- Faulty (get _) => apply Faulty_get
  | |- Faulty (set_pw _) => apply Faulty_set_pw
  | |- Faulty (set_browser _) => apply Faulty_set_browser
  | |- Faulty (set_context _) => apply Faulty_set_context
  | |- Faulty (await_ _ _) => apply Faulty_await_; reflexivity
  | |- Faulty (await_int _ _) => apply Faulty_await_int; reflexivity
  | |- Faulty (await_str _ _) => apply Faulty_await_str; reflexivity
  | |- Faulty (perform _ _) => apply Faulty_perform; reflexivity
  | |- Faulty (bind _ _) => apply Faulty_bind; [| intro]
  | |- Faulty (try_except (await_ _ (WaitForLoadState _ _ _)) is_async_api_Error _) =>
      apply Faulty_guarded_wait; reflexivity
  | |- Faulty (try_except _ is_AssertionError _) =>
      apply Faulty_try_except_raise;
        [| intro; repeat after_step | intro; repeat noreturn_step]
  | |- Faulty (for_each _ _) => apply Faulty_for_each; intro
  | |- Faulty (if _ then _ else _) => apply Faulty_if
  | |- Faulty (match ?o with Some _ => _ | None => _ end) => destruct o
  end.

Ltac faulty_walk := unfold_calls; cbv zeta; repeat faulty_step.

(** ** Runs in which no call raises *)

Lemma Calm_ret {A} (a : A) : Calm (ret a).
Proof. intros w s. simpl. lia. Qed.

Lemma Calm_print msg : Calm (print msg).
Proof. intros w s. simpl. lia. Qed.

Lemma Calm_get {A} (f : state -> A) : Calm (get f).
Proof. intros w s. simpl. lia. Qed.

Lemma Calm_set_pw v : Calm (set_pw v).
Proof. intros w s. simpl. lia. Qed.

Lemma Calm_set_browser v : Calm (set_browser v).
Proof. intros w s. simpl. lia. Qed.

Lemma Calm_set_context v : Calm (set_context v).
Proof. intros w s. simpl. lia. Qed.

Lemma Calm_bind {A B} (m : M A) (k : A -> M B) :
  Calm m -> (forall a, Calm (k a)) -> Calm (bind m k).
Proof.
  intros Hm Hk w s. rewrite run_bind. specialize (Hm w s).
  destruct (m w s) as [[a | e] s1]; simpl in *; [| exact Hm].
  specialize (Hk a w s1). destruct (fst (k a w s1)); lia.
Qed.

Lemma Calm_perform l c : is_load_state c = false -> Calm (perform l c).
Proof.
  intros Hc w s. rewrite run_perform. unfold nfaults.
  destruct (fault (w (length (log s)) c)) as [[cls msg] |] eqn:E; simpl.
  - destruct (harmful_raised (Ev l c (w (length (log s)) c)) _ E Hc) as [-> _].
    simpl. lia.
  - rewrite (harmless_returned (Ev l c (w (length (log s)) c)) E). simpl. lia.
Qed.

Lemma Calm_await_ l c : is_load_state c = false -> Calm (await_ l c).
Proof. intro Hc. apply Calm_bind; [apply Calm_perform, Hc | intro; apply Calm_ret]. Qed.

Lemma Calm_await_int l c : is_load_state c = false -> Calm (await_int l c).
Proof. intro Hc. apply Calm_bind; [apply Calm_perform, Hc | intro; apply Calm_ret]. Qed.

Lemma Calm_await_str l c : is_load_state c = false -> Calm (await_str l c).
Proof. intro Hc. apply Calm_bind; [apply Calm_perform, Hc | intro; apply Calm_ret]. Qed.

(** [try: await ...wait_for_load_state(...) except async_api.Error: pass] *)
Lemma Calm_guarded_wait l frame st timeout :
  is_guarded_line l = true ->
  Calm (try_except (await_ l (WaitForLoadState frame st timeout))
          is_async_api_Error (fun _ => ret tt)).
Proof.
  intros Hl w s. unfold try_except. rewrite run_await_. unfold nfaults.
  set (c := WaitForLoadState frame st timeout).
  destruct (fault (w (length (log s)) c)) as [[cls msg] |] eqn:E; simpl.
  - destruct (is_async_api_Error cls) eqn:Ecls; simpl;
      unfold harmless, guarded, faulted; simpl; rewrite E, Hl, Ecls; simpl; lia.
  - rewrite (harmless_returned (Ev l c (w (length (log s)) c)) E). simpl. lia.
Qed.

Lemma Calm_try_except {A} (m : M A) catches handler :
  Calm m -> (forall e, Rel more_faults (handler e)) ->
  Calm (try_except m catches handler).
Proof.
  intros Hm Hh w s. unfold try_except. specialize (Hm w s).
  destruct (m w s) as [[a | e] s1]; simpl in *; [exact Hm |].
  destruct (catches (exn_class e)); [| exact Hm].
  specialize (Hh e w s1). unfold more_faults in Hh.
  destruct (handler e w s1) as [[a | e'] s2]; simpl in *; lia.
Qed.

Lemma Calm_try_finally {A} (m : M A) fin :
  Calm m -> Calm fin -> Calm (try_finally m fin).
Proof.
  intros Hm Hf w s. unfold try_finally. specialize (Hm w s).
  destruct (m w s) as [[a | e] s1]; simpl in *;
    specialize (Hf w s1);
    destruct (fin w s1) as [[u | e'] s2]; simpl in *; lia.
Qed.

Lemma Calm_for_each {A} (xs : list A) body :
  (forall x, Calm (body x)) -> Calm (for_each xs body).
Proof.
  intro Hb. induction xs as [| x xs IH]; simpl.
  - apply Calm_ret.
  - apply Calm_bind; [apply Hb | intro; exact IH].
Qed.

Lemma Calm_if {A} (b : bool) (m1 m2 : M A) :
  Calm m1 -> Calm m2 -> Calm (if b then m1 else m2).
Proof. destruct b; auto. Qed.

Ltac calm_step :=
  lazymatch goal with
  | |- Calm (ret _) => apply Calm_ret
  | |- Calm (print _) => apply Calm_print
  | |- Calm (get _) => apply Calm_get
  | |- Calm (set_pw _) => apply Calm_set_pw
  | |- Calm (set_browser _) => apply Calm_set_browser
  | |- Calm (set_context _) => apply Calm_set_context
  | |- Calm (await_ _ _) => apply Calm_await_; reflexivity
  | |- Calm (await_int _ _) => apply Calm_await_int; reflexivity
  | |- Calm (await_str _ _) => apply Calm_await_str; reflexivity
  | |- Calm (perform _ _) => apply Calm_perform; reflexivity
  | |- Calm (bind _ _) => apply Calm_bind; [| intro]
  | |- Calm (try_except (await_ _ (WaitForLoadState _ _ _)) is_async_api_Error _) =>
      apply Calm_guarded_wait; reflexivity
  | |- Calm (try_except _ _ _) =>
      apply Calm_try_except; [| intro; repeat rel_step]
  | |- Calm (try_finally _ _) => apply Calm_try_finally
  | |- Calm (for_each _ _) => apply Calm_for_each; intro
  | |- Calm (if _ then _ else _) => apply Calm_if
  | |- Calm (match ?o with Some _ => _ | None => _ end) => destruct o
  end.

Ltac calm_walk := unfold_calls; cbv zeta; repeat calm_step.

(** ** Events a returning fragment must have logged *)

Lemma Reach_here {A B} P (m : M A) (k : A -> M B) :
  Reach P m -> (forall a, Rel (keeps (has P)) (k a)) -> Reach P (bind m k).
Proof.
  intros Hm Hk w s. rewrite run_bind. specialize (Hm w s).
  destruct (m w s) as [[a | e] s1]; simpl in *; [| exact I].
  specialize (Hk a w s1 Hm). destruct (fst (k a w s1)); auto.
Qed.

Lemma Reach_later {A B} P (m : M A) (k : A -> M B) :
  (forall a, Reach P (k a)) -> Reach P (bind m k).
Proof.
  intros Hk w s. rewrite run_bind.
  destruct (m w s) as [[a | e] s1]; simpl in *; [apply Hk | exact I].
Qed.

Lemma Reach_await_ P l c :
  (forall r, fault r = None -> P (Ev l c r) = true) -> Reach P (await_ l c).
Proof.
  intros HP w s. rewrite run_await_.
  destruct (fault (w (length (log s)) c)) as [[cls msg] |] eqn:E; simpl; [exact I |].
  eexists. split; [left; reflexivity | apply HP, E].
Qed.

Lemma Reach_try_except {A} P (m : M A) catches handler :
  Reach P m -> (forall e, NoReturn (handler e)) ->
  Reach P (try_except m catches handler).
Proof.
  intros Hm Hn w s. unfold try_except. specialize (Hm w s).
  destruct (m w s) as [[a | e] s1]; simpl in *; [exact Hm |].
  destruct (catches (exn_class e)); [| exact I].
  destruct (Hn e w s1) as [e' He'].
  destruct (handler e w s1) as [r s2]. simpl in *. subst r. exact I.
Qed.

Lemma Reach_try_finally {A} P (m : M A) fin :
  Reach P m -> Rel (keeps (has P)) fin -> Reach P (try_finally m fin).
Proof.
  intros Hm Hf w s. unfold try_finally. specialize (Hm w s).
  destruct (m w s) as [[a | e] s1]; simpl in *;
    specialize (Hf w s1);
    destruct (fin w s1) as [[u | e'] s2]; simpl in *; auto.
Qed.

(** * The scripts, fragment by fragment *)

Ltac wellformed_walk :=
  split;
    [ intros c p; rel_walk | intros c p; rel_walk | intros c p; rel_walk
    | intros c p; lines_walk | intros c p; faulty_walk | intros c p; calm_walk
    | intros c p; rel_walk | le_compute ].

Lemma TC001_wellformed : Wellformed TC001_steps TC001_finally.
Proof. unfold TC001_steps. wellformed_walk. Qed.

Lemma TC004_wellformed : Wellformed TC004_steps TC004_finally.
Proof. unfold TC004_steps. wellformed_walk. Qed.

Lemma TC005_wellformed : Wellformed TC005_steps TC005_finally.
Proof. unfold TC005_steps. wellformed_walk. Qed.

Lemma TC010_wellformed : Wellformed TC010_steps TC010_finally.
Proof. unfold TC010_steps. wellformed_walk. Qed.

Lemma TC011_wellformed : Wellformed TC011_steps TC011_finally.
Proof. unfold TC011_steps. wellformed_walk. Qed.

Lemma TC012_wellformed : Wellformed TC012_steps TC012_finally.
Proof. unfold TC012_steps. wellformed_walk. Qed.

Lemma TC015_wellformed : Wellformed TC015_steps TC015_finally.
Proof. unfold TC015_steps. wellformed_walk. Qed.

Lemma TC016_wellformed : Wellformed TC016_steps TC016_finally.
Proof. unfold TC016_steps. wellformed_walk. Qed.

Lemma TC017_wellformed : Wellformed TC017_steps TC017_finally.
Proof. unfold TC017_steps. wellformed_walk. Qed.

Lemma suite_wellformed sc :
  In sc suite -> Wellformed (steps sc) (finally_line sc).
Proof.
  unfold suite. simpl.
  intros [<- | [<- | [<- | [<- | [<- | [<- | [<- | [<- | [<- | []]]]]]]]]].
  - exact TC001_wellformed.
  - exact TC004_wellformed.
  - exact TC005_wellformed.
  - exact TC010_wellformed.
  - exact TC011_wellformed.
  - exact TC012_wellformed.
  - exact TC015_wellformed.
  - exact TC016_wellformed.
  - exact TC017_wellformed.
Qed.

(** * Whole runs *)

Lemma setup_lines : Lines 0 setup 47.
Proof.
  unfold setup. unfold_calls. cbv zeta.
  eapply Lines_weaken; [lines_step | le_compute].
Qed.

Lemma finalizer_lines fin : Lines fin (finalizer fin) (fin + 6).
Proof.
  unfold finalizer. unfold_calls.
  eapply Lines_weaken; [lines_step | le_compute].
Qed.

Lemma setup_faulty : Faulty setup.
Proof. unfold setup. faulty_walk. Qed.

Lemma finalizer_faulty fin : Faulty (finalizer fin).
Proof. unfold finalizer. faulty_walk. Qed.

Lemma finalizer_after fin cls : After cls (finalizer fin).
Proof. unfold finalizer. unfold_calls. repeat after_step. Qed.

Lemma setup_calm : Calm setup.
Proof. unfold setup. calm_walk. Qed.

Lemma finalizer_calm fin : Calm (finalizer fin).
Proof. unfold finalizer. calm_walk. Qed.

Section Run.
Variable steps : handle -> handle -> M unit.
Variable fin : nat.
Hypothesis wf : Wellformed steps fin.

Lemma run_test_calls : Rel (keeps (all_calls call_ok)) (run_test steps fin).
Proof.
  unfold run_test, setup, finalizer. rel_walk. apply (wf_calls _ _ wf).
Qed.

Lemma run_test_waits : Rel keeps_waits (run_test steps fin).
Proof.
  unfold run_test, setup, finalizer. rel_walk. apply (wf_waits _ _ wf).
Qed.

Lemma run_test_warned : Rel keeps_warned (run_test steps fin).
Proof.
  unfold run_test, setup, finalizer. rel_walk. apply (wf_warned _ _ wf).
Qed.

Lemma run_test_lines : Lines 0 (run_test steps fin) (fin + 6).
Proof.
  pose proof (wf_finally _ _ wf) as Hfin.
  unfold run_test.
  eapply Lines_bind; [apply Lines_set_pw | intro | lia].
  eapply Lines_bind; [apply Lines_set_browser | intro | lia].
  eapply Lines_bind; [apply Lines_set_context | intro | lia].
  eapply Lines_try_finally; [| apply finalizer_lines].
  eapply Lines_bind; [apply setup_lines | intro; apply (wf_lines _ _ wf) | exact Hfin].
Qed.

Lemma run_test_faulty : Faulty (run_test steps fin).
Proof.
  unfold run_test. repeat faulty_step.
  apply Faulty_try_finally.
  - apply Faulty_bind; [apply setup_faulty | intro; apply (wf_faults _ _ wf)].
  - apply finalizer_faulty.
  - apply finalizer_after.
Qed.

Lemma run_test_calm : Calm (run_test steps fin).
Proof.
  unfold run_test. repeat calm_step.
  - apply setup_calm.
  - apply (wf_calm _ _ wf).
  - apply finalizer_calm.
Qed.
End Run.

(** ** Opening and releasing the handles *)

Lemma hygienic_rel {A} (m : M A) w s :
  Rel same_handles m -> hygienic s -> hygienic (snd (m w s)).
Proof.
  intros Hm (Hd & Hb & Hc & Hr).
  destruct (Hm w s) as ((Hpw & Hbr & Hctx) & Ho & Hrel).
  repeat split; try (rewrite Ho); try congruence.
Qed.

Lemma run_bind_await_int {B} l c (k : nat -> M B) w s :
  bind (await_int l c) k w s =
  match fault (w (length (log s)) c) with
  | None =>
      k (int_val (w (length (log s)) c)) w
        (record (Ev l c (w (length (log s)) c)) s)
  | Some (cls, msg) =>
      (Raised (Exn cls msg []), record (Ev l c (w (length (log s)) c)) s)
  end.
Proof.
  rewrite run_bind, run_await_int.
  destruct (fault (w (length (log s)) c)) as [[cls msg] |]; reflexivity.
Qed.

Lemma run_bind_await_ {B} l c (k : unit -> M B) w s :
  bind (await_ l c) k w s =
  match fault (w (length (log s)) c) with
  | None => k tt w (record (Ev l c (w (length (log s)) c)) s)
  | Some (cls, msg) =>
      (Raised (Exn cls msg []), record (Ev l c (w (length (log s)) c)) s)
  end.
Proof.
  rewrite run_bind, run_await_.
  destruct (fault (w (length (log s)) c)) as [[cls msg] |]; reflexivity.
Qed.

Lemma opens_raised l c r cls msg :
  fault r = Some (cls, msg) -> opens (Ev l c r) = None.
Proof. intro H. unfold opens, faulted. simpl. rewrite H. reflexivity. Qed.

Lemma opens_returned l c r :
  fault r = None ->
  opens (Ev l c r) =
  match c with
  | PlaywrightStart => Some (Driver, int_val r)
  | ChromiumLaunch _ _ _ => Some (Browser, int_val r)
  | NewContext _ => Some (BrowserContext, int_val r)
  | _ => None
  end.
Proof. intro H. unfold opens, faulted. simpl. rewrite H. reflexivity. Qed.

Lemma setup_hygienic w out :
  hygienic (snd (setup w (State [] None None None out))).
Proof.
  unfold setup, start, launch, new_context.
  rewrite run_bind_await_int.
  match goal with |- context [fault ?r] => destruct (fault r) as [[cls msg] |] eqn:E1 end.
  { repeat split; try intro k; unfold opened, released; simpl;
      try rewrite (opens_raised _ _ _ _ _ E1); try destruct k; reflexivity. }
  rewrite run_bind. cbn [set_pw fst snd log pw browser context stdout record].
  rewrite run_bind_await_int.
  match goal with |- context [fault ?r] => destruct (fault r) as [[cls msg] |] eqn:E2 end.
  { repeat split; try intro k; unfold opened, released; simpl;
      try rewrite (opens_raised _ _ _ _ _ E2);
      try rewrite (opens_returned _ _ _ E1); try destruct k; reflexivity. }
  rewrite run_bind. cbn [set_browser fst snd log pw browser context stdout record].
  rewrite run_bind_await_int.
  match goal with |- context [fault ?r] => destruct (fault r) as [[cls msg] |] eqn:E3 end.
  { repeat split; try intro k; unfold opened, released; simpl;
      try rewrite (opens_raised _ _ _ _ _ E3);
      try rewrite (opens_returned _ _ _ E2);
      try rewrite (opens_returned _ _ _ E1); try destruct k; reflexivity. }
  rewrite run_bind. cbn [set_context fst snd log pw browser context stdout record].
  apply hygienic_rel.
  - rel_walk.
  - repeat split; try intro k; unfold opened, released; simpl;
      try rewrite (opens_returned _ _ _ E3);
      try rewrite (opens_returned _ _ _ E2);
      try rewrite (opens_returned _ _ _ E1); try destruct k; reflexivity.
Qed.

Lemma opened_cons_release k l c r rest :
  is_release c = true -> opened k (Ev l c r :: rest) = opened k rest.
Proof.
  intro H. unfold opened. simpl.
  replace (opens (Ev l c r)) with (@None (resource * handle)); [reflexivity |].
  unfold opens. simpl. destruct (faulted _); [reflexivity |].
  destruct c; try discriminate; reflexivity.
Qed.

Ltac final_step :=
  first
    [ rewrite run_bind_await_;
      match goal with
      | |- context [fault ?r] =>
          let E := fresh "E" in destruct (fault r) as [[? ?] |] eqn:E
      end
    | rewrite run_await_;
      match goal with
      | |- context [fault ?r] =>
          let E := fresh "E" in destruct (fault r) as [[? ?] |] eqn:E
      end
    | rewrite run_bind;
      cbn [get ret fst snd log pw browser context stdout record] ].

(** Finds the release call that raised. *)
Ltac raised_release :=
  match goal with
  | E : fault ?r = Some _ |- release_raised _ ?l =>
      match l with
      | context [Ev ?ln ?c r] =>
          exists (Ev ln c r); eexists; split;
            [ simpl; tauto
            | split; [reflexivity | unfold faulted; simpl; rewrite E; reflexivity] ]
      end
  end.

Lemma release_raised_cons k ev l :
  release_raised k (ev :: l) ->
  (exists h, releases ev = Some (k, h) /\ faulted ev = true) \/
  release_raised k l.
Proof.
  intros (ev' & h & [<- | Hin] & Hr & Hf).
  - left. exists h. auto.
  - right. exists ev', h. auto.
Qed.

Lemma no_release_raised k l : released k l = [] -> ~ release_raised k l.
Proof.
  intros H (ev & h & Hin & Hr & _). unfold released in H.
  induction l as [| x l IH]; [contradiction |]. simpl in H.
  destruct Hin as [-> | Hin].
  - rewrite Hr in H. destruct k; discriminate.
  - apply IH; [| exact Hin].
    destruct (releases x) as [[k' h'] |]; [| exact H].
    destruct (resource_eqb k k'); [discriminate | exact H].
Qed.

(** No release call on a handle of that kind raised: the calls at the head
    of the log returned or are of another kind, and none was made before. *)
Ltac not_raised :=
  let H := fresh "H" in
  intro H;
  repeat
    (apply release_raised_cons in H;
     let Hr := fresh "Hr" in let Hf := fresh "Hf" in
     destruct H as [(? & Hr & Hf) | H];
     [ first
         [ discriminate Hr
         | unfold faulted in Hf; simpl in Hf;
           match goal with
           | E : fault ?r = None |- _ =>
               match type of Hf with context [fault r] => rewrite E in Hf end
           end;
           discriminate Hf ]
     | ]);
  match goal with
  | Hn : forall k, ~ release_raised k _ |- _ => exact (Hn _ H)
  end.

Lemma finalizer_discipline fin w s :
  hygienic s -> discipline (log (snd (finalizer fin w s))).
Proof.
  destruct s as [l p b c out]. intros (Hd & Hb & Hc & Hr). simpl in *.
  assert (Hn : forall k, ~ release_raised k l)
    by (intro k; apply no_release_raised, Hr).
  unfold finalizer, close_context, close_browser, stop.
  assert (Hr1 := Hr Driver). assert (Hr2 := Hr Browser).
  assert (Hr3 := Hr BrowserContext). clear Hr.
  destruct c as [hc |], b as [hb |], p as [hp |]; simpl in *;
    repeat final_step;
    cbn [get ret fst snd log pw browser context stdout record length] in *;
    unfold discipline, released_once;
    rewrite ?opened_cons_release by reflexivity;
    try rewrite Hd; try rewrite Hb; try rewrite Hc;
    unfold released in *; simpl; rewrite ?Hr1, ?Hr2, ?Hr3; simpl.
  all: repeat split; try reflexivity; try lia.
  all: first
         [ solve [left; repeat split; first [reflexivity | lia | not_raised]]
         | right; split; [reflexivity |];
           first [raised_release | left; raised_release | right; raised_release] ].
Qed.

Lemma handles_of_app f k l1 l2 :
  handles_of f k (l1 ++ l2) = handles_of f k l1 ++ handles_of f k l2.
Proof.
  induction l1 as [| ev l1 IH]; simpl; [reflexivity |].
  destruct (f ev) as [[k' h] |]; [| exact IH].
  destruct (resource_eqb k k'); simpl; rewrite IH; reflexivity.
Qed.

Lemma handles_of_rev f k l : handles_of f k (rev l) = rev (handles_of f k l).
Proof.
  induction l as [| ev l IH]; simpl; [reflexivity |].
  rewrite handles_of_app, IH. simpl.
  destruct (f ev) as [[k' h] |]; simpl; [| apply app_nil_r].
  destruct (resource_eqb k k'); simpl; [reflexivity | apply app_nil_r].
Qed.

Lemma released_once_rev k l : released_once k l -> released_once k (rev l).
Proof.
  unfold released_once, released, opened. intros [H1 H2].
  rewrite !handles_of_rev, length_rev, H1. auto.
Qed.

Lemma release_raised_rev k l : release_raised k l -> release_raised k (rev l).
Proof.
  intros (ev & h & Hin & H). exists ev, h. split; [| exact H].
  apply (proj1 (in_rev _ _)), Hin.
Qed.

Lemma released_nil_rev k l : released k l = [] -> released k (rev l) = [].
Proof. unfold released. rewrite handles_of_rev. intros ->. reflexivity. Qed.

Lemma release_raised_unrev k l : release_raised k (rev l) -> release_raised k l.
Proof.
  intros (ev & h & Hin & H). exists ev, h. split; [| exact H].
  apply (proj2 (in_rev _ _)), Hin.
Qed.

Lemma discipline_rev l : discipline l -> discipline (rev l).
Proof.
  intros (Hc & Hb & Hd). split; [| split].
  - apply released_once_rev, Hc.
  - destruct Hb as [[Hb Hn] | [Hb1 Hb2]].
    + left. split; [apply released_once_rev, Hb |].
      intro H. apply Hn, release_raised_unrev, H.
    + right. split; [apply released_nil_rev, Hb1 | apply release_raised_rev, Hb2].
  - destruct Hd as [(Hd & Hn1 & Hn2) | [Hd1 [Hd2 | Hd2]]].
    + left. split; [apply released_once_rev, Hd |].
      split; intro H; [apply Hn1 | apply Hn2]; apply release_raised_unrev, H.
    + right. split; [apply released_nil_rev, Hd1 | left; apply release_raised_rev, Hd2].
    + right. split; [apply released_nil_rev, Hd1 | right; apply release_raised_rev, Hd2].
Qed.

Lemma try_finally_state {A} (m : M A) fin w s :
  snd (try_finally m fin w s) = snd (fin w (snd (m w s))).
Proof.
  unfold try_finally.
  destruct (m w s) as [[a | e] s1]; simpl;
    destruct (fin w s1) as [[u | e'] s2]; reflexivity.
Qed.

Lemma run_test_discipline steps fin w :
  Wellformed steps fin ->
  discipline (history (snd (run_test steps fin w initial_state))).
Proof.
  intro wf. unfold history. apply discipline_rev.
  unfold run_test.
  repeat (rewrite run_bind;
          cbn [set_pw set_browser set_context fst snd log pw browser context
               stdout initial_state]).
  rewrite try_finally_state. apply finalizer_discipline.
  rewrite run_bind. pose proof (setup_hygienic w []) as Hs.
  destruct (setup w (State [] None None None [])) as [[cp | e] s1]; simpl in *.
  - apply hygienic_rel; [apply (wf_handles _ _ wf) | exact Hs].
  - exact Hs.
Qed.

(** ** From the log to the history *)

Lemma history_split s pre ev post :
  history s = pre ++ ev :: post -> log s = rev post ++ ev :: rev pre.
Proof.
  unfold history. intro H.
  rewrite <- (rev_involutive (log s)), H, rev_app_distr. simpl.
  rewrite <- app_assoc. reflexivity.
Qed.

Lemma history_split2 s pre ev mid ev' post :
  history s = pre ++ ev :: mid ++ ev' :: post ->
  log s = rev post ++ ev' :: rev mid ++ ev :: rev pre.
Proof.
  intro H. apply history_split in H. rewrite H, rev_app_distr. simpl.
  rewrite <- !app_assoc. reflexivity.
Qed.

Lemma in_history s ev : In ev (history s) <-> In ev (log s).
Proof. unfold history. symmetry. apply in_rev. Qed.

Lemma has_history P s : has P (history s) <-> has P (log s).
Proof.
  split; intros (ev & Hin & HP); exists ev; split; auto; apply in_history; auto.
Qed.

(** Two ways to cut the same list at an element. *)
Lemma cut_compare {A} (a a' : list A) x x' b b' :
  a ++ x :: b = a' ++ x' :: b' ->
  (a = a' /\ x = x' /\ b = b') \/
  (exists m, a' = a ++ x :: m /\ b = m ++ x' :: b') \/
  (exists m, a = a' ++ x' :: m /\ b' = m ++ x :: b).
Proof.
  revert a'. induction a as [| y a IH]; intros [| y' a'] H; simpl in H;
    injection H as H1 H2; subst.
  - left. auto.
  - right. left. exists a'. auto.
  - right. right. exists a. auto.
  - destruct (IH _ H2) as [(-> & -> & ->) | [(m & -> & ->) | (m & -> & ->)]].
    + left. auto.
    + right. left. exists m. auto.
    + right. right. exists m. auto.
Qed.

Lemma ordered_split hi a ev' b ev c :
  ordered hi (a ++ ev' :: b ++ ev :: c) -> ev_line ev <= ev_line ev'.
Proof.
  revert hi. induction a as [| x a IH]; simpl; intros hi [_ H].
  - apply ordered_bound in H.
    apply (proj1 (Forall_forall _ _) H). apply in_or_app. right. left. reflexivity.
  - eapply IH, H.
Qed.

Lemma waits_split l a ev c :
  waits_before_actions l = true -> l = a ++ ev :: c ->
  is_action (ev_call ev) = true ->
  exists wt c', c = wt :: c' /\ is_micro_wait (ev_line ev) wt = true.
Proof.
  intros H -> Ha. induction a as [| x a IH]; simpl in H.
  - rewrite Ha in H. destruct c as [| wt c']; [discriminate |].
    apply andb_true_iff in H. exists wt, c'. tauto.
  - apply andb_true_iff in H. tauto.
Qed.

Lemma micro_wait_inv line wt :
  is_micro_wait line wt = true ->
  exists page,
    ev_call wt = WaitForTimeout page 3000 /\ ev_line wt = line /\
    fault (ev_reply wt) = None.
Proof.
  unfold is_micro_wait, faulted. destruct (ev_call wt); try discriminate.
  intro H. apply andb_true_iff in H as [H H3].
  apply andb_true_iff in H as [H1 H2].
  apply N.eqb_eq in H1. apply Nat.eqb_eq in H2. subst.
  exists page. repeat split; auto.
  destruct (fault (ev_reply wt)); [discriminate | reflexivity].
Qed.

Lemma harmless_false ev :
  harmless ev = false <-> faulted ev = true /\ guarded ev = false.
Proof.
  unfold harmless. destruct (faulted ev), (guarded ev); simpl; intuition discriminate.
Qed.

(** After the first harmful event only aftermath calls are made. *)
Lemma stopped_split l a ev c :
  stopped l -> l = a ++ ev :: c -> harmless ev = false ->
  Forall (fun ev' => aftermath ev' = true) a.
Proof.
  intros (post & ev0 & pre & -> & Hpre & Hev0 & Hpost) H Hev.
  destruct (cut_compare _ _ _ _ _ _ H) as [(-> & _) | [(m & _ & ->) | (m & -> & _)]].
  - exact Hpost.
  - exfalso. apply Forall_app in Hpre as [_ Hpre].
    inversion Hpre; subst. congruence.
  - apply Forall_app in Hpost. tauto.
Qed.

Lemma last_fault_split l a ev c :
  l = a ++ ev :: c -> Forall (fun ev' => faulted ev' = false) a ->
  harmless ev = false -> last_fault l = fault (ev_reply ev).
Proof.
  intros -> Ha Hev. induction a as [| x a IH]; simpl.
  - rewrite Hev. reflexivity.
  - inversion Ha; subst. unfold harmless at 1. rewrite H1. simpl. auto.
Qed.

Lemma nfaults_none l :
  (forall ev, In ev l -> harmless ev = true) -> nfaults l = 0.
Proof.
  unfold nfaults. induction l as [| ev l IH]; simpl; intro H; [reflexivity |].
  rewrite (H ev (or_introl eq_refl)). apply IH. intros; apply H; auto.
Qed.

(** ** What every run of a well-formed script satisfies *)

Section RunFacts.
Variable steps : handle -> handle -> M unit.
Variable fin : nat.
Hypothesis wf : Wellformed steps fin.
Variable w : World.

Let r := fst (run_test steps fin w initial_state).
Let s := snd (run_test steps fin w initial_state).

Lemma run_fine : Fine r (log s).
Proof. apply (run_test_faulty _ _ wf). constructor. Qed.

Lemma run_ordered : ordered (fin + 6) (log s).
Proof. apply (run_test_lines _ _ wf). exact I. Qed.

Lemma run_waits : waits_before_actions (log s) = true.
Proof. apply (run_test_waits _ _ wf). reflexivity. Qed.

Lemma run_calls : all_calls call_ok (log s).
Proof. apply (run_test_calls _ _ wf). constructor. Qed.

Lemma run_warned : warned s.
Proof. apply (run_test_warned _ _ wf). intros (ev & [] & _). Qed.

Lemma run_returns_when_calm :
  (forall ev, In ev (log s) -> harmless ev = true) -> r = Returned tt.
Proof.
  intro H. pose proof (run_test_calm _ _ wf w initial_state) as Hc.
  fold r s in Hc. rewrite (nfaults_none _ H) in Hc.
  destruct r as [[] | e]; [reflexivity | simpl in Hc; lia].
Qed.

(** A harmful event ends the run with an exception that carries its
    fault, and only aftermath calls follow it. *)
Lemma run_stops pre ev post :
  history s = pre ++ ev :: post -> harmless ev = false ->
  exists e,
    r = Raised e /\
    (forall f, fault (ev_reply ev) = Some f -> In f (exn_trail e)) /\
    Forall (fun ev' => aftermath ev' = true) post /\
    (Forall (fun ev' => faulted ev' = false) post ->
     exists f, fault (ev_reply ev) = Some f /\ exn_class e = fst f).
Proof.
  intros Hh Hev. pose proof run_fine as HF.
  apply history_split in Hh.
  assert (Hin : In ev (log s))
    by (rewrite Hh; apply in_or_app; right; left; reflexivity).
  destruct r as [u | e]; simpl in HF.
  - exfalso. pose proof (proj1 (Forall_forall _ _) HF ev Hin). congruence.
  - destruct HF as (Hst & Hsu & (f & Hlf & Hcls)).
    exists e. split; [reflexivity | split; [| split]].
    + intros f' Hf'. eapply Hsu; eauto. apply harmless_false in Hev. tauto.
    + pose proof (stopped_split _ _ _ _ Hst Hh Hev) as Ha.
      apply Forall_rev in Ha. rewrite rev_involutive in Ha. exact Ha.
    + intro Hpost. exists f. split; [| exact Hcls].
      rewrite <- Hlf. symmetry. eapply last_fault_split; eauto.
      apply Forall_rev. exact Hpost.
Qed.
End RunFacts.

(** ** What a passing run must have logged *)

Lemma asserts_visible_inv line sel timeout ev :
  asserts_visible line sel timeout ev = true ->
  exists l,
    ev_line ev = line /\ ev_call ev = ExpectToBeVisible l timeout /\
    selector l = sel /\ which l = First /\ fault (ev_reply ev) = None.
Proof.
  unfold asserts_visible, faulted. destruct (ev_call ev); try discriminate.
  intro H. repeat (apply andb_true_iff in H; destruct H as [H ?]).
  apply Nat.eqb_eq in H. apply String.eqb_eq in H3. apply N.eqb_eq in H1.
  exists elem. subst. repeat split.
  - destruct (which elem); try discriminate; reflexivity.
  - destruct (fault (ev_reply ev)); [discriminate | reflexivity].
Qed.

Lemma fills_inv line value ev :
  fills line value ev = true ->
  exists l,
    ev_line ev = line /\ ev_call ev = Fill l value /\
    fault (ev_reply ev) = None.
Proof.
  unfold fills, faulted. destruct (ev_call ev); try discriminate.
  intro H. repeat (apply andb_true_iff in H; destruct H as [H ?]).
  apply Nat.eqb_eq in H. apply String.eqb_eq in H1.
  exists elem. subst. repeat split.
  destruct (fault (ev_reply ev)); [discriminate | reflexivity].
Qed.

(** Looks for the call that logs the event. *)
Ltac reach_here :=
  lazymatch goal with
  | |- Reach _ (await_ _ _) =>
      apply Reach_await_;
      let r := fresh "r" in let Hr := fresh "Hr" in
      intros r Hr; unfold asserts_visible, fills, faulted; simpl; rewrite Hr;
      reflexivity
  | |- Reach _ (try_except _ _ _) =>
      apply Reach_try_except; [reach_here | intro; repeat noreturn_step]
  end.

Ltac reach_step :=
  lazymatch goal with
  | |- Reach _ (bind _ _) =>
      first
        [ apply Reach_here; [solve [reach_here] | intro; solve [repeat rel_step]]
        | apply Reach_later; intro; reach_step ]
  end.

Ltac reach_walk := unfold_calls; cbv zeta; reach_step.

Lemma run_test_reach P steps fin :
  (forall c p, Reach P (steps c p)) -> Reach P (run_test steps fin).
Proof.
  intro H. unfold run_test.
  do 3 (apply Reach_later; intro).
  apply Reach_try_finally.
  - apply Reach_later. intro. apply H.
  - unfold finalizer. rel_walk.
Qed.

Lemma passed_reach P sc w :
  (forall c p, Reach P (steps sc c p)) -> passed sc w = true ->
  exists ev, In ev (history (snd (run sc w))) /\ P ev = true.
Proof.
  intros H Hp. pose proof (run_test_reach P _ (finally_line sc) H w initial_state) as Hr.
  unfold passed, run in *.
  destruct (fst (run_test (steps sc) (finally_line sc) w initial_state));
    [| discriminate].
  destruct Hr as (ev & Hin & HP). exists ev. split; [apply in_history, Hin | exact HP].
Qed.

(** ** Runs that pass *)

(** A run in which every error raised is one the script drops passes. *)
Lemma run_passes_when_dropped sc w :
  In sc suite ->
  (forall ev, In ev (history (snd (run sc w))) ->
              faulted ev = true -> guarded ev = true) ->
  passed sc w = true.
Proof.
  intros Hsc H. pose proof (suite_wellformed sc Hsc) as wf.
  unfold passed, run in *.
  rewrite (run_returns_when_calm _ _ wf w); [reflexivity |].
  intros ev Hin. unfold harmless.
  destruct (faulted ev) eqn:Ef; [| reflexivity].
  simpl. apply H; [apply in_history, Hin | exact Ef].
Qed.

(** ** What the scenarios count and assert *)

(** Takes the scripts of the suite one by one. *)
Ltac each_script H :=
  unfold suite in H; simpl in H;
  destruct H as [<- | [<- | [<- | [<- | [<- | [<- | [<- | [<- | [<- | []]]]]]]]]];
  cbn [steps finally_line TC001 TC004 TC005 TC010 TC011 TC012 TC015 TC016 TC017].

Ltac open_script :=
  cbv beta delta
    [run_test setup finalizer
     TC001_steps TC004_steps TC005_steps TC010_steps TC011_steps TC012_steps
     TC015_steps TC016_steps TC017_steps
     TC001_finally TC004_finally TC005_finally TC010_finally TC011_finally
     TC012_finally TC015_finally TC016_finally TC017_finally].

(** The only count queries of the suite are the two of TC015. *)
Lemma run_counts sc w :
  In sc suite -> all_calls (count_ok (name sc)) (log (snd (run sc w))).
Proof.
  intro Hsc.
  assert (HR : Rel (keeps (all_calls (count_ok (name sc))))
                 (run_test (steps sc) (finally_line sc))).
  { each_script Hsc;
      cbn [name TC001 TC004 TC005 TC010 TC011 TC012 TC015 TC016 TC017];
      open_script; rel_walk. }
  apply HR. constructor.
Qed.

Lemma Faithful_ret {A} (a : A) : Faithful (ret a).
Proof. intros w s H. exact H. Qed.

Lemma Faithful_raise {A} c msg : Faithful (@raise_ A c msg).
Proof. intros w s H. exact H. Qed.

Lemma Faithful_print msg : Faithful (print msg).
Proof. intros w s H. exact H. Qed.

Lemma Faithful_get {A} (f : state -> A) : Faithful (get f).
Proof. intros w s H. exact H. Qed.

Lemma Faithful_set_pw v : Faithful (set_pw v).
Proof. intros w s H. exact H. Qed.

Lemma Faithful_set_browser v : Faithful (set_browser v).
Proof. intros w s H. exact H. Qed.

Lemma Faithful_set_context v : Faithful (set_context v).
Proof. intros w s H. exact H. Qed.

Lemma Faithful_bind {A B} (m : M A) (k : A -> M B) :
  Faithful m -> (forall a, Faithful (k a)) -> Faithful (bind m k).
Proof.
  intros Hm Hk w s H. rewrite run_bind. specialize (Hm w s H).
  destruct (m w s) as [[a | e] s1]; simpl in *; [apply Hk, Hm | exact Hm].
Qed.

Lemma Faithful_perform l c : Faithful (perform l c).
Proof.
  intros w s H. rewrite run_perform.
  destruct (fault (w (length (log s)) c)) as [[cls msg] |]; simpl; auto.
Qed.

Lemma Faithful_await_ l c : Faithful (await_ l c).
Proof. apply Faithful_bind; [apply Faithful_perform | intro; apply Faithful_ret]. Qed.

Lemma Faithful_await_int l c : Faithful (await_int l c).
Proof. apply Faithful_bind; [apply Faithful_perform | intro; apply Faithful_ret]. Qed.

Lemma Faithful_await_str l c : Faithful (await_str l c).
Proof. apply Faithful_bind; [apply Faithful_perform | intro; apply Faithful_ret]. Qed.

Lemma Faithful_try_except {A} (m : M A) catches handler :
  Faithful m -> (forall e, Faithful (handler e)) ->
  Faithful (try_except m catches handler).
Proof.
  intros Hm Hh w s H. unfold try_except. specialize (Hm w s H).
  destruct (m w s) as [[a | e] s1]; simpl in *; [exact Hm |].
  destruct (catches (exn_class e)); [| exact Hm].
  specialize (Hh e w s1 Hm).
  destruct (handler e w s1) as [[a | e'] s2]; exact Hh.
Qed.

Lemma Faithful_try_finally {A} (m : M A) fin :
  Faithful m -> Faithful fin -> Faithful (try_finally m fin).
Proof.
  intros Hm Hf w s H. rewrite try_finally_state. apply Hf, Hm, H.
Qed.

Lemma Faithful_for_each {A} (xs : list A) body :
  (forall x, Faithful (body x)) -> Faithful (for_each xs body).
Proof.
  intro Hb. induction xs as [| x xs IH]; simpl.
  - apply Faithful_ret.
  - apply Faithful_bind; [apply Hb | intro; exact IH].
Qed.

Lemma Faithful_if {A} (b : bool) (m1 m2 : M A) :
  Faithful m1 -> Faithful m2 -> Faithful (if b then m1 else m2).
Proof. destruct b; auto. Qed.

Ltac faithful_step :=
  lazymatch goal with
  | |- Faithful (ret _) => apply Faithful_ret
  | |- Faithful (raise_ _ _) => apply Faithful_raise
  | |- Faithful (print _) => apply Faithful_print
  | |- Faithful (get _) => apply Faithful_get
  | |- Faithful (set_pw _) => apply Faithful_set_pw
  | |- Faithful (set_browser _) => apply Faithful_set_browser
  | |- Faithful (set_context _) => apply Faithful_set_context
  | |- Faithful (await_ _ _) => apply Faithful_await_
  | |- Faithful (await_int _ _) => apply Faithful_await_int
  | |- Faithful (await_str _ _) => apply Faithful_await_str
  | |- Faithful (perform _ _) => apply Faithful_perform
  | |- Faithful (bind _ _) => apply Faithful_bind; [| intro]
  | |- Faithful (try_except _ _ _) => apply Faithful_try_except; [| intro]
  | |- Faithful (try_finally _ _) => apply Faithful_try_finally
  | |- Faithful (for_each _ _) => apply Faithful_for_each; intro
  | |- Faithful (if _ then _ else _) => apply Faithful_if
  | |- Faithful (match ?o with Some _ => _ | None => _ end) => destruct o
  end.

Lemma answered_in w l ev :
  answered w l -> In ev l -> exists n, ev_reply ev = w n (ev_call ev).
Proof.
  induction l as [| x l IH]; simpl; [contradiction |].
  intros [Hx Hl] [<- | Hin]; [eexists; exact Hx | apply IH; assumption].
Qed.

(** Every reply in the history of a run is an answer of the world. *)
Lemma run_answered sc w ev :
  In sc suite -> In ev (history (snd (run sc w))) ->
  exists n, ev_reply ev = w n (ev_call ev).
Proof.
  intros Hsc Hin.
  assert (HF : Faithful (run_test (steps sc) (finally_line sc))).
  { each_script Hsc; open_script; unfold_calls; cbv zeta; repeat faithful_step. }
  apply (answered_in w (log (snd (run sc w)))); [| apply in_history, Hin].
  apply HF. exact I.
Qed.

Lemma assertion_table_complete : map fst assertion_table = suite.
Proof. reflexivity. Qed.

Lemma run_asserts_only sc tbl w :
  In (sc, tbl) assertion_table ->
  all_calls (asserts_only tbl) (log (snd (run sc w))).
Proof.
  intro H.
  assert (HR : Rel (keeps (all_calls (asserts_only tbl)))
                 (run_test (steps sc) (finally_line sc))).
  { unfold assertion_table in H; simpl in H.
    destruct H as [[= <- <-] | [[= <- <-] | [[= <- <-] | [[= <- <-] | [[= <- <-]
      | [[= <- <-] | [[= <- <-] | [[= <- <-] | [[= <- <-] | []]]]]]]]]];
    cbn [steps finally_line TC001 TC004 TC005 TC010 TC011 TC012 TC015 TC016 TC017];
    open_script; rel_walk. }
  apply HR. constructor.
Qed.

(** As [reach_step], for an assertion that is followed by a [print] inside
    its [try] block. *)
Ltac reach_here_guarded :=
  lazymatch goal with
  | |- Reach _ (try_except (bind _ _) _ _) =>
      apply Reach_try_except;
      [ apply Reach_here; [reach_here | intro; repeat rel_step]
      | intro; repeat noreturn_step ]
  | |- _ => reach_here
  end.

Ltac reach_step_guarded :=
  lazymatch goal with
  | |- Reach _ (bind _ _) =>
      first
        [ apply Reach_here;
          [solve [reach_here_guarded] | intro; solve [repeat rel_step]]
        | apply Reach_later; intro; reach_step_guarded ]
  end.

Ltac reach_assertion :=
  lazymatch goal with
  | |- has _ _ =>
      apply passed_reach; [| assumption];
      let c := fresh "c" in let p := fresh "p" in
      intros c p;
      cbn [steps TC001 TC004 TC005 TC010 TC011 TC012 TC015 TC016 TC017];
      unfold assertion_held; cbn [at_line shows within];
      open_script; unfold_calls; cbv zeta; reach_step_guarded
  end.

Ltac each_assertion H :=
  simpl in H;
  repeat (destruct H as [<- | H]; [reach_assertion |]); destruct H.

Lemma run_held sc tbl w :
  In (sc, tbl) assertion_table -> passed sc w = true ->
  forall a, In a tbl -> has (assertion_held a) (history (snd (run sc w))).
Proof.
  intros H Hp a Ha.
  unfold assertion_table in H; simpl in H.
  destruct H as [[= <- <-] | [[= <- <-] | [[= <- <-] | [[= <- <-] | [[= <- <-]
    | [[= <- <-] | [[= <- <-] | [[= <- <-] | [[= <- <-] | []]]]]]]]]];
    each_assertion Ha.
Qed.

(** In a run, a count query after the failing call is that of TC015's
    handler. *)
Lemma aftermath_in_run sc w post :
  In sc suite ->
  (forall ev, In ev post -> In ev (history (snd (run sc w)))) ->
  Forall (fun ev => aftermath ev = true) post ->
  Forall (aftermath_of sc) post.
Proof.
  intros Hsc Hin Ha. apply Forall_forall. intros ev Hev.
  pose proof (proj1 (Forall_forall _ _) Ha ev Hev) as H. cbv beta in H.
  unfold aftermath in H. apply orb_true_iff in H. destruct H as [H | H].
  - left. exact H.
  - right. split; [| exact H].
    pose proof (proj1 (Forall_forall _ _) (run_counts sc w Hsc) ev
                  (proj1 (in_history _ _) (Hin ev Hev))) as Hc.
    cbv beta in Hc. unfold count_ok in Hc.
    destruct (ev_call ev); try discriminate.
    apply andb_true_iff in Hc. destruct Hc as [Hc _].
    apply String.eqb_eq, Hc.
Qed.

(** Every assertion is given a timeout of at most 30 s. *)
Lemma assertion_timeouts sc tbl a :
  In (sc, tbl) assertion_table -> In a tbl -> (within a <= 30000)%N.
Proof.
  intros H Ha.
  assert (Hall : forallb (fun p => forallb (fun a => N.leb (within a) 30000) (snd p))
                   assertion_table = true) by (vm_compute; reflexivity).
  pose proof (proj1 (forallb_forall _ _) Hall _ H) as Ht. cbv beta in Ht.
  apply N.leb_le. exact (proj1 (forallb_forall _ _) Ht a Ha).
Qed.

(** Whatever a run asserts is in the table of its scenario. *)
Lemma asserted_in_table sc tbl w ev l t :
  In (sc, tbl) assertion_table ->
  In ev (history (snd (run sc w))) ->
  ev_call ev = ExpectToBeVisible l t ->
  which l = First /\ In (Assertion (ev_line ev) (selector l) t) tbl.
Proof.
  intros H Hin Hc. apply in_history in Hin.
  pose proof (proj1 (Forall_forall _ _) (run_asserts_only sc tbl w H) ev Hin) as Ht.
  cbv beta in Ht. rewrite Hc in Ht. simpl in Ht.
  apply existsb_exists in Ht. destruct Ht as ([al ash aw] & Hin' & Ht).
  simpl in Ht. repeat (apply andb_true_iff in Ht; destruct Ht as [Ht ?]).
  apply Nat.eqb_eq in Ht. apply String.eqb_eq in H2. apply N.eqb_eq in H1.
  subst. split; [destruct (which l); try discriminate; reflexivity | exact Hin'].
Qed.

Lemma in_assertion_table sc tbl : In (sc, tbl) assertion_table -> In sc suite.
Proof.
  intro H. rewrite <- assertion_table_complete.
  apply (in_map fst _ _ H).
Qed.

(** * The claims *)

(** ** C1 *)

(** C1, counterexample: when [context.close()] raises in the [finally]
    block of TC001, [browser.close()] and [pw.stop()] are never called. *)
Lemma C1_counterexample : ~ releases_every_handle TC001 context_close_fails.
Proof.
  intro H. destruct (H Browser) as [H1 _]. vm_compute in H1. discriminate.
Qed.

(** C1, as amended: on every run of every script, whatever ends the steps,
    the context is released exactly once if it was opened; the browser and
    the Playwright driver are released exactly once unless an earlier
    release call raised, in which case they are not released at all; and
    when no release call raises, every opened handle is released exactly
    once. *)
Theorem C1_release_discipline sc w :
  In sc suite ->
  let h := history (snd (run sc w)) in
  discipline h /\
  (release_raised BrowserContext h ->
   released Browser h = [] /\ released Driver h = []) /\
  (release_raised Browser h -> released Driver h = []) /\
  ((forall ev, In ev h -> is_release (ev_call ev) = true -> faulted ev = false) ->
   releases_every_handle sc w).
Proof.
  intros Hsc h. pose proof (suite_wellformed sc Hsc) as wf.
  assert (Hd : discipline h) by (apply run_test_discipline, wf).
  split; [exact Hd |].
  destruct Hd as (Hc & Hb & Hdr).
  split; [| split].
  - intro Hr. split.
    + destruct Hb as [[_ Hn] | [Hb _]]; [contradiction | exact Hb].
    + destruct Hdr as [(_ & Hn & _) | [Hdr _]]; [contradiction | exact Hdr].
  - intro Hr. destruct Hdr as [(_ & _ & Hn) | [Hdr _]]; [contradiction | exact Hdr].
  - intros Hok k.
    assert (Hno : forall k', ~ release_raised k' h).
    { intros k' (ev & hd & Hin & Hrel & Hf).
      rewrite (Hok ev Hin) in Hf; [discriminate |].
      unfold releases in Hrel. destruct (ev_call ev); try discriminate; reflexivity. }
    destruct k.
    + destruct Hdr as [[Hdr _] | [_ [Hr | Hr]]]; [exact Hdr | |];
        exfalso; eapply Hno; eauto.
    + destruct Hb as [[Hb _] | [_ Hr]]; [exact Hb |]. exfalso; eapply Hno; eauto.
    + exact Hc.
Qed.

Lemma C1_release_discipline_witness :
  In TC001 suite /\
  releases_every_handle TC001 calm /\
  released BrowserContext (history (snd (run TC001 context_close_fails))) = [0] /\
  released Browser (history (snd (run TC001 context_close_fails))) = [] /\
  released Driver (history (snd (run TC001 context_close_fails))) = [].
Proof.
  split; [simpl; tauto |]. split; [| split; [vm_compute; reflexivity |]].
  - destruct (C1_release_discipline TC001 calm) as (_ & _ & _ & Hall);
      [simpl; tauto |].
    apply Hall. intros ev Hin _.
    assert (Hb : forallb (fun ev => negb (faulted ev))
                   (history (snd (run TC001 calm))) = true)
      by (vm_compute; reflexivity).
    apply negb_true_iff. exact (proj1 (forallb_forall _ _) Hb ev Hin).
  - destruct (C1_release_discipline TC001 context_close_fails)
      as (_ & Hraised & _ & _); [simpl; tauto |].
    apply Hraised.
    exists (Ev 130 (ContextClose 0)
              (Reply (Some (OtherException,
                            "Connection closed while reading from the driver"))
                 0 EmptyString)), 0.
    split; [| split; reflexivity].
    apply nth_error_In with (n := 50). vm_compute. reflexivity.
Defined.

(** ** C2 *)

(** C2, counterexample: the timeout of the load-state wait at line 37 of
    TC001 is caught and dropped, and the run passes. *)
Lemma C2_counterexample : ~ no_fault_discarded TC001 load_state_stalls.
Proof.
  intro H.
  destruct (H (Ev 37 (WaitForLoadState 0 "domcontentloaded" 3000)
                 (Reply (Some (PlaywrightTimeoutError, "Timeout 3000ms exceeded.")) 0 EmptyString))
              (PlaywrightTimeoutError, "Timeout 3000ms exceeded."))
    as (e & He & _).
  - apply nth_error_In with (n := 6). vm_compute. reflexivity.
  - reflexivity.
  - vm_compute in He. discriminate.
Qed.

(** C2, as amended: a Playwright error of one of the two load-state waits
    of the preamble is caught and dropped, and a run whose only errors are
    of that kind passes; every other error raised by a call ends the run
    with an exception that carries it, as itself or in its context chain. *)
Theorem C2_unguarded_faults_surface sc w :
  In sc suite ->
  (forall ev f,
     In ev (history (snd (run sc w))) ->
     fault (ev_reply ev) = Some f ->
     guarded ev = false ->
     exists e, fst (run sc w) = Raised e /\ In f (exn_trail e)) /\
  ((forall ev, In ev (history (snd (run sc w))) ->
               faulted ev = true -> guarded ev = true) ->
   passed sc w = true).
Proof.
  intro Hsc. pose proof (suite_wellformed sc Hsc) as wf. split.
  - intros ev f Hin Hf Hg.
    destruct (in_split _ _ Hin) as (pre & post & Hh).
    destruct (run_stops _ _ wf w pre ev post Hh) as (e & He & Hs & _).
    + apply harmless_false. unfold faulted. rewrite Hf. auto.
    + exists e. split; [exact He | apply Hs, Hf].
  - apply run_passes_when_dropped, Hsc.
Qed.

Lemma C2_unguarded_faults_surface_witness :
  let ev :=
    Ev 141
      (ExpectToBeVisible
         (Locator 0 "text=Recording Started Successfully" First) 30000)
      (Reply (Some (AssertionError, "Locator expected to be visible")) 0 EmptyString) in
  (In TC004 suite /\
   In ev (history (snd (run TC004 never_visible))) /\
   exists e,
     fst (run TC004 never_visible) = Raised e /\
     In (AssertionError, "Locator expected to be visible") (exn_trail e)) /\
  (In TC001 suite /\
   (forall ev', In ev' (history (snd (run TC001 load_state_stalls))) ->
                faulted ev' = true -> guarded ev' = true) /\
   passed TC001 load_state_stalls = true).
Proof.
  intro ev. split.
  - assert (Hin : In ev (history (snd (run TC004 never_visible))))
      by (apply nth_error_In with (n := 49); vm_compute; reflexivity).
    split; [simpl; tauto |]. split; [exact Hin |].
    eapply (proj1 (C2_unguarded_faults_surface TC004 never_visible
                     ltac:(simpl; tauto)));
      [exact Hin | reflexivity | reflexivity].
  - assert (Hg : forall ev', In ev' (history (snd (run TC001 load_state_stalls))) ->
                             faulted ev' = true -> guarded ev' = true).
    { assert (Hb : forallb (fun ev' => negb (faulted ev') || guarded ev')
                     (history (snd (run TC001 load_state_stalls))) = true)
        by (vm_compute; reflexivity).
      intros ev' Hin Hf.
      pose proof (proj1 (forallb_forall _ _) Hb ev' Hin) as H.
      cbv beta in H. rewrite Hf in H. exact H. }
    split; [simpl; tauto |]. split; [exact Hg |].
    apply (proj2 (C2_unguarded_faults_surface TC001 load_state_stalls
                    ltac:(simpl; tauto))).
    exact Hg.
Defined.

(** ** C3 *)

(** C3: the trading-session scenario (TC005) is in the suite; its only
    assertion expects the failure message "Recording session failed to
    start" to be visible (line 152, timeout 1000 ms); and the scenario passes
    only if that assertion held. *)
Theorem C3_trading_session_passes_on_failure_message w :
  In TC005 suite /\
  (forall ev l t,
     In ev (history (snd (run TC005 w))) ->
     ev_call ev = ExpectToBeVisible l t -> selector l = FAILURE_MESSAGE) /\
  (passed TC005 w = true ->
   exists ev l,
     In ev (history (snd (run TC005 w))) /\
     ev_line ev = 152 /\ ev_call ev = ExpectToBeVisible l 1000 /\
     selector l = FAILURE_MESSAGE /\ which l = First /\
     fault (ev_reply ev) = None).
Proof.
  split; [simpl; tauto |]. split.
  - intros ev l t Hin Hc.
    assert (Hall : all_calls only_failure_message (log (snd (run TC005 w)))).
    { assert (HR : Rel (keeps (all_calls only_failure_message))
                     (run_test TC005_steps TC005_finally))
        by (unfold run_test, setup, finalizer, TC005_steps; rel_walk).
      apply HR. constructor. }
    apply in_history in Hin.
    pose proof (proj1 (Forall_forall _ _) Hall ev Hin) as Hev.
    cbv beta in Hev. rewrite Hc in Hev. apply String.eqb_eq, Hev.
  - intro Hp.
    destruct (passed_reach (asserts_visible 152 FAILURE_MESSAGE 1000) TC005 w)
      as (ev & Hin & HP); [| exact Hp |].
    + intros c p. cbn [steps TC005]. unfold TC005_steps. reach_walk.
    + destruct (asserts_visible_inv _ _ _ _ HP) as (l & H). exists ev, l. tauto.
Qed.

Lemma C3_trading_session_passes_on_failure_message_witness :
  passed TC005 calm = true /\
  exists ev l,
    In ev (history (snd (run TC005 calm))) /\
    ev_line ev = 152 /\ ev_call ev = ExpectToBeVisible l 1000 /\
    selector l = FAILURE_MESSAGE /\ which l = First /\
    fault (ev_reply ev) = None.
Proof.
  split; [reflexivity |].
  apply (proj2 (proj2 (C3_trading_session_passes_on_failure_message calm))).
  reflexivity.
Defined.

(** ** C4 *)

(** C4, counterexample: in TC004 the expected text never becomes visible
    and [context.close()] raises in the [finally] block: the run ends with
    the error of [context.close()], which is no [AssertionError]. *)
Lemma C4_counterexample :
  ~ ends_with_AssertionError TC004 never_visible_close_fails.
Proof.
  intro H. destruct H as (e & He & Hc).
  - intros tbl a _ _ n l _. eexists. reflexivity.
  - vm_compute in He. injection He as <-. discriminate Hc.
Qed.

(** C4, as amended: every scenario makes at least one visibility assertion,
    and a scenario one of whose asserted texts never becomes visible never
    passes.  When a visibility assertion runs out of its timeout
    (Playwright raises [AssertionError]), that assertion is one of the
    scenario's, with its timeout of at most 30 s; the run does not pass but
    ends with an exception that carries the assertion's error; nothing is
    awaited afterwards but the release calls of the [finally] block and, in
    TC015, the count query of the handler, so the assertion is not made
    again; and when none of those raises, the exception that ends the run
    is an [AssertionError] itself. *)
Theorem C4_assertion_timeout_fails sc tbl w :
  In (sc, tbl) assertion_table ->
  tbl <> [] /\
  (forall a, In a tbl -> never_shows w a -> passed sc w = false) /\
  (forall pre ev post l timeout msg,
     history (snd (run sc w)) = pre ++ ev :: post ->
     ev_call ev = ExpectToBeVisible l timeout ->
     fault (ev_reply ev) = Some (AssertionError, msg) ->
     In (Assertion (ev_line ev) (selector l) timeout) tbl /\
     (timeout <= 30000)%N /\
     passed sc w = false /\
     (exists e,
        fst (run sc w) = Raised e /\
        In (AssertionError, msg) (exn_trail e) /\
        (Forall (fun ev' => faulted ev' = false) post ->
         exn_class e = AssertionError)) /\
     Forall (aftermath_of sc) post).
Proof.
  intro Htbl. pose proof (in_assertion_table sc tbl Htbl) as Hsc.
  pose proof (suite_wellformed sc Hsc) as wf. split; [| split].
  - unfold assertion_table in Htbl; simpl in Htbl.
    destruct Htbl as [[= <- <-] | [[= <- <-] | [[= <- <-] | [[= <- <-]
      | [[= <- <-] | [[= <- <-] | [[= <- <-] | [[= <- <-] | [[= <- <-]
      | []]]]]]]]]]; discriminate.
  - intros a Ha Hnever. destruct (passed sc w) eqn:Hp; [exfalso | reflexivity].
    destruct (run_held sc tbl w Htbl Hp a Ha) as (ev & Hin & HP).
    destruct (asserts_visible_inv _ _ _ _ HP) as (l & _ & Hc & Hsel & _ & Hf).
    destruct (run_answered sc w ev Hsc Hin) as (n & Hn).
    destruct (Hnever n l Hsel) as (msg & Hmsg).
    rewrite Hn, Hc, Hmsg in Hf. discriminate.
  - intros pre ev post l timeout msg Hh Hc Hf.
    assert (Hin : In ev (history (snd (run sc w))))
      by (rewrite Hh; apply in_or_app; right; left; reflexivity).
    destruct (asserted_in_table sc tbl w ev l timeout Htbl Hin Hc) as [_ Ha].
    split; [exact Ha |].
    split; [exact (assertion_timeouts sc tbl _ Htbl Ha) |].
    destruct (run_stops _ _ wf w pre ev post Hh) as (e & He & Hs & Haft & Hl).
    + apply harmless_false. unfold faulted, guarded. rewrite Hf, Hc. auto.
    + unfold passed, run in *. rewrite He.
      split; [reflexivity | split].
      * exists e. split; [reflexivity | split; [apply Hs, Hf |]].
        intro Hpost. destruct (Hl Hpost) as (f & Hf' & Hcls).
        rewrite Hf in Hf'. injection Hf' as <-. exact Hcls.
      * apply (aftermath_in_run sc w post Hsc); [| exact Haft].
        intros ev' Hev'. unfold run. rewrite Hh.
        apply in_or_app. right. right. exact Hev'.
Qed.

Lemma C4_assertion_timeout_fails_witness :
  let h := history (snd (run TC004 never_visible)) in
  let a := Assertion 141 "text=Recording Started Successfully" 30000 in
  let ev :=
    Ev 141
      (ExpectToBeVisible
         (Locator 0 "text=Recording Started Successfully" First) 30000)
      (Reply (Some (AssertionError, "Locator expected to be visible")) 0 EmptyString) in
  In (TC004, TC004_assertions) assertion_table /\
  In a TC004_assertions /\
  never_shows never_visible a /\
  h = firstn 49 h ++ ev :: skipn 50 h /\
  passed TC004 never_visible = false /\
  (exists e,
     fst (run TC004 never_visible) = Raised e /\
     In (AssertionError, "Locator expected to be visible") (exn_trail e) /\
     (Forall (fun ev' => faulted ev' = false) (skipn 50 h) ->
      exn_class e = AssertionError)) /\
  Forall (aftermath_of TC004) (skipn 50 h).
Proof.
  intros h a ev.
  assert (Htbl : In (TC004, TC004_assertions) assertion_table)
    by (right; left; reflexivity).
  assert (Ha : In a TC004_assertions) by (left; reflexivity).
  assert (Hn : never_shows never_visible a)
    by (intros n l _; eexists; reflexivity).
  assert (Hh : h = firstn 49 h ++ ev :: skipn 50 h) by (vm_compute; reflexivity).
  destruct (C4_assertion_timeout_fails TC004 TC004_assertions never_visible Htbl)
    as (_ & Hnever & Hfails).
  split; [exact Htbl |]. split; [exact Ha |]. split; [exact Hn |].
  split; [exact Hh |]. split; [exact (Hnever a Ha Hn) |].
  destruct (Hfails (firstn 49 h) ev (skipn 50 h) _ _ _ Hh eq_refl eq_refl)
    as (_ & _ & _ & He & Haft).
  split; [exact He | exact Haft].
Defined.

(** ** C5 *)

(** C5, counterexample: in TC001 the load-state wait at line 37 times out,
    the error is dropped, every later step runs and the run passes. *)
Lemma C5_counterexample : ~ stops_at_first_failure TC001 load_state_stalls.
Proof.
  intro H.
  destruct (H (firstn 6 (history (snd (run TC001 load_state_stalls))))
              (Ev 37 (WaitForLoadState 0 "domcontentloaded" 3000)
                 (Reply (Some (PlaywrightTimeoutError, "Timeout 3000ms exceeded.")) 0 EmptyString))
              (skipn 7 (history (snd (run TC001 load_state_stalls)))))
    as [Hp _].
  - vm_compute. reflexivity.
  - reflexivity.
  - vm_compute in Hp. discriminate.
Qed.

(** C5, as amended: the calls of a run happen in the order of their source
    lines; and a call that raises, unless it is a load-state wait whose
    Playwright error is dropped, ends the scenario as failed: after it only
    the release calls of the [finally] block and, in TC015, the count query
    of the assertion handler (line 136) are made; a run in which only such
    load-state waits raise passes. *)
Theorem C5_in_order_until_first_failure sc w :
  In sc suite ->
  (forall pre ev mid ev' post,
     history (snd (run sc w)) = pre ++ ev :: mid ++ ev' :: post ->
     ev_line ev <= ev_line ev') /\
  (forall pre ev post,
     history (snd (run sc w)) = pre ++ ev :: post ->
     faulted ev = true -> guarded ev = false ->
     passed sc w = false /\ Forall (aftermath_of sc) post) /\
  ((forall ev, In ev (history (snd (run sc w))) ->
               faulted ev = true -> guarded ev = true) ->
   passed sc w = true).
Proof.
  intro Hsc. pose proof (suite_wellformed sc Hsc) as wf. split; [| split].
  - intros pre ev mid ev' post Hh. apply history_split2 in Hh.
    pose proof (run_ordered _ _ wf w) as Ho. unfold run in Hh.
    rewrite Hh in Ho. eapply ordered_split, Ho.
  - intros pre ev post Hh Hf Hg.
    destruct (run_stops _ _ wf w pre ev post Hh) as (e & He & _ & Ha & _).
    + apply harmless_false. auto.
    + split; [unfold passed, run; rewrite He; reflexivity |].
      apply (aftermath_in_run sc w post Hsc); [| exact Ha].
      intros ev' Hev'. rewrite Hh.
      apply in_or_app. right. right. exact Hev'.
  - apply run_passes_when_dropped, Hsc.
Qed.

Lemma C5_in_order_until_first_failure_witness :
  let h := history (snd (run TC001 click_times_out)) in
  let ev :=
    Ev 53
      (Click
         (Locator 0 "xpath=html/body/div[2]/main/div/div[2]/div[2]/a/button" (Nth 0))
         5000)
      (Reply (Some (PlaywrightTimeoutError, "Timeout 5000ms exceeded.")) 0 EmptyString) in
  In TC001 suite /\
  h = firstn 11 h ++ ev :: skipn 12 h /\
  passed TC001 click_times_out = false /\
  Forall (aftermath_of TC001) (skipn 12 h).
Proof.
  intros h ev.
  assert (Hh : h = firstn 11 h ++ ev :: skipn 12 h) by (vm_compute; reflexivity).
  split; [simpl; tauto |]. split; [exact Hh |].
  eapply (proj1 (proj2 (C5_in_order_until_first_failure TC001 click_times_out
                          ltac:(simpl; tauto))));
    [exact Hh | reflexivity | reflexivity].
Defined.

(** ** C6 *)

(** C6, counterexample: the first click of TC001 looks its button up by an
    absolute XPath. *)
Lemma C6_counterexample : ~ structural_only_as_fallback TC001 calm.
Proof.
  intro H.
  specialize (H (Ev 53
                   (Click
                      (Locator 0 "xpath=html/body/div[2]/main/div/div[2]/div[2]/a/button" (Nth 0))
                      5000)
                   (Reply None 0 EmptyString))
                (Locator 0 "xpath=html/body/div[2]/main/div/div[2]/div[2]/a/button" (Nth 0))).
  assert (Hs : is_structural "xpath=html/body/div[2]/main/div/div[2]/div[2]/a/button" = false).
  { apply H; [| reflexivity].
    apply nth_error_In with (n := 11). vm_compute. reflexivity. }
  vm_compute in Hs. discriminate.
Qed.

(** C6, as amended: every lookup uses a single selector, with no fallback;
    every click and fill looks its element up by an absolute XPath from the
    document root, and every visibility assertion by the visible text. *)
Theorem C6_lookup_strategies sc w ev l :
  In sc suite ->
  In ev (history (snd (run sc w))) ->
  lookup_of (ev_call ev) = Some l ->
  (is_action (ev_call ev) = true ->
   is_structural (selector l) = true /\ is_absolute_xpath (selector l) = true) /\
  (forall timeout, ev_call ev = ExpectToBeVisible l timeout ->
                   is_visible_text (selector l) = true).
Proof.
  intros Hsc Hin Hl. pose proof (suite_wellformed sc Hsc) as wf.
  apply in_history in Hin.
  pose proof (proj1 (Forall_forall _ _) (run_calls _ _ wf w) ev Hin) as Hok.
  cbv beta in Hok. unfold call_ok in Hok.
  destruct (ev_call ev); try discriminate; simpl in *; injection Hl as <-.
  - split; [| discriminate]. intros _.
    destruct (which elem) as [| [| n] |]; try discriminate.
    apply andb_true_iff in Hok. exact Hok.
  - split; [| discriminate]. intros _.
    destruct (which elem) as [| [| n] |]; try discriminate.
    apply andb_true_iff in Hok. exact Hok.
  - split; discriminate.
  - split; [discriminate |]. intros t _.
    destruct (which elem); try discriminate. exact Hok.
Qed.

Lemma C6_lookup_strategies_witness :
  let l := Locator 0 "xpath=html/body/div[2]/main/div/div[2]/div[2]/a/button" (Nth 0) in
  let ev := Ev 53 (Click l 5000) (Reply None 0 EmptyString) in
  In TC001 suite /\
  In ev (history (snd (run TC001 calm))) /\
  (is_action (ev_call ev) = true ->
   is_structural (selector l) = true /\ is_absolute_xpath (selector l) = true) /\
  (forall timeout, ev_call ev = ExpectToBeVisible l timeout ->
                   is_visible_text (selector l) = true).
Proof.
  intros l ev.
  assert (Hin : In ev (history (snd (run TC001 calm))))
    by (apply nth_error_In with (n := 11); vm_compute; reflexivity).
  split; [simpl; tauto |]. split; [exact Hin |].
  apply (C6_lookup_strategies TC001 calm ev l);
    [simpl; tauto | exact Hin | reflexivity].
Defined.

(** ** C7 *)

(** C7: the sign-up-then-sign-in scenario (TC001) signs in with the account's
    email ([mrwaywithwords@gmail.com] in the script) and then asserts that
    the page shows that email and "Sign Out"; it passes only if both
    assertions held, each within its timeout of 30000 ms. *)
Theorem C7_signup_passes_only_with_email_and_sign_out w :
  passed TC001 w = true ->
  (exists ev l,
     In ev (history (snd (run TC001 w))) /\
     ev_line ev = 100 /\ ev_call ev = Fill l ACCOUNT_EMAIL /\
     fault (ev_reply ev) = None) /\
  (exists ev l,
     In ev (history (snd (run TC001 w))) /\
     ev_line ev = 117 /\ ev_call ev = ExpectToBeVisible l 30000 /\
     selector l = String.append "text=" ACCOUNT_EMAIL /\ which l = First /\
     fault (ev_reply ev) = None) /\
  (exists ev l,
     In ev (history (snd (run TC001 w))) /\
     ev_line ev = 118 /\ ev_call ev = ExpectToBeVisible l 30000 /\
     selector l = "text=Sign Out" /\ which l = First /\
     fault (ev_reply ev) = None).
Proof.
  intro Hp. split; [| split].
  - destruct (passed_reach (fills 100 ACCOUNT_EMAIL) TC001 w)
      as (ev & Hin & HP); [| exact Hp |].
    + intros c p. cbn [steps TC001]. unfold TC001_steps. reach_walk.
    + destruct (fills_inv _ _ _ HP) as (l & H). exists ev, l. tauto.
  - destruct (passed_reach
                (asserts_visible 117 (String.append "text=" ACCOUNT_EMAIL) 30000)
                TC001 w) as (ev & Hin & HP); [| exact Hp |].
    + intros c p. cbn [steps TC001]. unfold TC001_steps. reach_walk.
    + destruct (asserts_visible_inv _ _ _ _ HP) as (l & H). exists ev, l. tauto.
  - destruct (passed_reach (asserts_visible 118 "text=Sign Out" 30000) TC001 w)
      as (ev & Hin & HP); [| exact Hp |].
    + intros c p. cbn [steps TC001]. unfold TC001_steps. reach_walk.
    + destruct (asserts_visible_inv _ _ _ _ HP) as (l & H). exists ev, l. tauto.
Qed.

Lemma C7_signup_passes_only_with_email_and_sign_out_witness :
  passed TC001 calm = true /\
  (exists ev l,
     In ev (history (snd (run TC001 calm))) /\
     ev_line ev = 117 /\ ev_call ev = ExpectToBeVisible l 30000 /\
     selector l = String.append "text=" ACCOUNT_EMAIL /\ which l = First /\
     fault (ev_reply ev) = None) /\
  (exists ev l,
     In ev (history (snd (run TC001 calm))) /\
     ev_line ev = 118 /\ ev_call ev = ExpectToBeVisible l 30000 /\
     selector l = "text=Sign Out" /\ which l = First /\
     fault (ev_reply ev) = None).
Proof.
  split; [reflexivity |].
  apply (proj2 (C7_signup_passes_only_with_email_and_sign_out calm eq_refl)).
Defined.

(** ** C8 *)

(** C8: in every run of every script, the call made just before a click or
    a fill (the only element-targeted actions: no script selects an option)
    is the [page.wait_for_timeout(3000)] of the same source line, and it
    returned. *)
Theorem C8_micro_wait_before_every_action sc w pre ev post :
  In sc suite ->
  history (snd (run sc w)) = pre ++ ev :: post ->
  is_action (ev_call ev) = true ->
  exists pre' wt page,
    pre = pre' ++ [wt] /\
    ev_call wt = WaitForTimeout page 3000 /\
    ev_line wt = ev_line ev /\
    fault (ev_reply wt) = None.
Proof.
  intros Hsc Hh Ha. pose proof (suite_wellformed sc Hsc) as wf.
  apply history_split in Hh.
  destruct (waits_split _ _ _ _ (run_waits _ _ wf w) Hh Ha) as (wt & c' & Hc & Hw).
  destruct (micro_wait_inv _ _ Hw) as (page & H1 & H2 & H3).
  exists (rev c'), wt, page. repeat split; auto.
  rewrite <- (rev_involutive pre), Hc. reflexivity.
Qed.

Lemma C8_micro_wait_before_every_action_witness :
  let h := history (snd (run TC001 calm)) in
  let ev :=
    Ev 53
      (Click
         (Locator 0 "xpath=html/body/div[2]/main/div/div[2]/div[2]/a/button" (Nth 0))
         5000)
      (Reply None 0 EmptyString) in
  In TC001 suite /\
  h = firstn 11 h ++ ev :: skipn 12 h /\
  exists pre' wt page,
    firstn 11 h = pre' ++ [wt] /\
    ev_call wt = WaitForTimeout page 3000 /\
    ev_line wt = ev_line ev /\
    fault (ev_reply wt) = None.
Proof.
  intros h ev.
  assert (Hh : h = firstn 11 h ++ ev :: skipn 12 h) by (vm_compute; reflexivity).
  split; [simpl; tauto |]. split; [exact Hh |].
  eapply (C8_micro_wait_before_every_action TC001 calm);
    [simpl; tauto | exact Hh | reflexivity].
Defined.

(** ** C9 *)

(** C9, counterexample: the row-level-security check of TC015 counts every
    [h1] element ([frame.locator('h1').count()], line 89). *)
Lemma C9_counterexample : ~ first_match_everywhere TC015 calm.
Proof.
  intro H.
  assert (Hin : In (Ev 89 (Count (Locator 0 "h1" AllMatches)) (Reply None 0 EmptyString))
                   (history (snd (run TC015 calm))))
    by (apply nth_error_In with (n := 25); vm_compute; reflexivity).
  destruct (H _ (Locator 0 "h1" AllMatches) Hin eq_refl) as [Hw | Hw];
    discriminate Hw.
Qed.

(** C9, as amended: every click and fill acts on the first match of its
    locator ([.nth(0)]) and every visibility assertion on the first match
    ([.first]); the only locators that are not narrowed to the first match
    are those of the two count queries of TC015 ([frame.locator('h1')] at
    line 89 and the locator of 'text=Invalid login credentials' at line
    136), which look at all the matches. *)
Theorem C9_first_match_except_counts sc w ev l :
  In sc suite ->
  In ev (history (snd (run sc w))) ->
  lookup_of (ev_call ev) = Some l ->
  (is_action (ev_call ev) = true -> which l = Nth 0) /\
  (forall timeout, ev_call ev = ExpectToBeVisible l timeout -> which l = First) /\
  (is_count (ev_call ev) = true ->
   which l = AllMatches /\ name sc = "TC015" /\
   ((ev_line ev = 89 /\ selector l = "h1") \/
    (ev_line ev = 136 /\ selector l = "text=Invalid login credentials"))) /\
  (which l = First \/ which l = Nth 0 \/ is_count (ev_call ev) = true).
Proof.
  intros Hsc Hin Hl. pose proof (suite_wellformed sc Hsc) as wf.
  apply in_history in Hin.
  pose proof (proj1 (Forall_forall _ _) (run_calls _ _ wf w) ev Hin) as Hok.
  pose proof (proj1 (Forall_forall _ _) (run_counts sc w Hsc) ev Hin) as Hct.
  cbv beta in Hok, Hct. unfold call_ok in Hok. unfold count_ok in Hct.
  destruct (ev_call ev) eqn:Hc; try discriminate; simpl in *; injection Hl as <-.
  - (* click *)
    destruct (which elem) as [| [| n] |]; try discriminate.
    repeat split; try discriminate; auto.
  - (* fill *)
    destruct (which elem) as [| [| n] |]; try discriminate.
    repeat split; try discriminate; auto.
  - (* count *)
    destruct (which elem) as [| n |]; try discriminate.
    apply andb_true_iff in Hct. destruct Hct as [Hn Hk].
    apply String.eqb_eq in Hn.
    split; [discriminate |]. split; [discriminate |].
    split; [| right; right; reflexivity].
    intros _. split; [reflexivity |]. split; [exact Hn |].
    apply orb_true_iff in Hk.
    destruct Hk as [Hk | Hk]; apply andb_true_iff in Hk; destruct Hk as [H1 H2];
      apply Nat.eqb_eq in H1; apply String.eqb_eq in H2; [left | right]; auto.
  - (* visibility assertion *)
    destruct (which elem) as [| n |]; try discriminate.
    repeat split; try discriminate; auto.
Qed.

Lemma C9_first_match_except_counts_witness :
  let click := Locator 0 "xpath=html/body/div[2]/main/div/div[2]/div[2]/a/button" (Nth 0) in
  let shown := Locator 0 "text=mrwaywithwords@gmail.com" First in
  let counted := Locator 0 "h1" AllMatches in
  In (Ev 53 (Click click 5000) (Reply None 0 EmptyString))
     (history (snd (run TC001 calm))) /\
  which click = Nth 0 /\
  In (Ev 117 (ExpectToBeVisible shown 30000) (Reply None 0 EmptyString))
     (history (snd (run TC001 calm))) /\
  which shown = First /\
  In (Ev 89 (Count counted) (Reply None 0 EmptyString))
     (history (snd (run TC015 calm))) /\
  (which counted = AllMatches /\ name TC015 = "TC015" /\
   ((89 = 89 /\ selector counted = "h1") \/
    (89 = 136 /\ selector counted = "text=Invalid login credentials"))).
Proof.
  intros click shown counted.
  assert (H1 : In (Ev 53 (Click click 5000) (Reply None 0 EmptyString))
                 (history (snd (run TC001 calm))))
    by (apply nth_error_In with (n := 11); vm_compute; reflexivity).
  assert (H2 : In (Ev 117 (ExpectToBeVisible shown 30000) (Reply None 0 EmptyString))
                 (history (snd (run TC001 calm))))
    by (apply nth_error_In with (n := 40); vm_compute; reflexivity).
  assert (H3 : In (Ev 89 (Count counted) (Reply None 0 EmptyString))
                 (history (snd (run TC015 calm))))
    by (apply nth_error_In with (n := 25); vm_compute; reflexivity).
  destruct (C9_first_match_except_counts TC001 calm
              (Ev 53 (Click click 5000) (Reply None 0 EmptyString)) click)
    as (Hclick & _); [simpl; tauto | exact H1 | reflexivity |].
  destruct (C9_first_match_except_counts TC001 calm
              (Ev 117 (ExpectToBeVisible shown 30000) (Reply None 0 EmptyString))
              shown)
    as (_ & Hshown & _); [simpl; tauto | exact H2 | reflexivity |].
  destruct (C9_first_match_except_counts TC015 calm
              (Ev 89 (Count counted) (Reply None 0 EmptyString)) counted)
    as (_ & _ & Hcount & _); [simpl; tauto | exact H3 | reflexivity |].
  split; [exact H1 |]. split; [exact (Hclick eq_refl) |].
  split; [exact H2 |]. split; [exact (Hshown 30000%N eq_refl) |].
  split; [exact H3 | exact (Hcount eq_refl)].
Defined.

(** ** C10 *)

(** C10: in the row-level-security scenario (TC015), when every call returns
    the run passes, whatever the check of User B's session saw; and when
    the check saw the session title (the count of [h1] returned a positive
    number, so User A was not denied), the warning was printed. *)
Theorem C10_rls_violation_only_warns w :
  (has session_title_seen (history (snd (run TC015 w))) ->
   In RLS_WARNING (stdout (snd (run TC015 w)))) /\
  ((forall ev, In ev (history (snd (run TC015 w))) -> faulted ev = false) ->
   passed TC015 w = true).
Proof.
  pose proof TC015_wellformed as wf. split.
  - intro Hs. apply (run_warned _ _ wf w). apply has_history, Hs.
  - intro Hok. unfold passed, run. cbn [steps finally_line TC015].
    rewrite (run_returns_when_calm _ _ wf w); [reflexivity |].
    intros ev Hin. unfold harmless. rewrite (Hok ev); [reflexivity |].
    apply in_history, Hin.
Qed.

Lemma C10_rls_violation_only_warns_witness :
  has session_title_seen (history (snd (run TC015 rls_breach))) /\
  (forall ev, In ev (history (snd (run TC015 rls_breach))) -> faulted ev = false) /\
  In RLS_WARNING (stdout (snd (run TC015 rls_breach))) /\
  passed TC015 rls_breach = true.
Proof.
  assert (Hs : has session_title_seen (history (snd (run TC015 rls_breach)))).
  { exists (Ev 89 (Count (Locator 0 "h1" AllMatches)) (Reply None 1 EmptyString)).
    split; [| reflexivity].
    apply nth_error_In with (n := 25). vm_compute. reflexivity. }
  assert (Hok : forall ev, In ev (history (snd (run TC015 rls_breach))) ->
                           faulted ev = false).
  { assert (Hb : forallb (fun ev => negb (faulted ev))
                   (history (snd (run TC015 rls_breach))) = true)
      by (vm_compute; reflexivity).
    intros ev Hin. apply negb_true_iff.
    exact (proj1 (forallb_forall _ _) Hb ev Hin). }
  split; [exact Hs |]. split; [exact Hok |].
  destruct (C10_rls_violation_only_warns rls_breach) as [Hw Hp].
  split; [apply Hw, Hs | apply Hp, Hok].
Defined.

(** * Further properties *)

(** ** When a run passes *)

(** X1: a run passes exactly when every call returned or raised an error that
    the script drops. *)
Theorem run_passes_iff sc w :
  In sc suite ->
  (passed sc w = true <->
   forall ev, In ev (history (snd (run sc w))) ->
              faulted ev = true -> guarded ev = true).
Proof.
  intro Hsc. split; [| apply run_passes_when_dropped, Hsc].
  intros Hp ev Hin Hf. pose proof (suite_wellformed sc Hsc) as wf.
  pose proof (run_fine _ _ wf w) as HF. unfold passed, run in *.
  destruct (fst (run_test (steps sc) (finally_line sc) w initial_state));
    [| discriminate].
  simpl in HF. apply in_history in Hin.
  pose proof (proj1 (Forall_forall _ _) HF ev Hin) as Hh.
  unfold harmless in Hh. rewrite Hf in Hh. exact Hh.
Qed.

Lemma run_passes_iff_witness :
  In TC001 suite /\
  (passed TC001 load_state_stalls = true <->
   forall ev, In ev (history (snd (run TC001 load_state_stalls))) ->
              faulted ev = true -> guarded ev = true).
Proof.
  split; [simpl; tauto |].
  apply (run_passes_iff TC001 load_state_stalls). simpl. tauto.
Defined.

(** ** Nothing is used after it was released *)

Lemma run_line_discipline sc w :
  In sc suite ->
  all_calls (line_discipline (finally_line sc)) (log (snd (run sc w))).
Proof.
  intro Hsc.
  assert (HR : Rel (keeps (all_calls (line_discipline (finally_line sc))))
                 (run_test (steps sc) (finally_line sc))).
  { each_script Hsc; open_script; rel_walk. }
  apply HR. constructor.
Qed.

Lemma release_line fin l c :
  line_discipline fin l c = true ->
  if is_release c then l = fin + 2 * release_rank c else l < fin.
Proof.
  unfold line_discipline.
  destruct c; simpl; intro H;
    first [apply Nat.ltb_lt in H; exact H | apply Nat.eqb_eq in H; lia].
Qed.

Lemma released_at_most_once k l : discipline l -> length (released k l) <= 1.
Proof.
  intros (Hc & Hb & Hd).
  assert (H1 : forall k', released_once k' l -> length (released k' l) <= 1)
    by (intros k' [-> H]; exact H).
  destruct k.
  - destruct Hd as [[Hd _] | [-> _]]; [apply H1, Hd | simpl; lia].
  - destruct Hb as [[Hb _] | [-> _]]; [apply H1, Hb | simpl; lia].
  - apply H1, Hc.
Qed.

Lemma release_kind c :
  is_release c = true ->
  exists k h,
    (forall l r, releases (Ev l c r) = Some (k, h)) /\
    release_rank c =
    match k with BrowserContext => 1 | Browser => 2 | Driver => 3 end.
Proof.
  destruct c; try discriminate; intros _;
    [exists BrowserContext | exists Browser | exists Driver];
    eexists; (split; [intros l r; reflexivity | reflexivity]).
Qed.

Lemma released_twice k pre ev mid ev' post h h' :
  releases ev = Some (k, h) -> releases ev' = Some (k, h') ->
  2 <= length (released k (pre ++ ev :: mid ++ ev' :: post)).
Proof.
  intros H H'. unfold released.
  rewrite handles_of_app, length_app. cbn [handles_of]. rewrite H.
  assert (Hk : resource_eqb k k = true) by (destruct k; reflexivity).
  rewrite Hk. cbn [length]. rewrite handles_of_app, length_app.
  cbn [handles_of]. rewrite H', Hk. cbn [length]. lia.
Qed.

(** X2: once a release call is made, only release calls follow, each of
    them later in the [finally] block than the one before: the context
    first, then the browser, then the Playwright driver, and none of them
    twice. *)
Theorem no_call_after_release sc w pre ev post :
  In sc suite ->
  history (snd (run sc w)) = pre ++ ev :: post ->
  is_release (ev_call ev) = true ->
  Forall (fun ev' => is_release (ev_call ev') = true /\
                     release_rank (ev_call ev) < release_rank (ev_call ev'))
         post.
Proof.
  intros Hsc Hh Hr. pose proof (suite_wellformed sc Hsc) as wf.
  pose proof (run_line_discipline sc w Hsc) as Hd.
  apply Forall_forall. intros ev' Hin.
  destruct (in_split _ _ Hin) as (mid & post' & ->).
  pose proof Hh as Hh2. apply history_split2 in Hh2.
  pose proof (run_ordered _ _ wf w) as Ho. unfold run in Hh2.
  rewrite Hh2 in Ho. apply ordered_split in Ho.
  assert (Hin1 : In ev (log (snd (run sc w))))
    by (apply in_history; rewrite Hh; apply in_or_app; right; left; reflexivity).
  assert (Hin2 : In ev' (log (snd (run sc w))))
    by (apply in_history; rewrite Hh; apply in_or_app; right; right;
        apply in_or_app; right; left; reflexivity).
  pose proof (release_line _ _ _ (proj1 (Forall_forall _ _) Hd ev Hin1)) as H1.
  pose proof (release_line _ _ _ (proj1 (Forall_forall _ _) Hd ev' Hin2)) as H2.
  rewrite Hr in H1. destruct (is_release (ev_call ev')) eqn:Hr'; [| lia].
  split; [reflexivity |].
  destruct (Nat.eq_dec (release_rank (ev_call ev)) (release_rank (ev_call ev')))
    as [Heq | Hne]; [exfalso | lia].
  destruct ev as [l c r], ev' as [l' c' r']. cbn [ev_call] in *.
  destruct (release_kind c Hr) as (k & h & Hk & Hrk).
  destruct (release_kind c' Hr') as (k' & h' & Hk' & Hrk').
  assert (k = k') by (destruct k, k'; simpl in *; lia || reflexivity). subst k'.
  pose proof (released_at_most_once k _ (run_test_discipline _ _ w wf)) as Hone.
  unfold run in Hh. rewrite Hh in Hone.
  pose proof (released_twice k pre _ mid _ post' h h' (Hk l r) (Hk' l' r')). lia.
Qed.

Lemma no_call_after_release_witness :
  let h := history (snd (run TC001 click_times_out)) in
  let ev := Ev 130 (ContextClose 0) (Reply None 0 EmptyString) in
  In TC001 suite /\
  h = firstn 12 h ++ ev :: skipn 13 h /\
  Forall (fun ev' => is_release (ev_call ev') = true /\
                     release_rank (ev_call ev) < release_rank (ev_call ev'))
         (skipn 13 h).
Proof.
  intros h ev.
  assert (Hh : h = firstn 12 h ++ ev :: skipn 13 h) by (vm_compute; reflexivity).
  split; [simpl; tauto |]. split; [exact Hh |].
  eapply (no_call_after_release TC001 click_times_out);
    [simpl; tauto | exact Hh | reflexivity].
Defined.

(** ** What the scenarios assert *)

(** X3: a scenario has the visibility assertions of its table and no other: a
    run passes only if each of them was evaluated and held within its
    timeout, and whatever a run asserts is in the table. *)
Theorem assertions_decide sc tbl w :
  In (sc, tbl) assertion_table ->
  (passed sc w = true ->
   forall a, In a tbl ->
     exists ev l,
       In ev (history (snd (run sc w))) /\
       ev_line ev = at_line a /\ ev_call ev = ExpectToBeVisible l (within a) /\
       selector l = shows a /\ which l = First /\ fault (ev_reply ev) = None) /\
  (forall ev l t,
     In ev (history (snd (run sc w))) ->
     ev_call ev = ExpectToBeVisible l t ->
     which l = First /\ In (Assertion (ev_line ev) (selector l) t) tbl).
Proof.
  intro H. split.
  - intros Hp a Ha. destruct (run_held sc tbl w H Hp a Ha) as (ev & Hin & HP).
    destruct (asserts_visible_inv _ _ _ _ HP) as (l & Hl). exists ev, l. tauto.
  - intros ev l t Hin Hc. apply in_history in Hin.
    pose proof (proj1 (Forall_forall _ _) (run_asserts_only sc tbl w H) ev Hin) as Ht.
    cbv beta in Ht. rewrite Hc in Ht. simpl in Ht.
    apply existsb_exists in Ht. destruct Ht as ([al ash aw] & Hin' & Ht).
    simpl in Ht. repeat (apply andb_true_iff in Ht; destruct Ht as [Ht ?]).
    apply Nat.eqb_eq in Ht. apply String.eqb_eq in H2. apply N.eqb_eq in H1.
    subst. split; [destruct (which l); try discriminate; reflexivity | exact Hin'].
Qed.

Lemma assertions_decide_witness :
  In (TC004, TC004_assertions) assertion_table /\
  (passed TC004 calm = true ->
   forall a, In a TC004_assertions ->
     exists ev l,
       In ev (history (snd (run TC004 calm))) /\
       ev_line ev = at_line a /\ ev_call ev = ExpectToBeVisible l (within a) /\
       selector l = shows a /\ which l = First /\ fault (ev_reply ev) = None).
Proof.
  split; [right; left; reflexivity |].
  apply (assertions_decide TC004 TC004_assertions calm). right; left; reflexivity.
Defined.

(** ** What a run prints *)

Lemma run_await_str l c w s :
  await_str l c w s =
  match fault (w (length (log s)) c) with
  | None =>
      (Returned (str_val (w (length (log s)) c)),
       record (Ev l c (w (length (log s)) c)) s)
  | Some (cls, msg) =>
      (Raised (Exn cls msg []), record (Ev l c (w (length (log s)) c)) s)
  end.
Proof.
  unfold await_str. rewrite run_bind, run_perform.
  destruct (fault (w (length (log s)) c)) as [[cls msg] |]; reflexivity.
Qed.

Lemma reported_record ev s :
  says ev = None -> reported s -> reported (record ev s).
Proof.
  intros He H msg. simpl. rewrite (H msg). split.
  - intros (ev' & Hin & Hs). exists ev'. auto.
  - intros (ev' & [<- | Hin] & Hs); [congruence | exists ev'; auto].
Qed.

Lemma reported_record_print ev msg s :
  says ev = Some msg -> reported s ->
  reported (State (ev :: log s) (pw s) (browser s) (context s) (msg :: stdout s)).
Proof.
  intros He H m. simpl. rewrite (H m). split.
  - intros [<- | (ev' & Hin & Hs)]; [exists ev; auto | exists ev'; auto].
  - intros (ev' & [<- | Hin] & Hs); [left; congruence | right; exists ev'; auto].
Qed.

Lemma silent_says l c r : silent l c = true -> says (Ev l c r) = None.
Proof.
  intro H. unfold says. destruct (faulted (Ev l c r)); [reflexivity |].
  destruct c; try reflexivity; simpl in *.
  - discriminate.
  - apply negb_true_iff in H. rewrite H. reflexivity.
  - apply negb_true_iff in H. rewrite H. reflexivity.
Qed.

#[export] Instance Stable_reported : Stable keeps_reported silent.
Proof.
  split.
  - intros s H. exact H.
  - intros s1 s2 s3 Ha Hb H. auto.
  - intros l c r s Hc H. apply reported_record; [apply silent_says, Hc | exact H].
Qed.

Lemma Rel_reported_set_pw v : Rel keeps_reported (set_pw v).
Proof. intros w s H. exact H. Qed.

Lemma Rel_reported_set_browser v : Rel keeps_reported (set_browser v).
Proof. intros w s H. exact H. Qed.

Lemma Rel_reported_set_context v : Rel keeps_reported (set_context v).
Proof. intros w s H. exact H. Qed.

(** Lines 82 to 91 of TC015. *)
Lemma Rel_reported_check {B} l f l' e (k : unit -> M B) :
  selector e = "h1" ->
  (forall u, Rel keeps_reported (k u)) ->
  Rel keeps_reported
    (bind (await_str l (Content f))
       (fun page_content =>
          bind (if access_denied page_content then print RLS_DENIED
                else bind (await_int l' (Count e))
                       (fun n => if (0 <? n)%nat then print RLS_WARNING
                                 else ret tt))
               k)).
Proof.
  intros Hsel Hk w s H. rewrite run_bind, run_await_str.
  set (r := w (length (log s)) (Content f)).
  destruct (fault r) as [[cls msg] |] eqn:E.
  - apply reported_record; [| exact H].
    unfold says, faulted. simpl. rewrite E. reflexivity.
  - rewrite run_bind. destruct (access_denied (str_val r)) eqn:Ed.
    + apply Hk. apply (reported_record_print (Ev l (Content f) r) RLS_DENIED s); [| exact H].
      unfold says, faulted. simpl. rewrite E, Ed. reflexivity.
    + assert (H1 : reported (record (Ev l (Content f) r) s)).
      { apply reported_record; [| exact H].
        unfold says, faulted. simpl. rewrite E, Ed. reflexivity. }
      set (s1 := record (Ev l (Content f) r) s) in *.
      rewrite run_bind, run_await_int.
      set (r2 := w (length (log s1)) (Count e)).
      destruct (fault r2) as [[cls msg] |] eqn:E2.
      * apply reported_record; [| exact H1].
        unfold says, faulted. simpl. rewrite E2. reflexivity.
      * destruct (0 <? int_val r2)%nat eqn:En; apply Hk.
        -- apply (reported_record_print (Ev l' (Count e) r2) RLS_WARNING s1); [| exact H1].
           unfold says, faulted. simpl. rewrite E2, Hsel, En. reflexivity.
        -- apply (reported_record (Ev l' (Count e) r2) s1); [| exact H1].
           unfold says, faulted. simpl. rewrite E2, En, andb_false_r. reflexivity.
Qed.

(** Lines 129 to 138 of TC015. *)
Lemma Rel_reported_dashboard e t catches (handler : exn -> M unit) :
  selector e = "text=Your Sessions" ->
  (forall ex, Rel keeps_reported (handler ex)) ->
  Rel keeps_reported
    (try_except
       (bind (await_ 131 (ExpectToBeVisible e t)) (fun _ => print DASHBOARD_SEEN))
       catches handler).
Proof.
  intros Hsel Hh w s H. unfold try_except. rewrite run_bind, run_await_.
  set (r := w (length (log s)) (ExpectToBeVisible e t)).
  destruct (fault r) as [[cls msg] |] eqn:E.
  - assert (H1 : reported (record (Ev 131 (ExpectToBeVisible e t) r) s)).
    { apply reported_record; [| exact H].
      unfold says, faulted. simpl. rewrite E. reflexivity. }
    simpl. destruct (catches cls); [| exact H1].
    specialize (Hh (Exn cls msg []) w _ H1).
    destruct (handler _ w _) as [[u | e'] s2]; exact Hh.
  - apply (reported_record_print (Ev 131 (ExpectToBeVisible e t) r) DASHBOARD_SEEN s); [| exact H].
    unfold says, faulted. simpl. rewrite E, Hsel. reflexivity.
Qed.

Ltac reported_step :=
  lazymatch goal with
  | |- Rel keeps_reported (set_pw _) => apply Rel_reported_set_pw
  | |- Rel keeps_reported (set_browser _) => apply Rel_reported_set_browser
  | |- Rel keeps_reported (set_context _) => apply Rel_reported_set_context
  | |- Rel keeps_reported (bind (await_str _ (Content _)) _) =>
      apply Rel_reported_check; [reflexivity | intro]
  | |- Rel keeps_reported
         (try_except (bind (await_ _ (ExpectToBeVisible _ _)) (fun _ => print _))
            _ _) =>
      apply Rel_reported_dashboard; [reflexivity | intro]
  | |- _ => rel_step
  end.

Lemma run_reported sc w : In sc suite -> reported (snd (run sc w)).
Proof.
  intro Hsc.
  assert (HR : Rel keeps_reported (run_test (steps sc) (finally_line sc))).
  { each_script Hsc; open_script; unfold_calls; cbv zeta; repeat reported_step. }
  apply HR. intro msg. simpl. split; [tauto | intros (ev & [] & _)].
Qed.

(** X4: a script prints a line exactly when an event that calls for it was
    logged: the denial line when the page content counted as a denial, the
    warning when [h1] was counted and found, the dashboard line when the
    assertion of line 131 held; and it prints nothing else. *)
Theorem prints_report sc w msg :
  In sc suite ->
  (In msg (stdout (snd (run sc w))) <->
   exists ev, In ev (history (snd (run sc w))) /\ says ev = Some msg).
Proof.
  intro Hsc. rewrite (run_reported sc w Hsc msg). split;
    intros (ev & Hin & Hs); exists ev; (split; [apply in_history, Hin | exact Hs]).
Qed.

Lemma prints_report_witness :
  In TC015 suite /\
  (In RLS_WARNING (stdout (snd (run TC015 rls_breach))) <->
   exists ev, In ev (history (snd (run TC015 rls_breach))) /\
              says ev = Some RLS_WARNING).
Proof.
  split; [simpl; tauto |].
  apply (prints_report TC015 rls_breach RLS_WARNING). simpl. tauto.
Defined.

(** ** The denial test of the row-level-security check *)

Lemma prefix_append n h :
  prefix n h = true <-> exists t, h = String.append n t.
Proof.
  revert h. induction n as [| a n IH]; intro h; simpl.
  - split; [exists h; reflexivity | destruct h; reflexivity].
  - destruct h as [| b h]; simpl.
    + split; [discriminate | intros (t & Ht); discriminate].
    + destruct (ascii_dec a b) as [<- | Hab].
      * rewrite IH. split; intros (t & Ht); exists t; congruence.
      * split; [discriminate | intros (t & Ht); congruence].
Qed.

Lemma contains_append n h :
  contains n h = true <->
  exists a t, h = String.append a (String.append n t).
Proof.
  induction h as [| c h IH].
  - split.
    + intro H. destruct n; [exists EmptyString, EmptyString; reflexivity | discriminate].
    + intros ([| c a] & t & Ht); [| discriminate].
      destruct n; [reflexivity | discriminate].
  - cbn [contains]. rewrite orb_true_iff, IH, prefix_append. split.
    + intros [(t & Ht) | (a & t & Ht)].
      * exists EmptyString, t. exact Ht.
      * exists (String c a), t. simpl. congruence.
    + intros ([| c' a] & t & Ht).
      * left. exists t. exact Ht.
      * right. exists a, t. simpl in Ht. congruence.
Qed.

Lemma lower_append a b :
  lower (String.append a b) = String.append (lower a) (lower b).
Proof. induction a as [| c a IH]; simpl; [reflexivity | rewrite IH; reflexivity]. Qed.

Lemma append_assoc a b c :
  String.append (String.append a b) c = String.append a (String.append b c).
Proof. induction a as [| x a IH]; simpl; [reflexivity | rewrite IH; reflexivity]. Qed.

(** A text that contains [m ++ n] contains, lowered, the lowered [n]. *)
Lemma contains_lower m n h :
  contains (String.append m n) h = true -> contains (lower n) (lower h) = true.
Proof.
  rewrite !contains_append. intros (a & t & ->).
  exists (lower (String.append a m)), (lower t).
  rewrite !lower_append, !append_assoc. reflexivity.
Qed.

(** X5: the case-sensitive test for ['Session not found'] never decides the
    check of line 85: a page counts as a denial exactly when, lowered, it
    contains ['not found'] or ['error']. *)
Theorem access_denied_lowered page_content :
  access_denied page_content =
  contains "not found" (lower page_content)
  || contains "error" (lower page_content).
Proof.
  unfold access_denied.
  destruct (contains "Session not found" page_content) eqn:E; [| reflexivity].
  pose proof (contains_lower "Session " "not found" page_content E) as H.
  change (lower "not found") with "not found" in H. rewrite H. reflexivity.
Qed.

(** ** Where the exception of a failing run comes from *)

Lemma explained_incl e l l' :
  (forall ev, In ev l -> In ev l') -> explained e l -> explained e l'.
Proof.
  intros Hi [(ev & Hin & Hf) | ((Hc & Hp & Hr & Hn) & m & Hm & ev & x & t & Hin & Hev)].
  - left. exists ev. auto.
  - right. split.
    + repeat split; auto.
      * intro E. destruct (Hr E) as (ev' & Hin' & HP). exists ev'. auto.
      * intro E. destruct (Hn E) as (ev' & Hin' & HP). exists ev'. auto.
    + exists m. split; [exact Hm |]. exists ev, x, t.
      split; [apply Hi, Hin | exact Hev].
Qed.

#[export] Instance Stable_explained e :
  Stable (keeps (explained e)) (fun _ _ => true).
Proof.
  split.
  - intros s H. exact H.
  - intros s1 s2 s3 Ha Hb H. auto.
  - intros l c r s _ H. eapply explained_incl; [| exact H].
    intros ev Hin. right. exact Hin.
Qed.

(** An exception raised while another one is pending is explained as it is
    on its own: the pending one only adds to its context. *)
Lemma explained_during e e' l : explained e' l -> explained (during e e') l.
Proof.
  intros [H | (Ho & m & Hm & Ha)]; [left; exact H | right].
  split; [exact Ho |]. exists m. split; [| exact Ha].
  unfold during. cbn [exn_context]. apply in_or_app. left. exact Hm.
Qed.

Lemma Blames_ret {A} (a : A) : Blames (ret a).
Proof. intros w s. exact I. Qed.

Lemma Blames_print msg : Blames (print msg).
Proof. intros w s. exact I. Qed.

Lemma Blames_get {A} (f : state -> A) : Blames (get f).
Proof. intros w s. exact I. Qed.

Lemma Blames_set_pw v : Blames (set_pw v).
Proof. intros w s. exact I. Qed.

Lemma Blames_set_browser v : Blames (set_browser v).
Proof. intros w s. exact I. Qed.

Lemma Blames_set_context v : Blames (set_context v).
Proof. intros w s. exact I. Qed.

Lemma Blames_bind {A B} (m : M A) (k : A -> M B) :
  Blames m -> (forall a, Blames (k a)) -> Blames (bind m k).
Proof.
  intros Hm Hk w s. rewrite run_bind. specialize (Hm w s).
  destruct (m w s) as [[a | e] s1]; simpl in *; [apply Hk | exact Hm].
Qed.

Lemma Blames_perform l c : Blames (perform l c).
Proof.
  intros w s. rewrite run_perform.
  destruct (fault (w (length (log s)) c)) as [[cls msg] |] eqn:E; simpl; [| exact I].
  left. eexists. split; [left; reflexivity | exact E].
Qed.

Lemma Blames_await_ l c : Blames (await_ l c).
Proof. apply Blames_bind; [apply Blames_perform | intro; apply Blames_ret]. Qed.

Lemma Blames_await_int l c : Blames (await_int l c).
Proof. apply Blames_bind; [apply Blames_perform | intro; apply Blames_ret]. Qed.

Lemma Blames_await_str l c : Blames (await_str l c).
Proof. apply Blames_bind; [apply Blames_perform | intro; apply Blames_ret]. Qed.

Lemma Blames_if {A} (b : bool) (m1 m2 : M A) :
  Blames m1 -> Blames m2 -> Blames (if b then m1 else m2).
Proof. destruct b; auto. Qed.

Lemma Blames_for_each {A} (xs : list A) body :
  (forall x, Blames (body x)) -> Blames (for_each xs body).
Proof.
  intro Hb. induction xs as [| x xs IH]; simpl.
  - apply Blames_ret.
  - apply Blames_bind; [apply Hb | intro; exact IH].
Qed.

(** [try: ... except async_api.Error: pass] *)
Lemma Blames_try_pass {A} (m : M A) catches (a : A) :
  Blames m -> Blames (try_except m catches (fun _ => ret a)).
Proof.
  intros Hm w s. unfold try_except. specialize (Hm w s).
  destruct (m w s) as [[x | e] s1]; simpl in *; [exact I |].
  destruct (catches (exn_class e)); simpl; [exact I | exact Hm].
Qed.

(** [try: await expect(...) except AssertionError: raise AssertionError(msg)] *)
Lemma Blames_try_assert l e t msg :
  prefix "Test case failed: " msg = true ->
  String.eqb msg LOGIN_REJECTED = false ->
  String.eqb msg NO_DASHBOARD = false ->
  Blames
    (try_except (await_ l (ExpectToBeVisible e t)) is_AssertionError
       (fun _ => raise_ AssertionError msg)).
Proof.
  intros Hp Hl Hn w s. unfold try_except. rewrite run_await_.
  set (r := w (length (log s)) (ExpectToBeVisible e t)).
  destruct (fault r) as [[cls m] |] eqn:E; simpl; [| exact I].
  assert (Hc : from_call (cls, m) (log (record (Ev l (ExpectToBeVisible e t) r) s)))
    by (eexists; split; [left; reflexivity | exact E]).
  destruct cls; simpl; try (left; exact Hc).
  right. split.
  - repeat split; simpl; auto.
    + intro H. apply String.eqb_neq in Hl. contradiction.
    + intro H. apply String.eqb_neq in Hn. contradiction.
  - exists m. split; [left; reflexivity |]. eexists _, e, t.
    split; [left; reflexivity | split; [reflexivity | exact E]].
Qed.

(** Lines 129 to 138 of TC015. *)
Lemma Blames_try_dashboard l e t pmsg l' e' :
  selector e' = "text=Invalid login credentials" ->
  Blames
    (try_except
       (bind (await_ l (ExpectToBeVisible e t)) (fun _ => print pmsg))
       is_AssertionError
       (fun _ =>
          bind (await_int l' (Count e'))
            (fun n => if (0 <? n)%nat then raise_ AssertionError LOGIN_REJECTED
                      else raise_ AssertionError NO_DASHBOARD))).
Proof.
  intros Hsel w s. unfold try_except. rewrite run_bind, run_await_.
  set (r := w (length (log s)) (ExpectToBeVisible e t)).
  destruct (fault r) as [[cls m] |] eqn:E; simpl; [| exact I].
  set (s1 := record (Ev l (ExpectToBeVisible e t) r) s).
  assert (Hc : from_call (cls, m) (log s1))
    by (eexists; split; [left; reflexivity | exact E]).
  destruct cls; simpl; try (left; exact Hc).
  rewrite run_bind, run_await_int.
  set (r2 := w (length (log s1)) (Count e')).
  assert (Ha : from_assertion m (log (record (Ev l' (Count e') r2) s1))).
  { eexists _, e, t.
    split; [right; left; reflexivity | split; [reflexivity | exact E]]. }
  destruct (fault r2) as [[cls2 m2] |] eqn:E2; simpl.
  - left. eexists. split; [left; reflexivity | exact E2].
  - destruct (0 <? int_val r2)%nat eqn:En; simpl; right;
      (split; [| exists m; split; [left; reflexivity | exact Ha]]);
      repeat split; simpl; try reflexivity; try discriminate.
    + intros _. eexists. split; [left; reflexivity |].
      unfold rejection_counted, faulted. simpl. rewrite Hsel, E2, En. reflexivity.
    + intros _. eexists. split; [left; reflexivity |].
      unfold rejection_counted, faulted. simpl. rewrite Hsel, E2, En. reflexivity.
Qed.

Lemma Blames_try_finally {A} (m : M A) fin :
  Blames m -> Blames fin ->
  (forall e, Rel (keeps (explained e)) fin) ->
  Blames (try_finally m fin).
Proof.
  intros Hm Hf Hk w s. unfold try_finally. specialize (Hm w s).
  destruct (m w s) as [[a | e] s1]; simpl in *.
  - specialize (Hf w s1). destruct (fin w s1) as [[u | e'] s2]; simpl in *; auto.
  - specialize (Hf w s1). specialize (Hk e w s1 Hm).
    destruct (fin w s1) as [[u | e'] s2]; simpl in *; [exact Hk |].
    apply explained_during. exact Hf.
Qed.

Ltac blames_step :=
  lazymatch goal with
  | |- Blames (ret _) => apply Blames_ret
  | |- Blames (print _) => apply Blames_print
  | |- Blames (get _) => apply Blames_get
  | |- Blames (set_pw _) => apply Blames_set_pw
  | |- Blames (set_browser _) => apply Blames_set_browser
  | |- Blames (set_context _) => apply Blames_set_context
  | |- Blames (await_ _ _) => apply Blames_await_
  | |- Blames (await_int _ _) => apply Blames_await_int
  | |- Blames (await_str _ _) => apply Blames_await_str
  | |- Blames (perform _ _) => apply Blames_perform
  | |- Blames (bind _ _) => apply Blames_bind; [| intro]
  | |- Blames (try_except _ _ (fun _ => ret _)) => apply Blames_try_pass
  | |- Blames (try_except (await_ _ _) _ (fun _ => raise_ _ _)) =>
      apply Blames_try_assert; reflexivity
  | |- Blames (try_except (bind _ _) _ (fun _ => bind _ _)) =>
      apply Blames_try_dashboard; reflexivity
  | |- Blames (try_finally _ _) =>
      apply Blames_try_finally; [| | intro; repeat rel_step]
  | |- Blames (for_each _ _) => apply Blames_for_each; intro
  | |- Blames (if _ then _ else _) => apply Blames_if
  | |- Blames (match ?o with Some _ => _ | None => _ end) => destruct o
  end.

Lemma run_blames sc : In sc suite -> Blames (run_test (steps sc) (finally_line sc)).
Proof.
  intro Hsc. each_script Hsc; open_script; unfold_calls; cbv zeta;
    repeat blames_step.
Qed.

(** X6: the exception a failing run ends with is the error that some call
    of the run raised, or an [AssertionError("Test case failed: ...")] that
    the script raised while handling the [AssertionError] of a visibility
    assertion that failed, which is then in its context chain.  TC015 names
    the rejected login only when it counted the text "Invalid login
    credentials" on the page, and the missing dashboard only when it did
    not.  Nothing is said of what else the context chain holds, be it the
    exceptions that were pending or what a library error brings along. *)
Theorem failures_explained sc w e :
  In sc suite ->
  fst (run sc w) = Raised e ->
  let h := history (snd (run sc w)) in
  from_call (exn_class e, exn_msg e) h \/
  (own_failure (exn_class e, exn_msg e) h /\
   exists m, In (AssertionError, m) (exn_context e) /\ from_assertion m h).
Proof.
  intros Hsc He h. pose proof (run_blames sc Hsc w initial_state) as H.
  unfold run in *. rewrite He in H.
  apply (explained_incl e (log (snd (run_test (steps sc) (finally_line sc) w
                                       initial_state)))); [| exact H].
  intros ev Hin. apply in_history, Hin.
Qed.

Lemma failures_explained_witness :
  let e := Exn AssertionError NO_DASHBOARD
             [(AssertionError, "Locator expected to be visible")] in
  let h := history (snd (run TC015 never_visible)) in
  In TC015 suite /\
  fst (run TC015 never_visible) = Raised e /\
  (from_call (exn_class e, exn_msg e) h \/
   (own_failure (exn_class e, exn_msg e) h /\
    exists m, In (AssertionError, m) (exn_context e) /\ from_assertion m h)).
Proof.
  intros e h.
  assert (He : fst (run TC015 never_visible) = Raised e) by (vm_compute; reflexivity).
  split; [simpl; tauto |]. split; [exact He |].
  apply (failures_explained TC015 never_visible e); [simpl; tauto | exact He].
Defined.

(** ** Every micro-wait is followed by its action *)

Lemma not_wait_returned l c r : is_wait c = false -> wait_returned (Ev l c r) = false.
Proof. unfold wait_returned, is_micro_wait. destruct c; simpl; congruence. Qed.

Lemma waits_used_record ev s :
  wait_returned ev = false -> waits_used (log s) -> waits_used (log (record ev s)).
Proof.
  intros He [Ha Hp]. split; simpl.
  - rewrite Ha. destruct (log s) as [| wt older]; [reflexivity |].
    simpl in Hp. apply negb_true_iff in Hp. rewrite Hp. reflexivity.
  - rewrite He. reflexivity.
Qed.

#[export] Instance Stable_waits_used :
  Stable (keeps waits_used) (fun _ c => negb (is_wait c)).
Proof.
  split.
  - intros s H. exact H.
  - intros s1 s2 s3 Ha Hb H. auto.
  - intros l c r s Hc H. apply waits_used_record; [| exact H].
    apply not_wait_returned, negb_true_iff, Hc.
Qed.

(** [await page.wait_for_timeout(3000); await elem.click(...)] and the same
    with [fill]: the action is attempted whenever the wait returned. *)
Lemma Rel_wait_then_acts {B} l page ms c (k : unit -> M B) :
  is_action c = true ->
  (forall u, Rel (keeps waits_used) (k u)) ->
  Rel (keeps waits_used)
    (bind (await_ l (WaitForTimeout page ms)) (fun _ => bind (await_ l c) k)).
Proof.
  intros Hc Hk w s H. rewrite run_bind, run_await_.
  set (r1 := w (length (log s)) (WaitForTimeout page ms)).
  destruct (fault r1) as [[cls msg] |] eqn:E1.
  - apply (waits_used_record (Ev l (WaitForTimeout page ms) r1) s); [| exact H].
    unfold wait_returned, is_micro_wait, faulted. simpl. rewrite E1.
    rewrite !andb_false_r. reflexivity.
  - set (s1 := record (Ev l (WaitForTimeout page ms) r1) s).
    rewrite run_bind, run_await_.
    set (r2 := w (length (log s1)) c).
    assert (H2 : waits_used (log (record (Ev l c r2) s1))).
    { destruct H as [Ha Hp]. split; simpl.
      - rewrite Hc, Nat.eqb_refl, Ha. simpl.
        destruct (wait_returned (Ev l (WaitForTimeout page ms) r1)); simpl;
          destruct (log s) as [| wt older]; simpl in *; try reflexivity;
          apply negb_true_iff in Hp; rewrite Hp; reflexivity.
      - rewrite not_wait_returned; [reflexivity |].
        destruct c; simpl in *; congruence. }
    destruct (fault r2) as [[cls msg] |].
    + exact H2.
    + apply Hk. exact H2.
Qed.

Ltac waits_used_step :=
  lazymatch goal with
  | |- Rel (keeps waits_used)
         (bind (await_ _ (WaitForTimeout _ _)) (fun _ => bind (await_ _ _) _)) =>
      apply Rel_wait_then_acts; [reflexivity | intro]
  | |- _ => rel_step
  end.

Lemma run_waits_used sc w : In sc suite -> waits_used (log (snd (run sc w))).
Proof.
  intro Hsc.
  assert (HR : Rel (keeps waits_used) (run_test (steps sc) (finally_line sc))).
  { each_script Hsc; open_script; unfold_calls; cbv zeta; repeat waits_used_step. }
  apply HR. split; reflexivity.
Qed.

Lemma acts_after_waits_split post wt pre :
  acts_after_waits (post ++ wt :: pre) = true ->
  wait_returned wt = true ->
  post <> [] ->
  exists ev post',
    post = post' ++ [ev] /\
    is_action (ev_call ev) = true /\ ev_line ev = ev_line wt.
Proof.
  induction post as [| ev post IH]; intros Ha Hw Hne; [contradiction |].
  cbn [app acts_after_waits] in Ha.
  apply andb_true_iff in Ha. destruct Ha as [Hhead Ha].
  destruct post as [| ev' post].
  - simpl in Hhead. rewrite Hw in Hhead.
    apply andb_true_iff in Hhead. destruct Hhead as [H1 H2].
    exists ev, []. split; [reflexivity |]. split; [exact H1 |].
    apply Nat.eqb_eq, H2.
  - destruct (IH Ha Hw) as (a & post' & Hpost & Hact & Hl); [discriminate |].
    exists a, (ev :: post'). rewrite Hpost. auto.
Qed.

(** X7: whenever [page.wait_for_timeout(3000)] returned, the very next call is
    the click or the fill of the same source line: no micro-wait is spent
    without its action being attempted. *)
Theorem action_after_every_wait sc w pre wt post :
  In sc suite ->
  history (snd (run sc w)) = pre ++ wt :: post ->
  wait_returned wt = true ->
  exists ev post',
    post = ev :: post' /\
    is_action (ev_call ev) = true /\ ev_line ev = ev_line wt.
Proof.
  intros Hsc Hh Hw. destruct (run_waits_used sc w Hsc) as [Ha Hp].
  apply history_split in Hh. rewrite Hh in Ha, Hp.
  destruct (acts_after_waits_split _ _ _ Ha Hw) as (ev & post' & Hpost & Hact & Hl).
  - intro E. rewrite E in Hp. simpl in Hp. rewrite Hw in Hp. discriminate.
  - exists ev, (rev post'). split; [| auto].
    rewrite <- (rev_involutive post), Hpost, rev_app_distr. reflexivity.
Qed.

Lemma action_after_every_wait_witness :
  let h := history (snd (run TC001 click_times_out)) in
  let wt := Ev 53 (WaitForTimeout 0 3000) (Reply None 0 EmptyString) in
  In TC001 suite /\
  h = firstn 10 h ++ wt :: skipn 11 h /\
  wait_returned wt = true /\
  exists ev post',
    skipn 11 h = ev :: post' /\
    is_action (ev_call ev) = true /\ ev_line ev = ev_line wt.
Proof.
  intros h wt.
  assert (Hh : h = firstn 10 h ++ wt :: skipn 11 h) by (vm_compute; reflexivity).
  split; [simpl; tauto |]. split; [exact Hh |]. split; [reflexivity |].
  apply (action_after_every_wait TC001 click_times_out (firstn 10 h) wt (skipn 11 h));
    [simpl; tauto | exact Hh | reflexivity].
Defined.

(** ** The loop over the frames of the page *)

Lemma history_record ev s : history (record ev s) = history s ++ [ev].
Proof. reflexivity. Qed.

Lemma frames_reported_record ev s :
  frames_reported (history (record ev s)) =
  frames_reported (history s) ++ frames_reported [ev].
Proof. rewrite history_record. apply flat_map_app. Qed.

Lemma frame_waits_record ev s :
  frame_waits (history (record ev s)) = frame_waits (history s) ++ frame_waits [ev].
Proof. rewrite history_record. apply flat_map_app. Qed.

Lemma outside_loop_record l c r s :
  outside_loop l c = true ->
  frames_reported (history (record (Ev l c r) s)) = frames_reported (history s) /\
  frame_waits (history (record (Ev l c r) s)) = frame_waits (history s).
Proof.
  intro H. rewrite frames_reported_record, frame_waits_record.
  destruct c; simpl in *; try discriminate; rewrite ?app_nil_r; auto.
  apply negb_true_iff in H. rewrite H. rewrite ?app_nil_r. auto.
Qed.

#[export] Instance Stable_frames I : Stable (keeps_frames I) outside_loop.
Proof.
  split.
  - intros s H. exact H.
  - intros s1 s2 s3 Ha Hb H. auto.
  - intros l c r s Hc H. unfold keeps_frames.
    destruct (outside_loop_record l c r s Hc) as [-> ->]. exact H.
Qed.

Lemma Rel_frames_print I msg : Rel (keeps_frames I) (print msg).
Proof. intros w s H. exact H. Qed.

Lemma Rel_frames_set_pw I v : Rel (keeps_frames I) (set_pw v).
Proof. intros w s H. exact H. Qed.

Lemma Rel_frames_set_browser I v : Rel (keeps_frames I) (set_browser v).
Proof. intros w s H. exact H. Qed.

Lemma Rel_frames_set_context I v : Rel (keeps_frames I) (set_context v).
Proof. intros w s H. exact H. Qed.

Ltac frames_step :=
  lazymatch goal with
  | |- Rel (keeps_frames _) (print _) => apply Rel_frames_print
  | |- Rel (keeps_frames _) (set_pw _) => apply Rel_frames_set_pw
  | |- Rel (keeps_frames _) (set_browser _) => apply Rel_frames_set_browser
  | |- Rel (keeps_frames _) (set_context _) => apply Rel_frames_set_context
  | |- _ => rel_step
  end.

(** Lines 42 to 46: the frames are waited for one by one, in order, until a
    wait raises an error that is no Playwright error. *)
Lemma for_each_frame_waits fs st timeout w s r s' :
  for_each fs
    (fun frame =>
       try_except (await_ 44 (WaitForLoadState frame st timeout))
         is_async_api_Error (fun _ => ret tt)) w s = (r, s') ->
  exists waited rest,
    fs = waited ++ rest /\
    frame_waits (history s') = frame_waits (history s) ++ waited /\
    frames_reported (history s') = frames_reported (history s) /\
    (forall u, r = Returned u -> rest = []).
Proof.
  revert s. induction fs as [| f fs IH]; intros s H.
  - injection H as <- <-. exists [], []. rewrite !app_nil_r. auto.
  - cbn [for_each] in H. rewrite run_bind in H. unfold try_except at 1 in H.
    rewrite run_await_ in H.
    set (r0 := w (length (log s)) (WaitForLoadState f st timeout)) in H.
    set (s1 := record (Ev 44 (WaitForLoadState f st timeout) r0) s) in H.
    assert (Hw : frame_waits (history s1) = frame_waits (history s) ++ [f])
      by (unfold s1; rewrite frame_waits_record; reflexivity).
    assert (Hr : frames_reported (history s1) = frames_reported (history s))
      by (unfold s1; rewrite frames_reported_record; simpl; apply app_nil_r).
    assert (Hgo : for_each fs
              (fun frame =>
                 try_except (await_ 44 (WaitForLoadState frame st timeout))
                   is_async_api_Error (fun _ => ret tt)) w s1 = (r, s') ->
              exists waited rest,
                f :: fs = waited ++ rest /\
                frame_waits (history s') = frame_waits (history s) ++ waited /\
                frames_reported (history s') = frames_reported (history s) /\
                (forall u, r = Returned u -> rest = [])).
    { intro H'. destruct (IH s1 H') as (waited & rest & Hfs & Hw' & Hr' & Hret).
      exists (f :: waited), rest. split; [simpl; congruence |].
      split; [rewrite Hw', Hw, <- app_assoc; reflexivity |].
      split; [congruence | exact Hret]. }
    destruct (fault r0) as [[cls msg] |]; [| exact (Hgo H)].
    cbn [exn_class] in H. destruct (is_async_api_Error cls); [exact (Hgo H) |].
    injection H as <- <-. exists [f], fs. repeat split; auto. discriminate.
Qed.

Lemma Loops_assoc {A B C} (m : M A) (k1 : A -> M B) (k2 : B -> M C) :
  Loops (bind m (fun a => bind (k1 a) k2)) -> Loops (bind (bind m k1) k2).
Proof.
  intros H w s Hp. specialize (H w s Hp). rewrite !run_bind in *.
  destruct (m w s) as [[a | e] s1]; exact H.
Qed.

Lemma Loops_before {A B} (m : M A) (k : A -> M B) :
  Rel (keeps_frames loop_pristine) m -> (forall a, Loops (k a)) ->
  Loops (bind m k).
Proof.
  intros Hm Hk w s Hp. rewrite run_bind. specialize (Hm w s Hp).
  destruct (m w s) as [[a | e] s1]; simpl in *; [apply Hk, Hm |].
  destruct Hm as [-> ->]. exists []. reflexivity.
Qed.

Lemma run_ret_bind {A B} (a : A) (k : A -> M B) w s : bind (ret a) k w s = k a w s.
Proof. reflexivity. Qed.

(** Lines 42 to 46, and what follows them. *)
Lemma Loops_frames {B C} l page st timeout (k1 : unit -> M B) (k2 : B -> M C) :
  (forall u, Rel (keeps_frames loop_complete) (k1 u)) ->
  (forall u, Rel (keeps_frames loop_partial) (k1 u)) ->
  (forall b, Rel (keeps_frames loop_complete) (k2 b)) ->
  (forall b, Rel (keeps_frames loop_partial) (k2 b)) ->
  Loops
    (bind
       (bind (bind (await_int l (PageFrames page)) (fun n => ret (seq page n)))
          (fun fs =>
             bind (for_each fs (fun frame =>
                     try_except (await_ 44 (WaitForLoadState frame st timeout))
                       is_async_api_Error (fun _ => ret tt)))
                  k1))
       k2).
Proof.
  intros Hc1 Hp1 Hc2 Hp2. do 2 apply Loops_assoc. intros w s [Hr Hw].
  rewrite run_bind, run_await_int.
  set (r := w (length (log s)) (PageFrames page)).
  set (s1 := record (Ev l (PageFrames page) r) s).
  assert (Hw1 : frame_waits (history s1) = [])
    by (unfold s1; rewrite frame_waits_record, Hw; reflexivity).
  destruct (fault r) as [[cls msg] |] eqn:E.
  - cbn [fst snd]. fold s1. exists []. rewrite Hw1.
    unfold s1. rewrite frames_reported_record, Hr. simpl.
    unfold faulted. simpl. rewrite E. reflexivity.
  - assert (Hr1 : frames_reported (history s1) = seq page (int_val r)).
    { unfold s1. rewrite frames_reported_record, Hr. simpl.
      unfold faulted. simpl. rewrite E. apply app_nil_r. }
    rewrite run_ret_bind. rewrite !run_bind.
    destruct (for_each (seq page (int_val r)) _ w s1) as [r2 s2] eqn:Ef.
    destruct (for_each_frame_waits _ _ _ _ _ _ _ Ef)
      as (waited & rest & Hfs & Hw2 & Hr2 & Hret).
    destruct r2 as [u | e]; cbn [fst snd] in *.
    + specialize (Hret u eq_refl). subst rest. rewrite app_nil_r in Hfs.
      assert (Hdone : loop_complete (frames_reported (history s2))
                        (frame_waits (history s2))).
      { unfold loop_complete. rewrite Hr2, Hw2, Hr1, Hw1. exact Hfs. }
      pose proof (Hc1 u w s2 Hdone) as H1.
      assert (Hpart : loop_partial (frames_reported (history s2))
                        (frame_waits (history s2)))
        by (exists []; rewrite app_nil_r; exact Hdone).
      pose proof (Hp1 u w s2 Hpart) as H1'.
      destruct (k1 u w s2) as [[b | e] s3]; cbn [fst snd] in *; [| exact H1'].
      pose proof (Hc2 b w s3 H1) as H2. pose proof (Hp2 b w s3 H1') as H2'.
      destruct (k2 b w s3) as [[c | e] s4]; cbn [fst snd] in *; assumption.
    + exists rest. rewrite Hr2, Hw2, Hr1, Hw1. exact Hfs.
Qed.

Lemma Loops_try_finally {A} (m : M A) fin :
  Loops m ->
  Rel (keeps_frames loop_complete) fin -> Rel (keeps_frames loop_partial) fin ->
  Loops (try_finally m fin).
Proof.
  intros Hm Hc Hp w s H0. unfold try_finally. specialize (Hm w s H0).
  destruct (m w s) as [[a | e] s1]; cbn [fst snd] in *.
  - pose proof (Hc w s1 Hm) as H1.
    assert (Hpart : loop_partial (frames_reported (history s1))
                      (frame_waits (history s1)))
      by (exists []; rewrite app_nil_r; exact Hm).
    pose proof (Hp w s1 Hpart) as H1'.
    destruct (fin w s1) as [[u | e'] s2]; cbn [fst snd] in *; assumption.
  - pose proof (Hp w s1 Hm) as H1.
    destruct (fin w s1) as [[u | e'] s2]; cbn [fst snd] in *; assumption.
Qed.

Ltac loops_step :=
  lazymatch goal with
  | |- Loops (try_finally _ _) =>
      apply Loops_try_finally;
      [| solve [repeat frames_step] | solve [repeat frames_step]]
  | |- Loops (bind (bind (bind (await_int _ (PageFrames _)) _) _) _) =>
      apply Loops_frames; intro; cbn [fst snd]; solve [repeat frames_step]
  | |- Loops (bind (bind _ _) _) => apply Loops_assoc
  | |- Loops (bind _ _) =>
      apply Loops_before; [solve [repeat frames_step] | intro; cbv beta]
  end.

Lemma run_loops sc : In sc suite -> Loops (run_test (steps sc) (finally_line sc)).
Proof.
  intro Hsc. each_script Hsc; open_script; unfold_calls; cbv zeta;
    repeat loops_step.
Qed.

(** X8: the loop of line 42 waits for the frames [page.frames] reported, one
    wait per frame and in their order, and for no other; a run that passes
    has waited for every one of them. *)
Theorem frames_waited_in_order sc w :
  In sc suite ->
  let h := history (snd (run sc w)) in
  (exists rest, frames_reported h = frame_waits h ++ rest) /\
  (passed sc w = true -> frames_reported h = frame_waits h).
Proof.
  intros Hsc h. pose proof (run_loops sc Hsc w initial_state) as H.
  specialize (H (conj eq_refl eq_refl)). cbv zeta in H.
  unfold passed, run in *. subst h.
  destruct (fst (run_test (steps sc) (finally_line sc) w initial_state)).
  - split; [exists []; rewrite app_nil_r; exact H | intros _; exact H].
  - split; [exact H | discriminate].
Qed.

Lemma frames_waited_in_order_witness :
  let h := history (snd (run TC001 second_frame_breaks)) in
  In TC001 suite /\
  frames_reported h = [0; 1; 2] /\ frame_waits h = [0; 1] /\
  (exists rest, frames_reported h = frame_waits h ++ rest).
Proof.
  intro h. split; [simpl; tauto |].
  split; [vm_compute; reflexivity |]. split; [vm_compute; reflexivity |].
  apply (frames_waited_in_order TC001 second_frame_breaks). simpl. tauto.
Defined.

(** ** The objects the calls are made on *)

Lemma held_record l c r older :
  obtains c = false -> held (Ev l c r :: older) = held older.
Proof.
  intro H. simpl. destruct (faulted (Ev l c r)); [reflexivity |].
  destruct c; try discriminate; reflexivity.
Qed.

Lemma held_raised l c r cls msg older :
  fault r = Some (cls, msg) -> held (Ev l c r :: older) = held older.
Proof. intro H. simpl. unfold faulted. simpl. rewrite H. reflexivity. Qed.

Lemma held_returned l c r older :
  fault r = None -> held (Ev l c r :: older) = obtain (held older) c (int_val r).
Proof. intro H. simpl. unfold faulted. simpl. rewrite H. reflexivity. Qed.

#[export] Instance Stable_held e : Stable (keeps_held e) (uses_held e).
Proof.
  split.
  - intros s H. exact H.
  - intros s1 s2 s3 Ha Hb H. auto.
  - intros l c r s Hc [He Hp]. unfold uses_held in Hc.
    apply andb_true_iff in Hc. destruct Hc as [Ha Ho].
    apply negb_true_iff in Ho. cbn [log record].
    split; [rewrite held_record; assumption |].
    cbn [provenance ev_line ev_call]. rewrite He, Ha, Hp. reflexivity.
Qed.

Lemma Rel_held_print e msg : Rel (keeps_held e) (print msg).
Proof. intros w s H. exact H. Qed.

Lemma Rel_for_each_in {R allowed} {HR : Stable R allowed} {A}
    (xs : list A) (body : A -> M unit) :
  (forall x, In x xs -> Rel R (body x)) -> Rel R (for_each xs body).
Proof.
  induction xs as [| x xs IH]; intro Hb; simpl.
  - apply Rel_ret.
  - apply Rel_bind; [apply Hb; left; reflexivity |].
    intro. apply IH. intros y Hy. apply Hb. right. exact Hy.
Qed.

Lemma holds_refl h : holds (Some h) h = true.
Proof. apply Nat.eqb_refl. Qed.

Lemma held_frame_in f fs : In f fs -> existsb (Nat.eqb f) fs = true.
Proof. intro H. apply existsb_exists. exists f. split; [exact H | apply Nat.eqb_refl]. Qed.

Lemma Uses_assoc {A B C} e v (m : M A) (k1 : A -> M B) (k2 : B -> M C) :
  Uses e v (bind m (fun a => bind (k1 a) k2)) -> Uses e v (bind (bind m k1) k2).
Proof.
  intros H Hv w s He Hs Hp. specialize (H Hv w s He Hs Hp). rewrite !run_bind in *.
  destruct (m w s) as [[a | ex] s1]; exact H.
Qed.

Lemma Uses_ret_bind {A B} e v (a : A) (k : A -> M B) :
  Uses e v (k a) -> Uses e v (bind (ret a) k).
Proof. intro H. exact H. Qed.

Lemma Uses_leaf {A} e v (m : M A) :
  Rel (keeps_held e) m -> Rel same_vars m -> Uses e v m.
Proof.
  intros Hm Hvars Hv w s He Hs Hp.
  destruct (Hm w s (conj He Hp)) as [He' Hp'].
  split; [exact Hp' |]. rewrite He'.
  destruct (Hvars w s) as (H1 & H2 & H3). unfold vars. rewrite H1, H2, H3.
  fold (vars s). rewrite Hs. exact Hv.
Qed.

Lemma Uses_leaf_bind {A B} e v (m : M A) (k : A -> M B) :
  Rel (keeps_held e) m -> Rel same_vars m ->
  (forall a, Uses e v (k a)) -> Uses e v (bind m k).
Proof.
  intros Hm Hvars Hk Hv w s He Hs Hp. rewrite run_bind.
  pose proof (Uses_leaf e v m Hm Hvars Hv w s He Hs Hp) as Hsound.
  destruct (Hm w s (conj He Hp)) as [He' Hp'].
  destruct (Hvars w s) as (H1 & H2 & H3).
  destruct (m w s) as [[a | ex] s1]; cbn [fst snd] in *; [| exact Hsound].
  apply Hk; auto. unfold vars. rewrite H1, H2, H3. exact Hs.
Qed.

Lemma Uses_obtain {B} e v l c (k : nat -> M B) :
  admits e l c = true ->
  (forall n, agree v (obtain e c n)) ->
  (forall n, Uses (obtain e c n) v (k n)) ->
  Uses e v (bind (await_int l c) k).
Proof.
  intros Ha Hv' Hk Hv w s He Hs Hp. rewrite run_bind_await_int.
  set (r := w (length (log s)) c).
  assert (Hp1 : provenance (log (record (Ev l c r) s)) = true).
  { cbn [log record provenance ev_line ev_call]. rewrite He, Ha, Hp. reflexivity. }
  destruct (fault r) as [[cls msg] |] eqn:E.
  - split; [exact Hp1 |]. cbn [snd log record].
    rewrite (held_raised _ _ _ _ _ _ E), He. unfold vars in *. simpl. rewrite Hs.
    exact Hv.
  - apply Hk; auto.
    cbn [log record]. rewrite (held_returned _ _ _ _ E), He. reflexivity.
Qed.

Lemma Uses_set_pw {B} e p b c x (k : unit -> M B) :
  agree (x, b, c) e -> Uses e (x, b, c) (k tt) ->
  Uses e (p, b, c) (bind (set_pw x) k).
Proof.
  intros Hv' Hk Hv w s He Hs Hp. rewrite run_bind. cbn [set_pw].
  apply Hk; auto. unfold vars in *. simpl. congruence.
Qed.

Lemma Uses_set_browser {B} e p b c x (k : unit -> M B) :
  agree (p, x, c) e -> Uses e (p, x, c) (k tt) ->
  Uses e (p, b, c) (bind (set_browser x) k).
Proof.
  intros Hv' Hk Hv w s He Hs Hp. rewrite run_bind. cbn [set_browser].
  apply Hk; auto. unfold vars in *. simpl. congruence.
Qed.

Lemma Uses_set_context {B} e p b c x (k : unit -> M B) :
  agree (p, b, x) e -> Uses e (p, b, x) (k tt) ->
  Uses e (p, b, c) (bind (set_context x) k).
Proof.
  intros Hv' Hk Hv w s He Hs Hp. rewrite run_bind. cbn [set_context].
  apply Hk; auto. unfold vars in *. simpl. congruence.
Qed.

(** A release call on the object its variable holds. *)
Lemma sound_release l c r s :
  sound s -> admits (held (log s)) l c = true -> obtains c = false ->
  sound (record (Ev l c r) s).
Proof.
  intros [Hp Hv] Ha Ho. split.
  - cbn [log record provenance ev_line ev_call]. rewrite Ha, Hp. reflexivity.
  - cbn [log record]. rewrite held_record by exact Ho. exact Hv.
Qed.

Lemma finalizer_sound fin w s : sound s -> sound (snd (finalizer fin w s)).
Proof.
  intro H. unfold finalizer, close_context, close_browser, stop.
  rewrite run_bind. cbn [get].
  assert (H1 : forall s1, sound s1 ->
            sound (snd ((b <- get browser ;;
                         match b with
                         | Some h => await_ (fin + 4) (BrowserClose h)
                         | None => ret tt
                         end ;;
                         p <- get pw ;;
                         match p with
                         | Some h => await_ (fin + 6) (PlaywrightStop h)
                         | None => ret tt
                         end) w s1))).
  { intros s1 Hs1. rewrite run_bind. cbn [get].
    assert (H2 : forall s2, sound s2 ->
              sound (snd ((p <- get pw ;;
                           match p with
                           | Some h => await_ (fin + 6) (PlaywrightStop h)
                           | None => ret tt
                           end) w s2))).
    { intros s2 Hs2. rewrite run_bind. cbn [get].
      destruct (pw s2) as [h |] eqn:Evar; [| exact Hs2].
      rewrite run_await_.
      assert (Hr : forall r, sound (record (Ev (fin + 6) (PlaywrightStop h) r) s2)).
      { intro r. apply sound_release; [exact Hs2 | | reflexivity].
        destruct Hs2 as [_ (Hpw & _ & _)]. unfold vars in Hpw. simpl in Hpw.
        rewrite Evar in Hpw. destruct Hpw as [Hpw | Hpw]; [discriminate |].
        cbn [admits]. rewrite <- Hpw. apply holds_refl. }
      destruct (fault _) as [[cls msg] |]; apply Hr. }
    destruct (browser s1) as [h |] eqn:Evar.
    - rewrite run_bind_await_.
      assert (Hr : forall r, sound (record (Ev (fin + 4) (BrowserClose h) r) s1)).
      { intro r. apply sound_release; [exact Hs1 | | reflexivity].
        destruct Hs1 as [_ (_ & Hb & _)]. unfold vars in Hb. simpl in Hb.
        rewrite Evar in Hb. destruct Hb as [Hb | Hb]; [discriminate |].
        cbn [admits]. rewrite <- Hb. apply holds_refl. }
      destruct (fault _) as [[cls msg] |]; [apply Hr | apply H2, Hr].
    - rewrite run_ret_bind. apply H2, Hs1. }
  destruct (context s) as [h |] eqn:Evar.
  - rewrite run_bind_await_.
    assert (Hr : forall r, sound (record (Ev (fin + 2) (ContextClose h) r) s)).
    { intro r. apply sound_release; [exact H | | reflexivity].
      destruct H as [_ (_ & _ & Hc)]. unfold vars in Hc. simpl in Hc.
      rewrite Evar in Hc. destruct Hc as [Hc | Hc]; [discriminate |].
      cbn [admits]. rewrite <- Hc. apply holds_refl. }
    destruct (fault _) as [[cls msg] |]; [apply Hr | apply H1, Hr].
  - rewrite run_ret_bind. apply H1, H.
Qed.

Lemma run_test_provenance steps fin w :
  Uses nothing_held (None, None, None)
    (bind setup (fun cp => steps (fst cp) (snd cp))) ->
  provenance (log (snd (run_test steps fin w initial_state))) = true.
Proof.
  intro H. unfold run_test.
  repeat (rewrite run_bind;
          cbn [set_pw set_browser set_context log pw browser context stdout
               initial_state]).
  unfold try_finally.
  assert (Hv : agree (None, None, None) nothing_held)
    by (repeat split; left; reflexivity).
  pose proof (H Hv w (State [] None None None []) eq_refl eq_refl eq_refl) as Hs.
  destruct (bind setup _ w _) as [[u | e] s1]; cbn [snd] in Hs;
    pose proof (finalizer_sound fin w s1 Hs) as [Hf _];
    destruct (finalizer fin w s1) as [[u' | e'] s2]; exact Hf.
Qed.

(** The side conditions of a walk: a call on a held object. *)
Ltac held_side :=
  unfold uses_held; cbn;
  first
    [ reflexivity
    | rewrite Nat.eqb_refl; reflexivity
    | rewrite held_frame_in by assumption; reflexivity ].

Ltac held_step :=
  lazymatch goal with
  | |- Rel (keeps_held _) (ret _) => apply Rel_ret
  | |- Rel (keeps_held _) (raise_ _ _) => apply Rel_raise
  | |- Rel (keeps_held _) (print _) => apply Rel_held_print
  | |- Rel (keeps_held _) (await_ _ _) => apply Rel_await_; held_side
  | |- Rel (keeps_held _) (await_int _ _) => apply Rel_await_int; held_side
  | |- Rel (keeps_held _) (await_str _ _) => apply Rel_await_str; held_side
  | |- Rel (keeps_held _) (bind _ _) => apply Rel_bind; [| intro]
  | |- Rel (keeps_held _) (try_except _ _ _) => apply Rel_try_except; [| intro]
  | |- Rel (keeps_held _) (for_each _ _) =>
      apply Rel_for_each_in; let x := fresh "x" in let Hx := fresh "Hx" in
      intros x Hx
  | |- Rel (keeps_held _) (if _ then _ else _) => apply Rel_if
  end.

Ltac agree_side :=
  unfold agree; cbn;
  repeat split; first [left; reflexivity | right; reflexivity].

Ltac uses_obtain :=
  apply Uses_obtain;
  [ cbn; first [reflexivity | rewrite Nat.eqb_refl; reflexivity]
  | intro; agree_side
  | intro; cbn [obtain held_pw held_browser held_context held_page held_frame
                held_frames] ].

Ltac uses_step :=
  lazymatch goal with
  | |- Uses _ _ (bind (bind _ _) _) => apply Uses_assoc
  | |- Uses _ _ (bind (ret _) _) => apply Uses_ret_bind; cbv beta; cbn [fst snd]
  | |- Uses _ _ (bind (set_pw _) _) => apply Uses_set_pw; [agree_side |]
  | |- Uses _ _ (bind (set_browser _) _) => apply Uses_set_browser; [agree_side |]
  | |- Uses _ _ (bind (set_context _) _) => apply Uses_set_context; [agree_side |]
  | |- Uses _ _ (bind (await_int _ PlaywrightStart) _) => uses_obtain
  | |- Uses _ _ (bind (await_int _ (ChromiumLaunch _ _ _)) _) => uses_obtain
  | |- Uses _ _ (bind (await_int _ (NewContext _)) _) => uses_obtain
  | |- Uses _ _ (bind (await_int _ (NewPage _)) _) => uses_obtain
  | |- Uses _ _ (bind (await_int _ (ContextPagesLast _)) _) => uses_obtain
  | |- Uses _ _ (bind (await_int _ (PageFrames _)) _) => uses_obtain
  | |- Uses _ _ (bind _ _) =>
      apply Uses_leaf_bind;
      [solve [repeat held_step] | solve [repeat rel_step] | intro]
  | |- Uses _ _ _ =>
      apply Uses_leaf; [solve [repeat held_step] | solve [repeat rel_step]]
  end.

Lemma run_provenance sc w :
  In sc suite -> provenance (log (snd (run sc w))) = true.
Proof.
  intro Hsc. apply run_test_provenance.
  each_script Hsc; open_script; unfold_calls; cbv zeta; repeat uses_step.
Qed.

Lemma provenance_split post ev pre :
  provenance (post ++ ev :: pre) = true ->
  admits (held pre) (ev_line ev) (ev_call ev) = true.
Proof.
  induction post as [| x post IH]; simpl; intro H;
    apply andb_true_iff in H; destruct H as [H1 H2]; [exact H1 | apply IH, H2].
Qed.

(** X9: every call of a run is made on an object the run holds at that moment:
    the driver, the browser, the context or the page that the preamble
    obtained, a frame that [page.frames] reported, and, for every element
    that is clicked, filled, counted or asserted on, the page that
    [context.pages[-1]] returned last. *)
Theorem calls_on_held_objects sc w pre ev post :
  In sc suite ->
  history (snd (run sc w)) = pre ++ ev :: post ->
  admits (held (rev pre)) (ev_line ev) (ev_call ev) = true.
Proof.
  intros Hsc Hh. pose proof (run_provenance sc w Hsc) as Hp.
  apply history_split in Hh. rewrite Hh in Hp.
  apply provenance_split in Hp. exact Hp.
Qed.

Lemma calls_on_held_objects_witness :
  let h := history (snd (run TC001 numbered)) in
  let ev := Ev 53 (Click (nth_ (locator_ 10
              "xpath=html/body/div[2]/main/div/div[2]/div[2]/a/button") 0) 5000)
              (Reply None 12 EmptyString) in
  In TC001 suite /\
  h = firstn 12 h ++ ev :: skipn 13 h /\
  held_frame (held (rev (firstn 12 h))) = Some 10 /\
  admits (held (rev (firstn 12 h))) (ev_line ev) (ev_call ev) = true.
Proof.
  intros h ev.
  assert (Hh : h = firstn 12 h ++ ev :: skipn 13 h) by (vm_compute; reflexivity).
  split; [simpl; tauto |]. split; [exact Hh |].
  split; [vm_compute; reflexivity |].
  apply (calls_on_held_objects TC001 numbered (firstn 12 h) ev (skipn 13 h));
    [simpl; tauto | exact Hh].
Defined.

(** ** Where the scripts navigate *)

(** X10: every navigation of every script goes to the application at
    [http://localhost:3000], with a timeout of 10 s. *)
Theorem navigation_stays_local sc w ev page url wait_until t :
  In sc suite ->
  In ev (history (snd (run sc w))) ->
  ev_call ev = Goto page url wait_until t ->
  on_application url = true /\ t = 10000%N.
Proof.
  intros Hsc Hin Hc.
  assert (HR : Rel (keeps (all_calls stays_local))
                 (run_test (steps sc) (finally_line sc))).
  { each_script Hsc; open_script; rel_walk. }
  pose proof (HR w initial_state (Forall_nil _)) as Hall.
  apply in_history in Hin.
  pose proof (proj1 (Forall_forall _ _) Hall ev Hin) as H. cbv beta in H.
  rewrite Hc in H. simpl in H. apply andb_true_iff in H. destruct H as [H1 H2].
  split; [exact H1 | apply N.eqb_eq, H2].
Qed.

Lemma navigation_stays_local_witness :
  let ev := Ev 77 (Goto 0 "http://localhost:3000/sessions/USER_B_SESSION_ID"
                     None 10000) (Reply None 0 EmptyString) in
  In TC015 suite /\
  In ev (history (snd (run TC015 calm))) /\
  on_application "http://localhost:3000/sessions/USER_B_SESSION_ID" = true /\
  10000%N = 10000%N.
Proof.
  intro ev.
  assert (Hin : In ev (history (snd (run TC015 calm)))).
  { apply nth_error_In with (n := 21). vm_compute. reflexivity. }
  split; [simpl; tauto |]. split; [exact Hin |].
  apply (navigation_stays_local TC015 calm ev 0 _ None 10000);
    [simpl; tauto | exact Hin | reflexivity].
Defined.

(** ** How long the calls may wait *)

Lemma within_budget_any c earlier :
  is_fill c = false -> within_budget c earlier = within_budget c [].
Proof. intro H. destruct c; try discriminate; reflexivity. Qed.

Lemma default_timeout_record l c r older :
  is_set_default c = false ->
  default_timeout (Ev l c r :: older) = default_timeout older.
Proof. intro H. destruct c; try discriminate; reflexivity. Qed.

#[export] Instance Stable_budget : Stable (keeps budget_kept) before_default.
Proof.
  split.
  - intros s H. exact H.
  - intros s1 s2 s3 Ha Hb H. auto.
  - intros l c r s Hc H. unfold before_default in Hc.
    apply andb_true_iff in Hc. destruct Hc as [Hc Hw].
    apply andb_true_iff in Hc. destruct Hc as [_ Hf].
    apply negb_true_iff in Hf.
    unfold budget_kept in *. cbn [log record budgeted ev_call].
    rewrite (within_budget_any _ _ Hf), Hw, H. reflexivity.
Qed.

#[export] Instance Stable_budget_by_default :
  Stable (keeps budget_kept_by_default) after_default.
Proof.
  split.
  - intros s H. exact H.
  - intros s1 s2 s3 Ha Hb H. auto.
  - intros l c r s Hc [H Hd]. unfold after_default in Hc.
    apply andb_true_iff in Hc. destruct Hc as [Hs Hw].
    apply negb_true_iff in Hs.
    split; cbn [log record]; [| rewrite default_timeout_record; assumption].
    cbn [budgeted ev_call]. rewrite H, andb_true_r.
    destruct (is_fill c) eqn:Ef.
    + destruct c; try discriminate. unfold within_budget. cbn [budget is_action].
      rewrite Hd. reflexivity.
    + rewrite (within_budget_any _ _ Ef). exact Hw.
Qed.

Lemma Budgets_assoc {A B C} (m : M A) (k1 : A -> M B) (k2 : B -> M C) :
  Budgets (bind m (fun a => bind (k1 a) k2)) -> Budgets (bind (bind m k1) k2).
Proof.
  intros H w s Hp. specialize (H w s Hp). rewrite !run_bind in *.
  destruct (m w s) as [[a | e] s1]; exact H.
Qed.

Lemma Budgets_before {A B} (m : M A) (k : A -> M B) :
  Rel (keeps budget_kept) m -> (forall a, Budgets (k a)) -> Budgets (bind m k).
Proof.
  intros Hm Hk w s Hp. rewrite run_bind. specialize (Hm w s Hp).
  destruct (m w s) as [[a | e] s1]; cbn [fst snd] in *; [apply Hk, Hm | exact Hm].
Qed.

(** Line 27: from here on the default timeout is 5 s. *)
Lemma Budgets_default {B} l c (k : unit -> M B) :
  (forall u, Rel (keeps budget_kept_by_default) (k u)) ->
  Budgets (bind (await_ l (SetDefaultTimeout c 5000)) k).
Proof.
  intros Hk w s Hp. rewrite run_bind_await_.
  set (r := w (length (log s)) (SetDefaultTimeout c 5000)).
  assert (H1 : budget_kept (log (record (Ev l (SetDefaultTimeout c 5000) r) s))).
  { unfold budget_kept in *. cbn [log record budgeted ev_call]. rewrite Hp.
    reflexivity. }
  destruct (fault r) as [[cls msg] |] eqn:E; [exact H1 |].
  apply Hk. split; [exact H1 |].
  cbn [log record default_timeout]. unfold sets_default, faulted. simpl.
  rewrite E. reflexivity.
Qed.

Lemma Budgets_try_finally {A} (m : M A) fin :
  Budgets m -> Rel (keeps budget_kept) fin -> Budgets (try_finally m fin).
Proof.
  intros Hm Hf w s Hp. unfold try_finally. specialize (Hm w s Hp).
  destruct (m w s) as [[a | e] s1]; cbn [fst snd] in *;
    specialize (Hf w s1 Hm);
    destruct (fin w s1) as [[u | e'] s2]; exact Hf.
Qed.

Ltac budgets_step :=
  lazymatch goal with
  | |- Budgets (try_finally _ _) =>
      apply Budgets_try_finally; [| solve [repeat rel_step]]
  | |- Budgets (bind (bind _ _) _) => apply Budgets_assoc
  | |- Budgets (bind (await_ _ (SetDefaultTimeout _ _)) _) =>
      apply Budgets_default; intro; cbv beta; solve [repeat rel_step]
  | |- Budgets (bind _ _) =>
      apply Budgets_before; [solve [repeat rel_step] | intro; cbv beta]
  end.

Lemma run_budgeted sc w : In sc suite -> budgeted (log (snd (run sc w))) = true.
Proof.
  intro Hsc.
  assert (HB : Budgets (run_test (steps sc) (finally_line sc))).
  { each_script Hsc; open_script; unfold_calls; cbv zeta; repeat budgets_step. }
  apply HB. reflexivity.
Qed.

Lemma budgeted_split post ev pre :
  budgeted (post ++ ev :: pre) = true -> within_budget (ev_call ev) pre = true.
Proof.
  induction post as [| x post IH]; simpl; intro H;
    apply andb_true_iff in H; destruct H as [H1 H2]; [exact H1 | apply IH, H2].
Qed.

(** X11: every timeout and duration the scripts pass is bounded: a call that
    is given a time ([goto], [wait_for_load_state], [wait_for_timeout],
    [click], [to_be_visible], [asyncio.sleep]) is given at most 30 s, and a
    click 5 s; and every [fill], which is passed no timeout, is made after
    [set_default_timeout(5000)] returned, so that the default timeout in
    force is 5 s.  Nothing is said of the calls that are given no time. *)
Theorem calls_within_budget sc w pre ev post t :
  In sc suite ->
  history (snd (run sc w)) = pre ++ ev :: post ->
  budget (ev_call ev) (rev pre) = Some t ->
  (t <= 30000)%N /\ (is_action (ev_call ev) = true -> t = 5000%N).
Proof.
  intros Hsc Hh Hb. pose proof (run_budgeted sc w Hsc) as H.
  apply history_split in Hh. rewrite Hh in H. apply budgeted_split in H.
  unfold within_budget in H. rewrite Hb in H.
  destruct (is_action (ev_call ev)).
  - apply N.eqb_eq in H. subst t. split; [discriminate | reflexivity].
  - apply N.leb_le in H. split; [exact H | discriminate].
Qed.

Lemma calls_within_budget_witness :
  let h := history (snd (run TC001 calm)) in
  let ev := Ev 67 (Fill (nth_ (locator_ 0
              "xpath=html/body/div[2]/main/div/div/div[2]/div/form/div/input") 0)
              "mrwaywithwords@gmail.com") (Reply None 0 EmptyString) in
  In TC001 suite /\
  h = firstn 17 h ++ ev :: skipn 18 h /\
  budget (ev_call ev) (rev (firstn 17 h)) = Some 5000%N /\
  (5000 <= 30000)%N /\ (is_action (ev_call ev) = true -> 5000%N = 5000%N).
Proof.
  intros h ev.
  assert (Hh : h = firstn 17 h ++ ev :: skipn 18 h) by (vm_compute; reflexivity).
  assert (Hb : budget (ev_call ev) (rev (firstn 17 h)) = Some 5000%N)
    by (vm_compute; reflexivity).
  split; [simpl; tauto |]. split; [exact Hh |]. split; [exact Hb |].
  apply (calls_within_budget TC001 calm (firstn 17 h) ev (skipn 18 h) 5000);
    [simpl; tauto | exact Hh | exact Hb].
Defined.

(** ** Scrolling by the height of the window *)

Lemma not_height_read l c r : is_evaluate c = false -> height_read (Ev l c r) = false.
Proof. unfold height_read. destruct c; simpl; congruence. Qed.

Lemma heights_scrolled_record ev s :
  height_read ev = false -> heights_scrolled (log s) ->
  heights_scrolled (log (record ev s)).
Proof.
  intros He [Ha Hp]. split; simpl.
  - rewrite Ha. destruct (log s) as [| ht older]; [reflexivity |].
    simpl in Hp. apply negb_true_iff in Hp. rewrite Hp. reflexivity.
  - rewrite He. reflexivity.
Qed.

#[export] Instance Stable_heights :
  Stable (keeps heights_scrolled) (fun _ c => negb (is_evaluate c)).
Proof.
  split.
  - intros s H. exact H.
  - intros s1 s2 s3 Ha Hb H. auto.
  - intros l c r s Hc H. apply heights_scrolled_record; [| exact H].
    apply not_height_read, negb_true_iff, Hc.
Qed.

(** [await page.mouse.wheel(0, await page.evaluate(...))] *)
Lemma Rel_scroll_by_height {B} l page js (k : unit -> M B) :
  (forall u, Rel (keeps heights_scrolled) (k u)) ->
  Rel (keeps heights_scrolled)
    (bind (await_int l (Evaluate page js))
       (fun height => bind (await_ l (MouseWheel page 0 height)) k)).
Proof.
  intros Hk w s H. rewrite run_bind_await_int.
  set (r1 := w (length (log s)) (Evaluate page js)).
  destruct (fault r1) as [[cls msg] |] eqn:E1.
  - apply (heights_scrolled_record (Ev l (Evaluate page js) r1) s); [| exact H].
    unfold height_read, faulted. simpl. rewrite E1. apply andb_false_r.
  - set (s1 := record (Ev l (Evaluate page js) r1) s).
    rewrite run_bind_await_.
    set (r2 := w (length (log s1)) (MouseWheel page 0 (int_val r1))).
    assert (H2 : heights_scrolled
                   (log (record (Ev l (MouseWheel page 0 (int_val r1)) r2) s1))).
    { destruct H as [Ha Hp]. split; [| reflexivity].
      cbn [log record heights_used s1]. rewrite Ha.
      assert (Hs : scrolls_by (Ev l (Evaluate page js) r1)
                     (Ev l (MouseWheel page 0 (int_val r1)) r2) = true)
        by (unfold scrolls_by; simpl; rewrite !Nat.eqb_refl; reflexivity).
      rewrite Hs.
      destruct (height_read (Ev l (Evaluate page js) r1));
        destruct (log s) as [| ht older]; simpl in *; try reflexivity;
        apply negb_true_iff in Hp; rewrite Hp; reflexivity. }
    destruct (fault r2) as [[cls msg] |].
    + exact H2.
    + apply Hk. exact H2.
Qed.

Ltac heights_step :=
  lazymatch goal with
  | |- Rel (keeps heights_scrolled)
         (bind (await_int _ (Evaluate _ _)) (fun _ => bind (await_ _ _) _)) =>
      apply Rel_scroll_by_height; intro
  | |- _ => rel_step
  end.

Lemma run_heights_scrolled sc w :
  In sc suite -> heights_scrolled (log (snd (run sc w))).
Proof.
  intro Hsc.
  assert (HR : Rel (keeps heights_scrolled) (run_test (steps sc) (finally_line sc))).
  { each_script Hsc; open_script; unfold_calls; cbv zeta; repeat heights_step. }
  apply HR. split; reflexivity.
Qed.

Lemma heights_used_split post ht pre :
  heights_used (post ++ ht :: pre) = true ->
  height_read ht = true ->
  post <> [] ->
  exists ev post', post = post' ++ [ev] /\ scrolls_by ht ev = true.
Proof.
  induction post as [| ev post IH]; intros Ha Hw Hne; [contradiction |].
  cbn [app heights_used] in Ha.
  apply andb_true_iff in Ha. destruct Ha as [Hhead Ha].
  destruct post as [| ev' post].
  - simpl in Hhead. rewrite Hw in Hhead. exists ev, []. auto.
  - destruct (IH Ha Hw) as (a & post' & Hpost & Hs); [discriminate |].
    exists a, (ev :: post'). rewrite Hpost. auto.
Qed.

(** X12: whenever the height of the window was read, the very next call scrolls
    the same page down by exactly that height. *)
Theorem scrolls_by_height_read sc w pre ht post :
  In sc suite ->
  history (snd (run sc w)) = pre ++ ht :: post ->
  height_read ht = true ->
  exists ev post', post = ev :: post' /\ scrolls_by ht ev = true.
Proof.
  intros Hsc Hh Hw. destruct (run_heights_scrolled sc w Hsc) as [Ha Hp].
  apply history_split in Hh. rewrite Hh in Ha, Hp.
  destruct (heights_used_split _ _ _ Ha Hw) as (ev & post' & Hpost & Hs).
  - intro E. rewrite E in Hp. simpl in Hp. rewrite Hw in Hp. discriminate.
  - exists ev, (rev post'). split; [| exact Hs].
    rewrite <- (rev_involutive post), Hpost, rev_app_distr. reflexivity.
Qed.

Lemma scrolls_by_height_read_witness :
  let h := history (snd (run TC016 numbered)) in
  let ht := Ev 76 (Evaluate 4 "() => window.innerHeight")
              (Reply None 22 EmptyString) in
  In TC016 suite /\
  h = firstn 22 h ++ ht :: skipn 23 h /\
  height_read ht = true /\
  exists ev post', skipn 23 h = ev :: post' /\ scrolls_by ht ev = true.
Proof.
  intros h ht.
  assert (Hh : h = firstn 22 h ++ ht :: skipn 23 h) by (vm_compute; reflexivity).
  split; [simpl; tauto |]. split; [exact Hh |]. split; [reflexivity |].
  apply (scrolls_by_height_read TC016 numbered (firstn 22 h) ht (skipn 23 h));
    [simpl; tauto | exact Hh | reflexivity].
Defined.
